(** * swush-manager: ingestion and trigger engines

    A shallow embedding of the three service modules of the repository
    (the partner API client, the sync service and the Braze trigger
    service, with the alert service they call) together with the
    properties that the specification states about them.

    Conventions of the embedding.
    - A TypeScript [number] holding an integer (round index, HTTP status,
      page number, element id, millisecond timestamp) is a [Z].  A quotient
      of two such numbers that is only compared against a constant is an
      exact rational ([Q]); [x / 0] is kept apart as the values Infinity
      and NaN of the language.
    - A timestamp column ([string | null] holding an ISO-8601 instant) is an
      [option Z]: the milliseconds that [new Date(s).getTime()] reads.
    - [T | null] and optional fields are [option T].
    - Tables of the store are finite maps keyed by their unique key, or
      lists when rows are only appended.
    - Whatever the outside world decides (what an HTTP endpoint answers and
      how long it takes, whether the store accepts a write, the id it gives
      to a new row) is an explicit argument. *)

From Stdlib Require Import ZArith QArith Qround List Bool Lia.
From stdpp Require Import gmap strings pretty.
Import ListNotations.

Local Open Scope string_scope.
Local Open Scope list_scope.
Local Open Scope Z_scope.

(** ** JavaScript helpers *)

(** [a || b] on a string that may be absent: the empty string is falsy. *)
Definition str_or (a : option string) (b : string) : string :=
  match a with
  | Some s => if String.eqb s "" then b else s
  | None => b
  end.

(** [n || d] on a number that may be [null]: 0 is falsy. *)
Definition num_or (n : option Z) (d : Z) : Z :=
  match n with
  | Some v => if v =? 0 then d else v
  | None => d
  end.

(** Strict equality [===] of two values of type [number | null]. *)
Definition opt_Z_eqb (a b : option Z) : bool :=
  match a, b with
  | Some x, Some y => x =? y
  | None, None => true
  | _, _ => false
  end.

(** Template-literal rendering of a [number | null]. *)
Definition show_opt_Z (a : option Z) : string :=
  match a with
  | Some x => pretty x
  | None => "null"
  end.

(** Template-literal rendering of a [string | null]. *)
Definition show_opt_string (a : option string) : string :=
  match a with
  | Some s => s
  | None => "null"
  end.

(** A JavaScript number obtained as the quotient of two integers. *)
Inductive JsNumber : Type :=
| NaN
| Infinity
| NegInfinity
| Finite (q : Q).

Definition js_div (a b : Z) : JsNumber :=
  if b =? 0 then
    if a =? 0 then NaN else if 0 <? a then Infinity else NegInfinity
  else Finite (inject_Z a / inject_Z b).

Definition Qltb (x y : Q) : bool := negb (Qle_bool y x).

(** [x > c], [x >= c], [x < c], [x <= c]: every comparison with NaN is false. *)
Definition js_gt (x : JsNumber) (c : Q) : bool :=
  match x with
  | NaN => false
  | Infinity => true
  | NegInfinity => false
  | Finite q => Qltb c q
  end.

Definition js_ge (x : JsNumber) (c : Q) : bool :=
  match x with
  | NaN => false
  | Infinity => true
  | NegInfinity => false
  | Finite q => Qle_bool c q
  end.

Definition js_le (x : JsNumber) (c : Q) : bool :=
  match x with
  | NaN => false
  | Infinity => false
  | NegInfinity => true
  | Finite q => Qle_bool q c
  end.

(** ** The fetch API with an abort timer *)

Module Fetch.

Record JsError : Type := mkJsError { err_name : string; err_message : string }.

(** What [await response.json()] finds in the body. *)
Inductive Json (T : Type) : Type :=
| JsonInvalid
| JsonNull
| JsonValue (v : T).
Arguments JsonInvalid {T}.
Arguments JsonNull {T}.
Arguments JsonValue {T} v.

(** How the promise returned by [fetch] settles: a response with a status, or
    an exception, which is an [Error] object or some other thrown value. *)
Inductive Settled (T : Type) : Type :=
| Resolved (status : Z) (statusText : string) (body : Json T)
| Thrown (e : option JsError).
Arguments Resolved {T} status statusText body.
Arguments Thrown {T} e.

(** The remote end on one request: after [latency] milliseconds it settles
    the request as [settles]. *)
Record Endpoint (T : Type) : Type := mkEndpoint { latency : Z; settles : Settled T }.
Arguments mkEndpoint {T} latency settles.
Arguments latency {T} e.
Arguments settles {T} e.

Definition AbortError : JsError :=
  {| err_name := "AbortError"; err_message := "This operation was aborted" |}.

(** [fetch(url, { signal })] raced against
    [setTimeout(() => controller.abort(), timeout)]. *)
Definition fetch {T} (timeout : Z) (srv : Endpoint T) : Settled T :=
  if timeout <=? latency srv then Thrown (Some AbortError) else settles srv.

(** [response.ok] *)
Definition ok (status : Z) : bool := (200 <=? status) && (status <=? 299).

End Fetch.
Import Fetch.

(** ** src/types/index.ts *)

Record SwushRound : Type := mkSwushRound {
  round_index : Z;
  round_start : option Z;
  tradeCloses : option Z;
  round_end : option Z;
  isVerified : Z;
  round_state_of : string
}.

Record SwushElement : Type := mkSwushElement {
  elementId : Z;
  imageUrl : string;
  url : string;
  shortName : string;
  fullName : string;
  teamName : option string;
  popularity : Q;
  trend : Z;
  growth : Z;
  totalGrowth : Z;
  value : Z
}.

Record SwushUserteam : Type := mkSwushUserteam {
  ut_name : option string;
  ut_score : option Z;
  ut_rank : option Z;
  roundScore : option Z;
  roundRank : option Z;
  roundJump : option Z;
  lineupElementIds : option (list Z)
}.

Record SwushUser : Type := mkSwushUser {
  user_id : Z;
  user_name : option string;
  externalId : option string;
  injured : option Z;
  suspended : option Z;
  userteams : option (list SwushUserteam)
}.

Record SwushGameResponse : Type := mkSwushGameResponse {
  gameId : Z;
  userteamsCount : Z;
  currentRoundIndex : option Z;
  rounds : list SwushRound
}.

Record SwushUsersResponse : Type := mkSwushUsersResponse {
  usersTotal : Z;
  pages : Z;
  page : Z;
  pageSize : Z;
  users : list SwushUser
}.

Record Game : Type := mkGame {
  game_id : string;
  game_key : string;
  name : string;
  subsite_key : string;
  is_active : bool;
  current_round : option Z;
  total_rounds : Z;
  round_state : option string;
  next_trade_deadline : option Z;
  current_round_start : option Z;
  current_round_end : option Z;
  sync_interval_minutes : Z;
  last_synced_at : option Z;
  swush_game_id : option Z;
  game_url : option string;
  users_total : Z
}.

(** The three values that the [trigger_type] column admits (its CHECK
    constraint and the union type of [GameTrigger]). *)
Inductive TriggerType : Type := deadline_reminder_24h | round_started | round_ended.

Definition trigger_type_name (t : TriggerType) : string :=
  match t with
  | deadline_reminder_24h => "deadline_reminder_24h"
  | round_started => "round_started"
  | round_ended => "round_ended"
  end.

Record GameTrigger : Type := mkGameTrigger {
  trigger_id : string;
  trigger_game_id : string;
  trigger_type : TriggerType;
  braze_campaign_id : string;
  trigger_is_active : bool;
  last_triggered_at : option Z;
  last_triggered_round : option Z
}.

(** Rows of the other tables.  Columns that the store fills in by itself
    (surrogate [id], [created_at], and [updated_at] where a database trigger
    sets it) are left out; [sync_logs] rows are keyed by their [id]. *)

Record Element : Type := mkElement {
  e_game_id : string;
  e_element_id : Z;
  e_short_name : string;
  e_full_name : string;
  e_team_name : string;
  e_image_url : string;
  e_popularity : Q;
  e_trend : Z;
  e_growth : Z;
  e_total_growth : Z;
  e_value : Z;
  is_injured : bool;
  is_suspended : bool;
  e_updated_at : Z
}.

Record UserGameStats : Type := mkUserGameStats {
  u_external_id : string;
  u_game_id : string;
  swush_user_id : Z;
  u_team_name : string;
  score : Z;
  rank : option Z;
  round_score : Z;
  round_rank : option Z;
  round_jump : Z;
  injured_count : Z;
  suspended_count : Z;
  lineup_element_ids : list Z;
  synced_at : Z
}.

Inductive SyncType : Type := manual | scheduled.
Inductive SyncStatus : Type := started | completed | failed.

Record SyncLog : Type := mkSyncLog {
  sl_game_id : string;
  sync_type : SyncType;
  sl_status : SyncStatus;
  users_synced : Z;
  elements_synced : Z;
  sl_error_message : option string;
  started_at : Z;
  completed_at : option Z
}.

Record BrazeApiResponse : Type := mkBrazeApiResponse {
  dispatch_id : option string;
  message : option string;
  errors : option (list string)
}.

Inductive TriggerStatus : Type := Triggered | Failed | Skipped.

Record TriggerLog : Type := mkTriggerLog {
  tl_game_id : string;
  tl_trigger_id : string;
  tl_trigger_type : string;
  tl_round_index : Z;
  tl_status : TriggerStatus;
  braze_response : option BrazeApiResponse;
  tl_error_message : option string
}.

(** ** The store (Supabase) and the effects of the services *)

(** The statements that the services send to the store. *)
Inductive Statement : Type :=
| SelectActiveGames
| SelectActiveTriggers (gameId : string)
| InsertSyncLog
| UpdateSyncLog (logId : string)
| UpdateGame (gameId : string)
| UpsertElements (first : Z)
| UpsertUserGameStats (pageNumber : Z)
| InsertTriggerLog (triggerId : string)
| UpdateGameTrigger (triggerId : string).

Record Tables : Type := mkTables {
  games : gmap string Game;
  elements : gmap (string * Z) Element;
  user_game_stats : gmap (string * string) UserGameStats;
  sync_logs : gmap string SyncLog;
  game_triggers : gmap string GameTrigger;
  trigger_logs : list TriggerLog
}.

Definition set_games (f : gmap string Game -> gmap string Game) (t : Tables) : Tables :=
  mkTables (f (games t)) (elements t) (user_game_stats t) (sync_logs t)
           (game_triggers t) (trigger_logs t).
Definition set_elements (f : gmap (string * Z) Element -> gmap (string * Z) Element)
    (t : Tables) : Tables :=
  mkTables (games t) (f (elements t)) (user_game_stats t) (sync_logs t)
           (game_triggers t) (trigger_logs t).
Definition set_user_game_stats
    (f : gmap (string * string) UserGameStats -> gmap (string * string) UserGameStats)
    (t : Tables) : Tables :=
  mkTables (games t) (elements t) (f (user_game_stats t)) (sync_logs t)
           (game_triggers t) (trigger_logs t).
Definition set_sync_logs (f : gmap string SyncLog -> gmap string SyncLog) (t : Tables) : Tables :=
  mkTables (games t) (elements t) (user_game_stats t) (f (sync_logs t))
           (game_triggers t) (trigger_logs t).
Definition set_game_triggers (f : gmap string GameTrigger -> gmap string GameTrigger)
    (t : Tables) : Tables :=
  mkTables (games t) (elements t) (user_game_stats t) (sync_logs t)
           (f (game_triggers t)) (trigger_logs t).
Definition set_trigger_logs (f : list TriggerLog -> list TriggerLog) (t : Tables) : Tables :=
  mkTables (games t) (elements t) (user_game_stats t) (sync_logs t)
           (game_triggers t) (f (trigger_logs t)).

(** The trigger properties sent along with a campaign. *)
Record BrazeTriggerProperties : Type := mkBrazeTriggerProperties {
  p_game_key : string;
  p_game_name : string;
  p_current_round : option Z;
  p_total_rounds : Z;
  p_trade_deadline : option Z;
  p_trigger_type : string
}.

(** [POST ${brazeApiUrl}/campaigns/trigger/send] as it leaves the process. *)
Record BrazePost : Type := mkBrazePost {
  post_url : string;
  post_authorization : string;
  post_campaign_id : string;
  post_trigger_properties : BrazeTriggerProperties;
  post_broadcast : bool;
  post_abort_after_ms : Z
}.

(** The argument of [alertService.alertSyncFailure]. *)
Record SyncFailureAlert : Type := mkSyncFailureAlert {
  gameKey : string;
  gameName : option string;
  alert_error : string;
  alert_timestamp : Z;
  lastSuccessfulSync : option Z
}.

(** What a service does that is visible outside the process, in order. *)
Inductive Effect : Type :=
| Sql (s : Statement)
| GetGame (subsiteKey gameKey : string)
| GetElements (subsiteKey gameKey : string)
| GetUsers (subsiteKey gameKey : string) (pageNumber : Z) (attempts : Z)
| Sleep (ms : Z)
| BrazeSend (post : BrazePost)
| AlertSyncFailure (alert : SyncFailureAlert).

(** Everything the outside world decides during one invocation. *)
Record World : Type := mkWorld {
  now : Z;
  sql_error : Statement -> option string;
  new_sync_log_id : string;
  game_endpoint : Endpoint SwushGameResponse;
  elements_endpoint : Endpoint (list SwushElement);
  users_endpoint : Z -> Z -> Endpoint SwushUsersResponse;
  BRAZE_REST_ENDPOINT : option string;
  BRAZE_API_KEY : option string;
  braze_endpoint : string -> Endpoint BrazeApiResponse;
  GAME_BASE_URL_env : option string
}.

(** A computation reads and changes the tables and emits effects. *)
Definition M (A : Type) : Type := Tables -> A * Tables * list Effect.

Definition ret {A} (a : A) : M A := fun t => (a, t, []).

Definition bind {A B} (c : M A) (k : A -> M B) : M B :=
  fun t =>
    let '(a, t1, e1) := c t in
    let '(b, t2, e2) := k a t1 in
    (b, t2, e1 ++ e2).

Definition emit (e : Effect) : M unit := fun t => (tt, t, [e]).
Definition modify (f : Tables -> Tables) : M unit := fun t => (tt, f t, []).
Definition read {A} (f : Tables -> A) : M A := fun t => (f t, t, []).

#[global] Instance M_ret : MRet M := @ret.
#[global] Instance M_bind : MBind M := fun A B k c => bind c k.

(** A write statement: the store either rejects it with an error, and nothing
    changes, or applies it. *)
Definition write (w : World) (s : Statement) (f : Tables -> Tables) : M (option string) :=
  emit (Sql s) ;;
  match sql_error w s with
  | Some err => mret (Some err)
  | None => modify f ;; mret None
  end.

(** ** src/services/swush-client.ts *)

Module SwushClient.

Definition DEFAULT_TIMEOUT_MS : Z := 30000.
Definition RATE_LIMIT_DELAY_MS : Z := 100.
Definition MAX_PAGE_SIZE : Z := 10.
Definition MAX_RETRIES : Z := 3.
Definition RETRY_BASE_DELAY_MS : Z := 1000.

Record SwushApiResponse (T : Type) : Type := mkResponse {
  data : option T;
  error : option string;
  status : Z
}.
Arguments mkResponse {T} data error status.
Arguments data {T} s.
Arguments error {T} s.
Arguments status {T} s.

(** What the client does that the outside can observe. *)
Inductive Event : Type :=
| Requested (attempt : Z)
| Slept (ms : Z).

(** [request<T>(endpoint)] with the client's [timeout]. *)
Definition request {T} (timeout : Z) (srv : Endpoint T) : SwushApiResponse T :=
  match fetch timeout srv with
  | Resolved st stText body =>
      if negb (Fetch.ok st) then
        mkResponse None (Some ("HTTP " +:+ pretty st +:+ ": " +:+ stText)) st
      else
        match body with
        | JsonInvalid => mkResponse None (Some "Invalid JSON response from SWUSH API") 500
        | JsonNull => mkResponse None None st
        | JsonValue d => mkResponse (Some d) None st
        end
  | Thrown (Some e) =>
      if String.eqb (err_name e) "AbortError" then
        mkResponse None (Some ("Request timeout after " +:+ pretty timeout +:+ "ms")) 408
      else mkResponse None (Some (err_message e)) 500
  | Thrown None => mkResponse None (Some "Unknown error occurred") 500
  end.

(** [response.data && !response.error] *)
Definition succeeded {T} (r : SwushApiResponse T) : bool :=
  match data r, error r with
  | Some _, None => true
  | Some _, Some e => String.eqb e ""
  | None, _ => false
  end.

(** [isClientError && !isRetryableClientError] *)
Definition nonRetryable {T} (r : SwushApiResponse T) : bool :=
  let isClientError := (400 <=? status r) && (status r <? 500) in
  let isRetryableClientError := (status r =? 408) || (status r =? 429) in
  isClientError && negb isRetryableClientError.

(** The [for (let attempt = 1; attempt <= maxRetries + 1; attempt++)] loop of
    [requestWithRetry]; [srv a] is the remote end as attempt [a] meets it.
    [fuel] bounds the iterations that are left. *)
Fixpoint retryLoop {T} (timeout : Z) (srv : Z -> Endpoint T) (maxRetries : Z)
    (fuel : nat) (attempt : Z) (lastResponse : option (SwushApiResponse T))
    : option (SwushApiResponse T) * list Event :=
  match fuel with
  | O => (lastResponse, [])
  | S fuel' =>
      if attempt <=? maxRetries + 1 then
        let response := request timeout (srv attempt) in
        if succeeded response then (Some response, [Requested attempt])
        else if nonRetryable response then (Some response, [Requested attempt])
        else if attempt <=? maxRetries then
          let delay := RETRY_BASE_DELAY_MS * 2 ^ (attempt - 1) in
          let (r, evs) :=
            retryLoop timeout srv maxRetries fuel' (attempt + 1) (Some response) in
          (r, Requested attempt :: Slept delay :: evs)
        else
          let (r, evs) :=
            retryLoop timeout srv maxRetries fuel' (attempt + 1) (Some response) in
          (r, Requested attempt :: evs)
      else (lastResponse, [])
  end.

(** [requestWithRetry<T>(endpoint, maxRetries)].  The result is [None] when
    the loop body never ran and [lastResponse!] lets [null] through. *)
Definition requestWithRetry {T} (timeout : Z) (srv : Z -> Endpoint T) (maxRetries : Z)
    : option (SwushApiResponse T) * list Event :=
  retryLoop timeout srv maxRetries (Z.to_nat (maxRetries + 1)) 1 None.

(** [getUsers(subsiteKey, gameKey, page, pageSize)] of a client built by
    [createSwushClient]: the retrying request with the default budget. *)
Definition actualPageSize (pageSize : Z) : Z := Z.min pageSize MAX_PAGE_SIZE.

Definition getUsers (srv : Z -> Endpoint SwushUsersResponse)
    : option (SwushApiResponse SwushUsersResponse) * list Event :=
  requestWithRetry DEFAULT_TIMEOUT_MS srv MAX_RETRIES.

(** [getGame] and [getElements]: one plain request each. *)
Definition getGame (srv : Endpoint SwushGameResponse) : SwushApiResponse SwushGameResponse :=
  request DEFAULT_TIMEOUT_MS srv.

Definition getElements (srv : Endpoint (list SwushElement))
    : SwushApiResponse (list SwushElement) :=
  request DEFAULT_TIMEOUT_MS srv.

End SwushClient.

(** ** src/services/alert-service.ts *)

Module AlertService.

(** [alertSyncFailure(alert)].  Delivery to the webhook is best effort and
    gives nothing back to the caller; the embedding keeps the call and its
    argument. *)
Definition alertSyncFailure (alert : SyncFailureAlert) : M unit :=
  emit (AlertSyncFailure alert).

End AlertService.

(** ** src/services/braze-trigger-service.ts *)

Module BrazeTriggerService.

Definition DEADLINE_REMINDER_MIN_HOURS : Z := 20.
Definition DEADLINE_REMINDER_MAX_HOURS : Z := 28.
Definition BRAZE_REQUEST_TIMEOUT_MS : Z := 30000.

Record TriggerResult : Type := mkTriggerResult {
  success : bool;
  triggered : bool;
  result_message : string;
  brazeResponse : option BrazeApiResponse
}.

Record CheckResult : Type := mkCheckResult {
  shouldTrigger : bool;
  reason : string
}.

(** The result of [triggerBrazeCampaign]:
    [{ success: boolean; response?: BrazeApiResponse; error?: string }]. *)
Record SendResult : Type := mkSendResult {
  sent : bool;
  response : option BrazeApiResponse;
  error : option string
}.

Definition brazeApiUrl (w : World) : string := str_or (BRAZE_REST_ENDPOINT w) "".
Definition brazeApiKey (w : World) : string := str_or (BRAZE_API_KEY w) "".

Definition sendFailed (msg : string) : SendResult := mkSendResult false None (Some msg).

(** The message of the TypeError that reading [data.message] raises when the
    body was the JSON value [null]. *)
Definition null_message_error : string :=
  "Cannot read properties of null (reading 'message')".

Definition triggerBrazeCampaign (w : World) (campaignId : string)
    (triggerProperties : BrazeTriggerProperties) : M SendResult :=
  if String.eqb (brazeApiUrl w) "" || String.eqb (brazeApiKey w) "" then
    mret (mkSendResult true
            (Some (mkBrazeApiResponse None (Some "Skipped - no Braze credentials") None))
            None)
  else
    emit (BrazeSend {|
      post_url := brazeApiUrl w +:+ "/campaigns/trigger/send";
      post_authorization := "Bearer " +:+ brazeApiKey w;
      post_campaign_id := campaignId;
      post_trigger_properties := triggerProperties;
      post_broadcast := true;
      post_abort_after_ms := BRAZE_REQUEST_TIMEOUT_MS |}) ;;
    mret
      match fetch BRAZE_REQUEST_TIMEOUT_MS (braze_endpoint w campaignId) with
      | Resolved st _ body =>
          match body with
          | JsonInvalid => sendFailed "Invalid response from Braze"
          | JsonNull =>
              if negb (Fetch.ok st) then sendFailed null_message_error
              else mkSendResult true None None
          | JsonValue data =>
              if negb (Fetch.ok st) then sendFailed (str_or (message data) "Braze API error")
              else mkSendResult true (Some data) None
          end
      | Thrown (Some e) =>
          if String.eqb (err_name e) "AbortError" then sendFailed "Braze request timeout"
          else sendFailed (err_message e)
      | Thrown None => sendFailed "Unknown error"
      end.

(** [logTrigger]: one row appended to [trigger_logs]; a rejected insert is
    only reported to the application log. *)
Definition logTrigger (w : World) (gameId triggerId triggerType : string) (roundIndex : Z)
    (status : TriggerStatus) (brazeResponse : option BrazeApiResponse)
    (errorMessage : option string) : M unit :=
  write w (InsertTriggerLog triggerId)
    (set_trigger_logs (fun logs =>
       logs ++ [mkTriggerLog gameId triggerId triggerType roundIndex status
                  brazeResponse errorMessage])) ;;
  mret tt.

(** [updateTriggerLastTriggered]: [update ... where id = triggerId]. *)
Definition updateTriggerLastTriggered (w : World) (triggerId : string) (roundIndex : Z)
    : M unit :=
  write w (UpdateGameTrigger triggerId)
    (set_game_triggers (alter (fun t =>
       mkGameTrigger (trigger_id t) (trigger_game_id t) (trigger_type t)
         (braze_campaign_id t) (trigger_is_active t)
         (Some (now w)) (Some roundIndex)) triggerId)) ;;
  mret tt.

(** [differenceInHours(later, earlier)] of date-fns: the difference in
    milliseconds over 3 600 000, rounded towards zero. *)
Definition differenceInHours (later earlier : Z) : Z :=
  Z.quot (later - earlier) (1000 * 60 * 60).

Definition alreadyTriggered (game : Game) : string :=
  "Already triggered for round " +:+ show_opt_Z (current_round game).

Definition checkDeadlineReminder24h (w : World) (game : Game) (trigger : GameTrigger)
    : CheckResult :=
  match next_trade_deadline game with
  | None => mkCheckResult false "No trade deadline set"
  | Some deadline =>
      let hoursUntilDeadline := differenceInHours deadline (now w) in
      if (hoursUntilDeadline <? DEADLINE_REMINDER_MIN_HOURS)
         || (hoursUntilDeadline >? DEADLINE_REMINDER_MAX_HOURS) then
        mkCheckResult false
          ("Deadline is " +:+ pretty hoursUntilDeadline +:+ "h away (need "
           +:+ pretty DEADLINE_REMINDER_MIN_HOURS +:+ "-"
           +:+ pretty DEADLINE_REMINDER_MAX_HOURS +:+ "h)")
      else if opt_Z_eqb (last_triggered_round trigger) (current_round game) then
        mkCheckResult false (alreadyTriggered game)
      else mkCheckResult true "Deadline is within 24h window"
  end.

Definition round_state_is (game : Game) (s : string) : bool :=
  match round_state game with
  | Some r => String.eqb r s
  | None => false
  end.

Definition checkRoundStarted (game : Game) (trigger : GameTrigger) : CheckResult :=
  if negb (round_state_is game "CurrentOpen") then
    mkCheckResult false
      ("Round state is " +:+ show_opt_string (round_state game) +:+ ", not CurrentOpen")
  else if opt_Z_eqb (last_triggered_round trigger) (current_round game) then
    mkCheckResult false (alreadyTriggered game)
  else mkCheckResult true "Round is now open".

Definition checkRoundEnded (game : Game) (trigger : GameTrigger) : CheckResult :=
  if negb (round_state_is game "Ended") && negb (round_state_is game "EndedLastest") then
    mkCheckResult false
      ("Round state is " +:+ show_opt_string (round_state game) +:+ ", not Ended")
  else if opt_Z_eqb (last_triggered_round trigger) (current_round game) then
    mkCheckResult false (alreadyTriggered game)
  else mkCheckResult true "Round has ended".

Definition checkTrigger (w : World) (game : Game) (trigger : GameTrigger) : CheckResult :=
  match trigger_type trigger with
  | deadline_reminder_24h => checkDeadlineReminder24h w game trigger
  | round_started => checkRoundStarted game trigger
  | round_ended => checkRoundEnded game trigger
  end.

Definition show_undefined (s : option string) : string :=
  match s with
  | Some x => x
  | None => "undefined"
  end.

Definition processTrigger (w : World) (game : Game) (trigger : GameTrigger)
    : M TriggerResult :=
  let check := checkTrigger w game trigger in
  if negb (shouldTrigger check) then
    mret (mkTriggerResult true false (reason check) None)
  else
    let triggerProperties := {|
      p_game_key := game_key game;
      p_game_name := name game;
      p_current_round := current_round game;
      p_total_rounds := total_rounds game;
      p_trade_deadline := next_trade_deadline game;
      p_trigger_type := trigger_type_name (trigger_type trigger) |} in
    result ← triggerBrazeCampaign w (braze_campaign_id trigger) triggerProperties;
    logTrigger w (game_id game) (trigger_id trigger)
      (trigger_type_name (trigger_type trigger))
      (num_or (current_round game) 1)
      (if sent result then Triggered else Failed)
      (response result) (error result) ;;
    (if sent result then
       updateTriggerLastTriggered w (trigger_id trigger) (num_or (current_round game) 1)
     else mret tt) ;;
    mret (mkTriggerResult (sent result) true
            (if sent result then
               "Campaign triggered for " +:+ trigger_type_name (trigger_type trigger)
             else "Failed to trigger: " +:+ show_undefined (error result))
            (response result)).

(** Sequential [for ... of] over rows, each iteration awaited. *)
Fixpoint forEach {A B} (f : A -> M B) (l : list A) : M (list B) :=
  match l with
  | [] => mret []
  | a :: l' => b ← f a; bs ← forEach f l'; mret (b :: bs)
  end.

Definition processGameTriggers (w : World) (game : Game) : M (list TriggerResult) :=
  emit (Sql (SelectActiveTriggers (game_id game))) ;;
  match sql_error w (SelectActiveTriggers (game_id game)) with
  | Some _ => mret []
  | None =>
      triggers ← read (fun t =>
        filter (fun tr => String.eqb (trigger_game_id tr) (game_id game)
                          && trigger_is_active tr)
               (map snd (map_to_list (game_triggers t))));
      forEach (processTrigger w game) triggers
  end.

End BrazeTriggerService.

(** ** src/services/sync-service.ts *)

Module SyncService.

Import SwushClient.

Definition BATCH_SIZE : nat := 100.

Definition GAME_BASE_URL (w : World) : string :=
  str_or (GAME_BASE_URL_env w) "https://manager.aftonbladet.se/se".

Record SyncResult : Type := mkSyncResult {
  success : bool;
  gamesSynced : option Z;
  elementsSynced : option Z;
  usersSynced : option Z;
  sync_error : option string
}.

Record SyncLogEntry : Type := mkSyncLogEntry {
  gameId_of : string;
  syncType : SyncType;
  entry_status : SyncStatus;
  entry_usersSynced : Z;
  entry_elementsSynced : Z;
  errorMessage : option string
}.

(** [Partial<SyncLogEntry> & { completedAt?: string }]: a field that is
    absent is not sent, and its column keeps its value. *)
Record SyncLogUpdates : Type := mkSyncLogUpdates {
  upd_status : option SyncStatus;
  upd_usersSynced : option Z;
  upd_elementsSynced : option Z;
  upd_errorMessage : option string;
  upd_completedAt : option Z
}.

Definition createSyncLog (w : World) (entry : SyncLogEntry) : M (option string) :=
  err ← write w InsertSyncLog
    (set_sync_logs (insert (new_sync_log_id w)
       (mkSyncLog (gameId_of entry) (syncType entry) (entry_status entry)
          (entry_usersSynced entry) (entry_elementsSynced entry)
          (errorMessage entry) (now w) None)));
  mret match err with
       | Some _ => None
       | None => Some (new_sync_log_id w)
       end.

Definition applySyncLogUpdates (u : SyncLogUpdates) (r : SyncLog) : SyncLog :=
  mkSyncLog (sl_game_id r) (sync_type r)
    (default (sl_status r) (upd_status u))
    (default (users_synced r) (upd_usersSynced u))
    (default (elements_synced r) (upd_elementsSynced u))
    (match upd_errorMessage u with Some m => Some m | None => sl_error_message r end)
    (started_at r)
    (match upd_completedAt u with Some c => Some c | None => completed_at r end).

Definition updateSyncLog (w : World) (logId : string) (updates : SyncLogUpdates) : M unit :=
  write w (UpdateSyncLog logId) (set_sync_logs (alter (applySyncLogUpdates updates) logId)) ;;
  mret tt.

(** [rounds.find(r => r.state === s)] *)
Definition findRound (s : string) (rs : list SwushRound) : option SwushRound :=
  find (fun r => String.eqb (round_state_of r) s) rs.

Definition findCurrentRound (rs : list SwushRound) : option SwushRound :=
  findRound "CurrentOpen" rs.

Definition findEndedRound (rs : list SwushRound) : option SwushRound :=
  find (fun r => String.eqb (round_state_of r) "Ended"
                 || String.eqb (round_state_of r) "EndedLastest") rs.

(** [a?.f || b?.f || null] *)
Definition firstOf {A B} (f : A -> option B) (a b : option A) : option B :=
  match a ≫= f with
  | Some x => Some x
  | None => b ≫= f
  end.

(** [response.error || !response.data] *)
Definition fetchFailed {T} (r : SwushApiResponse T) : bool :=
  negb (String.eqb (str_or (error r) "") "") || negb (bool_decide (is_Some (data r))).

Definition failure (msg : string) : SyncResult :=
  mkSyncResult false None None None (Some msg).

Definition syncGameDetails (w : World) (game : Game) : M SyncResult :=
  emit (GetGame (subsite_key game) (game_key game)) ;;
  let response := getGame (game_endpoint w) in
  match data response with
  | Some swushGame =>
      if fetchFailed response then
        mret (failure (str_or (error response) "Failed to fetch game"))
      else
        let currentRound := findCurrentRound (rounds swushGame) in
        let nextPendingRound := findRound "Pending" (rounds swushGame) in
        let endedRound := findEndedRound (rounds swushGame) in
        err ← write w (UpdateGame (game_id game))
          (set_games (alter (fun g =>
             mkGame (game_id g) (game_key g) (name g) (subsite_key g) (is_active g)
               (currentRoundIndex swushGame)
               (Z.of_nat (length (rounds swushGame)))
               (firstOf (fun r => Some (round_state_of r)) currentRound endedRound)
               (firstOf tradeCloses currentRound nextPendingRound)
               (firstOf round_start currentRound nextPendingRound)
               (firstOf round_end currentRound endedRound)
               (sync_interval_minutes g)
               (Some (now w))
               (Some (gameId swushGame))
               (Some (GAME_BASE_URL w +:+ "/" +:+ game_key game))
               (userteamsCount swushGame)) (game_id game)));
        mret match err with
             | Some msg => failure msg
             | None => mkSyncResult true (Some 1) None None None
             end
  | None => mret (failure (str_or (error response) "Failed to fetch game"))
  end.

(** The columns that [syncElements] sends for one element. *)
Record ElementColumns : Type := mkElementColumns {
  c_game_id : string;
  c_element_id : Z;
  c_short_name : string;
  c_full_name : string;
  c_team_name : string;
  c_image_url : string;
  c_popularity : Q;
  c_trend : Z;
  c_growth : Z;
  c_total_growth : Z;
  c_value : Z;
  c_updated_at : Z
}.

Definition upsertData (w : World) (game : Game) (el : SwushElement) : ElementColumns :=
  {| c_game_id := game_id game;
     c_element_id := elementId el;
     c_short_name := shortName el;
     c_full_name := fullName el;
     c_team_name := str_or (teamName el) "";
     c_image_url := imageUrl el;
     c_popularity := popularity el;
     c_trend := trend el;
     c_growth := growth el;
     c_total_growth := totalGrowth el;
     c_value := value el;
     c_updated_at := now w |}.

(** [upsert(rows, { onConflict: 'game_id,element_id' })] on one row: on a
    conflict the columns that were sent are overwritten and the others
    stay; a new row takes the defaults of the schema for the others. *)
Definition upsertElementRow (c : ElementColumns) (old : option Element) : Element :=
  mkElement (c_game_id c) (c_element_id c) (c_short_name c) (c_full_name c)
    (c_team_name c) (c_image_url c) (c_popularity c) (c_trend c) (c_growth c)
    (c_total_growth c) (c_value c)
    (match old with Some r => is_injured r | None => false end)
    (match old with Some r => is_suspended r | None => false end)
    (c_updated_at c).

Definition upsertElement (tbl : gmap (string * Z) Element) (c : ElementColumns)
    : gmap (string * Z) Element :=
  <[(c_game_id c, c_element_id c) := upsertElementRow c (tbl !! (c_game_id c, c_element_id c))]> tbl.

Definition upsertElements (cs : list ElementColumns) (tbl : gmap (string * Z) Element)
    : gmap (string * Z) Element :=
  fold_left upsertElement cs tbl.

(** [elements.slice(i, i + BATCH_SIZE)] *)
Definition slice {A} (i n : nat) (l : list A) : list A := take n (drop i l).

(** The [for (let i = 0; i < elements.length; i += BATCH_SIZE)] loop. *)
Fixpoint upsertBatches (w : World) (game : Game) (els : list SwushElement)
    (fuel : nat) (i : nat) (syncedCount : Z) : M Z :=
  match fuel with
  | O => mret syncedCount
  | S fuel' =>
      if (i <? length els)%nat then
        let batch := slice i BATCH_SIZE els in
        err ← write w (UpsertElements (Z.of_nat i))
                (set_elements (upsertElements (map (upsertData w game) batch)));
        match err with
        | Some _ => upsertBatches w game els fuel' (i + BATCH_SIZE)%nat syncedCount
        | None =>
            upsertBatches w game els fuel' (i + BATCH_SIZE)%nat
              (syncedCount + Z.of_nat (length batch))
        end
      else mret syncedCount
  end.

Definition syncElements (w : World) (game : Game) : M SyncResult :=
  emit (GetElements (subsite_key game) (game_key game)) ;;
  let response := getElements (elements_endpoint w) in
  match data response with
  | Some els =>
      if fetchFailed response then
        mret (failure (str_or (error response) "Failed to fetch elements"))
      else
        syncedCount ← upsertBatches w game els (length els) 0%nat 0;
        mret (mkSyncResult true None (Some syncedCount) None None)
  | None => mret (failure (str_or (error response) "Failed to fetch elements"))
  end.

(** [users.filter(user => user.externalId)] *)
Definition hasExternalId (user : SwushUser) : bool :=
  negb (String.eqb (str_or (externalId user) "") "").

Definition userRow (w : World) (game : Game) (user : SwushUser) : UserGameStats :=
  let userteam := userteams user ≫= head in
  {| u_external_id := str_or (externalId user) "";
     u_game_id := game_id game;
     swush_user_id := user_id user;
     u_team_name :=
       default (default "Unknown" (user_name user)) (userteam ≫= ut_name);
     score := default 0 (userteam ≫= ut_score);
     rank := userteam ≫= ut_rank;
     round_score := default 0 (userteam ≫= roundScore);
     round_rank := userteam ≫= roundRank;
     round_jump := default 0 (userteam ≫= roundJump);
     injured_count := default 0 (injured user);
     suspended_count := default 0 (suspended user);
     lineup_element_ids := default [] (userteam ≫= lineupElementIds);
     synced_at := now w |}.

(** [upsert(rows, { onConflict: 'external_id,game_id' })]: every column of
    the row is sent. *)
Definition upsertUsers (rows : list UserGameStats)
    (tbl : gmap (string * string) UserGameStats) : gmap (string * string) UserGameStats :=
  fold_left (fun t r => <[(u_external_id r, u_game_id r) := r]> t) rows tbl.

Record PageResult : Type := mkPageResult { page_success : bool; count : Z }.

Definition saveUsersPage (w : World) (game : Game) (pageUsers : list SwushUser)
    (pageNumber : Z) : M PageResult :=
  let usersWithExternalId := List.filter hasExternalId pageUsers in
  if (length usersWithExternalId =? 0)%nat then mret (mkPageResult true 0)
  else
    let rows := map (userRow w game) usersWithExternalId in
    err ← write w (UpsertUserGameStats pageNumber) (set_user_game_stats (upsertUsers rows));
    mret match err with
         | Some _ => mkPageResult false 0
         | None => mkPageResult true (Z.of_nat (length rows))
         end.

(** [this.swush.getUsers(subsite, gameKey, page)].  With the default retry
    budget [lastResponse!] is never [null] (lemma [getUsers_returns]); the
    last arm is not reached. *)
Definition fetchUsersPage (w : World) (game : Game) (pageNumber : Z)
    : M (SwushApiResponse SwushUsersResponse) :=
  let '(r, evs) := getUsers (users_endpoint w pageNumber) in
  emit (GetUsers (subsite_key game) (game_key game) pageNumber
          (Z.of_nat (length (List.filter
             (fun e => match e with Requested _ => true | Slept _ => false end) evs)))) ;;
  mret (default (mkResponse None None 0) r).

Record Progress : Type := mkProgress {
  syncedCount : Z;
  errorCount : Z;
  failedPages : list Z
}.

Definition pageSaved (acc : Progress) (n : Z) : Progress :=
  mkProgress (syncedCount acc + n) (errorCount acc) (failedPages acc).

Definition pageFailed (acc : Progress) (pageNumber : Z) : Progress :=
  mkProgress (syncedCount acc) (errorCount acc + 1) (failedPages acc ++ [pageNumber]).

(** The pages that [for (let page = 2; page <= totalPages; page++)] visits. *)
Definition remainingPages (totalPages : Z) : list Z :=
  map Z.of_nat (seq 2 (Z.to_nat totalPages - 1)).

(** The body of that loop, over the pages still to visit. *)
Fixpoint fetchAndSave (w : World) (game : Game) (todo : list Z) (acc : Progress)
    : M Progress :=
  match todo with
  | [] => mret acc
  | pageNumber :: rest =>
      response ← fetchUsersPage w game pageNumber;
      match data response with
      | Some d =>
          if fetchFailed response then
            fetchAndSave w game rest (pageFailed acc pageNumber)
          else
            pageResult ← saveUsersPage w game (users d) pageNumber;
            emit (Sleep 100) ;;
            fetchAndSave w game rest
              (if page_success pageResult then pageSaved acc (count pageResult)
               else pageFailed acc pageNumber)
      | None => fetchAndSave w game rest (pageFailed acc pageNumber)
      end
  end.

(** [Math.round(x)] on an exact rational. *)
Definition js_round (q : Q) : Z := Qfloor (q + (1 # 2)).

Definition show_percent (x : JsNumber) : string :=
  match x with
  | NaN => "NaN"
  | Infinity => "Infinity"
  | NegInfinity => "-Infinity"
  | Finite q => pretty (js_round (q * 100))
  end.

Definition syncUsers (w : World) (game : Game) : M SyncResult :=
  firstResponse ← fetchUsersPage w game 1;
  match data firstResponse with
  | Some d =>
      if fetchFailed firstResponse then
        mret (failure (str_or (error firstResponse) "Failed to fetch users"))
      else
        let totalPages := pages d in
        firstPageResult ← saveUsersPage w game (users d) 1;
        let acc :=
          if page_success firstPageResult
          then pageSaved (mkProgress 0 0 []) (count firstPageResult)
          else pageFailed (mkProgress 0 0 []) 1 in
        acc ← fetchAndSave w game (remainingPages totalPages) acc;
        let failureRate := js_div (Z.of_nat (length (failedPages acc))) totalPages in
        if js_gt failureRate (1 # 10) then
          mret (mkSyncResult false None None (Some (syncedCount acc))
                  (Some ("Too many failed pages: "
                         +:+ pretty (Z.of_nat (length (failedPages acc))) +:+ "/"
                         +:+ pretty totalPages +:+ " ("
                         +:+ show_percent failureRate +:+ "%)")))
        else mret (mkSyncResult true None None (Some (syncedCount acc)) None)
  | None => mret (failure (str_or (error firstResponse) "Failed to fetch users"))
  end.

(** [new Error(result.error).message] *)
Definition thrownMessage (e : option string) : string := default "" e.

(** The [catch] block of [syncGame]. *)
Definition syncFailed (w : World) (game : Game) (logId : option string)
    (errorMessage : string) : M SyncResult :=
  match logId with
  | Some l =>
      updateSyncLog w l
        (mkSyncLogUpdates (Some failed) None None (Some errorMessage) (Some (now w)))
  | None => mret tt
  end ;;
  AlertService.alertSyncFailure {|
    gameKey := game_key game;
    gameName := Some (name game);
    alert_error := errorMessage;
    alert_timestamp := now w;
    lastSuccessfulSync := last_synced_at game |} ;;
  mret (failure errorMessage).

Definition syncGame (w : World) (game : Game) (syncType : SyncType) : M SyncResult :=
  logId ← createSyncLog w (mkSyncLogEntry (game_id game) syncType started 0 0 None);
  gameResult ← syncGameDetails w game;
  if negb (success gameResult) then
    syncFailed w game logId (thrownMessage (sync_error gameResult))
  else
    elementsResult ← syncElements w game;
    if negb (success elementsResult) then
      syncFailed w game logId (thrownMessage (sync_error elementsResult))
    else
      usersResult ← syncUsers w game;
      if negb (success usersResult) then
        syncFailed w game logId (thrownMessage (sync_error usersResult))
      else
        match logId with
        | Some l =>
            updateSyncLog w l
              (mkSyncLogUpdates (Some completed)
                 (Some (num_or (usersSynced usersResult) 0))
                 (Some (num_or (elementsSynced elementsResult) 0))
                 None (Some (now w)))
        | None => mret tt
        end ;;
        mret (mkSyncResult true (Some 1) (elementsSynced elementsResult)
                (usersSynced usersResult) None).

Record CriticalPeriod : Type := mkCriticalPeriod { critical : bool; critical_reason : string }.

(** [(later.getTime() - earlier.getTime()) / (1000 * 60 * 60)] *)
Definition hoursBetween (later earlier : Z) : Q :=
  inject_Z (later - earlier) / inject_Z (1000 * 60 * 60).

Definition minutesBetween (later earlier : Z) : Q :=
  inject_Z (later - earlier) / inject_Z (1000 * 60).

Definition roundEnded (game : Game) : bool :=
  match round_state game with
  | Some s => String.eqb s "Ended" || String.eqb s "EndedLastest"
  | None => false
  end.

Definition startingSoon (w : World) (game : Game) : option Q :=
  match current_round_start game with
  | Some roundStart =>
      let hoursUntilStart := hoursBetween roundStart (now w) in
      if Qltb 0 hoursUntilStart && Qle_bool hoursUntilStart 2
      then Some hoursUntilStart else None
  | None => None
  end.

Definition deadlineSoon (w : World) (game : Game) : option Q :=
  match next_trade_deadline game with
  | Some deadline =>
      let hoursUntilDeadline := hoursBetween deadline (now w) in
      if Qltb 0 hoursUntilDeadline && Qle_bool hoursUntilDeadline 2
      then Some hoursUntilDeadline else None
  | None => None
  end.

Definition endedRecently (w : World) (game : Game) : option Q :=
  match current_round_end game with
  | Some roundEnd =>
      if roundEnded game then
        let hoursSinceEnd := hoursBetween (now w) roundEnd in
        if Qle_bool 0 hoursSinceEnd && Qle_bool hoursSinceEnd 1
        then Some hoursSinceEnd else None
      else None
  | None => None
  end.

(** The three checks of [isInCriticalPeriod], in their order. *)
Definition isInCriticalPeriod (w : World) (game : Game) : CriticalPeriod :=
  match startingSoon w game with
  | Some h =>
      mkCriticalPeriod true ("Round starting in " +:+ pretty (js_round (h * 60)) +:+ " minutes")
  | None =>
      match deadlineSoon w game with
      | Some h =>
          mkCriticalPeriod true
            ("Trade deadline in " +:+ pretty (js_round (h * 60)) +:+ " minutes")
      | None =>
          match endedRecently w game with
          | Some h =>
              mkCriticalPeriod true
                ("Round ended " +:+ pretty (js_round (h * 60)) +:+ " minutes ago")
          | None => mkCriticalPeriod false ""
          end
      end
  end.

(** The body of the loop of [getGamesDueForSync]: is [game] pushed? *)
Definition dueForSync (w : World) (game : Game) : bool :=
  match last_synced_at game with
  | None => true
  | Some lastSync =>
      let minutesSinceSync := minutesBetween (now w) lastSync in
      if critical (isInCriticalPeriod w game) then Qle_bool 30 minutesSinceSync
      else Qle_bool (inject_Z (sync_interval_minutes game)) minutesSinceSync
  end.

Definition getGamesDueForSync (w : World) : M (list Game) :=
  emit (Sql SelectActiveGames) ;;
  match sql_error w SelectActiveGames with
  | Some _ => mret []
  | None =>
      activeGames ← read (fun t =>
        List.filter is_active (map snd (map_to_list (games t))));
      mret (List.filter (dueForSync w) activeGames)
  end.

End SyncService.

(** * The vocabulary of the specification *)

(** ** Partner API: what one attempt meets *)

Section Attempts.

Context {T : Type}.

(** A transient failure: the request timed out, the transport failed, or
    the answer has status 5xx, 408 or 429. *)
Definition transient (srv : Endpoint T) : bool :=
  match fetch SwushClient.DEFAULT_TIMEOUT_MS srv with
  | Thrown _ => true
  | Resolved st _ _ => (500 <=? st) && (st <=? 599) || (st =? 408) || (st =? 429)
  end.

(** A permanent failure: an answer with a status 4xx other than 408, 429. *)
Definition permanent (srv : Endpoint T) : bool :=
  match fetch SwushClient.DEFAULT_TIMEOUT_MS srv with
  | Thrown _ => false
  | Resolved st _ _ => (400 <=? st) && (st <=? 499) && negb (st =? 408) && negb (st =? 429)
  end.

(** A success: an answer in time with a 2xx status and a JSON value. *)
Definition answer (srv : Endpoint T) : option T :=
  match fetch SwushClient.DEFAULT_TIMEOUT_MS srv with
  | Resolved st _ (JsonValue d) => if (200 <=? st) && (st <=? 299) then Some d else None
  | _ => None
  end.

End Attempts.

(** [k] attempts in a row, attempt [a] first, with the backoff delay
    [1000 * 2 ^ (attempt - 1)] between one attempt and the next. *)
Fixpoint schedule_from (a : Z) (k : nat) : list SwushClient.Event :=
  match k with
  | O => []
  | S O => [SwushClient.Requested a]
  | S k' =>
      SwushClient.Requested a :: SwushClient.Slept (1000 * 2 ^ (a - 1))
        :: schedule_from (a + 1) k'
  end.

Definition schedule (k : Z) : list SwushClient.Event := schedule_from 1 (Z.to_nat k).

Definition attempts (evs : list SwushClient.Event) : nat :=
  length (List.filter
            (fun e => match e with SwushClient.Requested _ => true | _ => false end) evs).

Definition delays (evs : list SwushClient.Event) : list Z :=
  flat_map (fun e => match e with SwushClient.Slept ms => [ms] | _ => [] end) evs.

(** ** Trigger evaluation *)

Definition emptyTables : Tables := mkTables ∅ ∅ ∅ ∅ ∅ [].

(** The property bag that goes with the campaign of a trigger. *)
Definition properties (game : Game) (trigger : GameTrigger) : BrazeTriggerProperties :=
  {| p_game_key := game_key game;
     p_game_name := name game;
     p_current_round := current_round game;
     p_total_rounds := total_rounds game;
     p_trade_deadline := next_trade_deadline game;
     p_trigger_type := trigger_type_name (trigger_type trigger) |}.

(** How the campaign dispatch of a trigger ends, and the requests it sends. *)
Definition dispatch (w : World) (game : Game) (trigger : GameTrigger)
    : BrazeTriggerService.SendResult :=
  (BrazeTriggerService.triggerBrazeCampaign w (braze_campaign_id trigger)
     (properties game trigger) emptyTables).1.1.

Definition dispatchEffects (w : World) (game : Game) (trigger : GameTrigger) : list Effect :=
  (BrazeTriggerService.triggerBrazeCampaign w (braze_campaign_id trigger)
     (properties game trigger) emptyTables).2.

(** The fire condition of a trigger. *)
Definition fires (w : World) (game : Game) (trigger : GameTrigger) : bool :=
  BrazeTriggerService.shouldTrigger (BrazeTriggerService.checkTrigger w game trigger).

(** A trigger row after the watermark moved to [roundIndex]. *)
Definition advanced (w : World) (roundIndex : Z) (tr : GameTrigger) : GameTrigger :=
  mkGameTrigger (trigger_id tr) (trigger_game_id tr) (trigger_type tr)
    (braze_campaign_id tr) (trigger_is_active tr) (Some (now w)) (Some roundIndex).

(** The TriggerLog row of an evaluation that went as far as the dispatch. *)
Definition triggerLogRow (game : Game) (trigger : GameTrigger) (roundIndex : Z)
    (d : BrazeTriggerService.SendResult) : TriggerLog :=
  mkTriggerLog (game_id game) (trigger_id trigger)
    (trigger_type_name (trigger_type trigger)) roundIndex
    (if BrazeTriggerService.sent d then Triggered else Failed)
    (BrazeTriggerService.response d) (BrazeTriggerService.error d).

Definition isBrazeSend (e : Effect) : bool :=
  match e with
  | BrazeSend _ => true
  | _ => false
  end.

(** The outcome of one evaluation. *)
Definition resultOf {A} (run : A * Tables * list Effect) : A := run.1.1.
Definition tablesOf {A} (run : A * Tables * list Effect) : Tables := run.1.2.
Definition effectsOf {A} (run : A * Tables * list Effect) : list Effect := run.2.

(** ** Example inputs *)

Definition silent {T} : Endpoint T := mkEndpoint 0 (Thrown None).

(** A deployment without Braze credentials whose store accepts every
    statement; the clock reads [t]. *)
Definition worldAt (t : Z) : World :=
  mkWorld t (fun _ => None) "log-1" silent silent (fun _ _ => silent)
    None None (fun _ => silent) None.

(** The same with Braze credentials, the Braze endpoint behaving as [srv]. *)
Definition worldWithBraze (t : Z) (srv : Endpoint BrazeApiResponse) : World :=
  mkWorld t (fun _ => None) "log-1" silent silent (fun _ _ => silent)
    (Some "https://rest.example") (Some "key") (fun _ => srv) None.

Definition gameInRound (round : option Z) (state : option string) (deadline : option Z)
    : Game :=
  mkGame "game-1" "allsvenskan" "Allsvenskan" "aftonbladet" true round 30 state
    deadline None None 60 None None None 0.

Definition triggerOf (type : TriggerType) (lastRound : option Z) : GameTrigger :=
  mkGameTrigger "trigger-1" "game-1" type "campaign-1" true None lastRound.

Definition tablesWith (trigger : GameTrigger) : Tables :=
  mkTables ∅ ∅ ∅ ∅ {[ trigger_id trigger := trigger ]} [].

Definition hours (n : Z) : Z := n * 3600000.
Definition minutes (n : Z) : Z := n * 60000.


(** Braze takes 120 ms and accepts the campaign. *)
Definition brazeAccepts : Endpoint BrazeApiResponse :=
  mkEndpoint 120
    (Resolved 201 "Created" (JsonValue (mkBrazeApiResponse (Some "dispatch-1") (Some "success") None))).

(** Braze takes 120 ms and refuses with the given status and message. *)
Definition brazeRefuses (st : Z) (msg : option string) : Endpoint BrazeApiResponse :=
  mkEndpoint 120 (Resolved st "" (JsonValue (mkBrazeApiResponse None msg None))).

(** Braze does not answer within 31 s. *)
Definition brazeHangs : Endpoint BrazeApiResponse :=
  mkEndpoint 31000 (Resolved 201 "Created" (JsonValue (mkBrazeApiResponse None None None))).

(** Are both the endpoint and the key of the campaign system configured? *)
Definition hasCredentials (w : World) : bool :=
  match BRAZE_REST_ENDPOINT w, BRAZE_API_KEY w with
  | Some u, Some k => negb (String.eqb u "") && negb (String.eqb k "")
  | _, _ => false
  end.

(** The error text that a non-2xx answer of the campaign system is reported
    with. *)
Definition rejectionText (body : Json BrazeApiResponse) : string :=
  match body with
  | JsonValue data => str_or (message data) "Braze API error"
  | JsonNull => BrazeTriggerService.null_message_error
  | JsonInvalid => "Invalid response from Braze"
  end.


(** ** Sync scheduling *)

(** An instant that lies within the next [limit] milliseconds. *)
Definition withinNext (current limit : Z) (instant : option Z) : bool :=
  match instant with
  | Some s => (0 <? s - current) && (s - current <=? limit)
  | None => false
  end.

(** An instant that lies within the past [limit] milliseconds. *)
Definition withinPast (current limit : Z) (instant : option Z) : bool :=
  match instant with
  | Some e => (0 <=? current - e) && (current - e <=? limit)
  | None => false
  end.

(** The critical period as the specification words it: round start within
    the next 2 hours, trade deadline within the next 2 hours, or round end
    within the past hour. *)
Definition criticalAsStated (current : Z) (game : Game) : bool :=
  withinNext current (hours 2) (current_round_start game)
  || withinNext current (hours 2) (next_trade_deadline game)
  || withinPast current (hours 1) (current_round_end game).

Definition stateEnded (game : Game) : bool :=
  match round_state game with
  | Some s => String.eqb s "Ended" || String.eqb s "EndedLastest"
  | None => false
  end.

(** The critical period of the code: the round end counts once the stored
    round state says that the round has ended. *)
Definition criticalPeriod (current : Z) (game : Game) : bool :=
  withinNext current (hours 2) (current_round_start game)
  || withinNext current (hours 2) (next_trade_deadline game)
  || (stateEnded game && withinPast current (hours 1) (current_round_end game)).

(** A game whose open round ended 30 minutes ago by the clock, last synced
    40 minutes ago, on an hourly routine interval; the clock reads 10 h. *)
Definition overrunGame : Game :=
  mkGame "game-1" "allsvenskan" "Allsvenskan" "aftonbladet" true (Some 5) 30
    (Some "CurrentOpen") None None (Some (hours 10 - minutes 30)) 60
    (Some (hours 10 - minutes 40)) None None 0.

(** A game whose round starts in 90 minutes, last synced 40 minutes ago. *)
Definition upcomingGame : Game :=
  mkGame "game-2" "shl" "SHL" "aftonbladet" true (Some 5) 30
    (Some "Pending") None (Some (hours 10 + minutes 90)) None 60
    (Some (hours 10 - minutes 40)) None None 0.


(** ** User phase *)


(** The data of page [p] when the paginated call, retries included, ends in
    a success. *)
Definition pageData (w : World) (p : Z) : option SwushUsersResponse :=
  match fst (SwushClient.getUsers (users_endpoint w p)) with
  | Some r => if SyncService.fetchFailed r then None else SwushClient.data r
  | None => None
  end.



(** The pages of a run: page 1, then 2 up to [totalPages]. *)
Definition visitedPages (totalPages : Z) : list Z :=
  1 :: SyncService.remainingPages totalPages.




(** A partner API in which every page holds [perPage] users with an external
    id and page answers are successes except on the pages in [down], which
    answer 503 on every attempt. *)
Definition someUser (k : Z) : SwushUser :=
  mkSwushUser k (Some "user") (Some ("ext-" +:+ pretty k)) None None None.

Definition usersPage (totalPages p : Z) : Endpoint SwushUsersResponse :=
  mkEndpoint 50
    (Resolved 200 "OK"
       (JsonValue (mkSwushUsersResponse (2 * totalPages) totalPages p 10
                     [someUser (2 * p); someUser (2 * p + 1)]))).

Definition unavailable {T} : Endpoint T :=
  mkEndpoint 50 (Resolved 503 "Service Unavailable" JsonInvalid).

Definition worldWithPages (totalPages : Z) (down : list Z) : World :=
  mkWorld 0 (fun _ => None) "log-1" silent silent
    (fun p _ => if existsb (Z.eqb p) down then unavailable else usersPage totalPages p)
    None None (fun _ => silent) None.


(** ** Catalog phase *)

(** The key of the row that an element of the upstream catalog goes to. *)
Definition elementKey (game : Game) (el : SwushElement) : string * Z :=
  (game_id game, elementId el).

(** A flag column of a row that may not be there yet: the default of the
    schema is false. *)
Definition flagOf (f : Element -> bool) (old : option Element) : bool :=
  match old with
  | Some r => f r
  | None => false
  end.

(** An upstream catalog of one player, and a stored row for that player as an
    earlier sync left it, with its injury flag. *)
Definition striker : SwushElement :=
  mkSwushElement 7 "https://img.example/7.png" "https://example/7" "Striker" "A. Striker"
    (Some "Hammarby") (1 # 4) 12 3 40 9500.

Definition catalogOf (els : list SwushElement) : Endpoint (list SwushElement) :=
  mkEndpoint 80 (Resolved 200 "OK" (JsonValue els)).

Definition worldWithCatalog (t : Z) (els : list SwushElement) : World :=
  mkWorld t (fun _ => None) "log-1" silent (catalogOf els) (fun _ _ => silent)
    None None (fun _ => silent) None.

Definition storedStriker (injuredFlag : bool) : Element :=
  mkElement "game-1" 7 "Striker" "A. Striker" "Hammarby" "https://img.example/7.png"
    (1 # 5) 10 2 37 9400 injuredFlag false 0.

Definition tablesWithElement (row : Element) : Tables :=
  mkTables ∅ {[ (e_game_id row, e_element_id row) := row ]} ∅ ∅ ∅ [].

Definition strikerAfterSync (previous : Element) : option Element :=
  elements (tablesOf (SyncService.syncElements (worldWithCatalog 1000 [striker])
                        (gameInRound (Some 5) (Some "CurrentOpen") None)
                        (tablesWithElement previous)))
    !! ("game-1", 7).


(** The key of the row that a set of sent columns goes to. *)
Definition columnsKey (c : SyncService.ElementColumns) : string * Z :=
  (SyncService.c_game_id c, SyncService.c_element_id c).

(** The upstream catalog, when the call that fetches it succeeds. *)
Definition catalogFetched (w : World) : option (list SwushElement) :=
  if SyncService.fetchFailed (SwushClient.getElements (elements_endpoint w)) then None
  else SwushClient.data (SwushClient.getElements (elements_endpoint w)).


(** ** One run of a game sync *)

Inductive Phase : Type := Metadata | Catalog | Users.

(** The phase that a request to the partner API, a statement on the tables
    of the game data, or a pause between pages belongs to. *)
Definition phaseOf (e : Effect) : option Phase :=
  match e with
  | GetGame _ _ => Some Metadata
  | Sql (UpdateGame _) => Some Metadata
  | GetElements _ _ => Some Catalog
  | Sql (UpsertElements _) => Some Catalog
  | GetUsers _ _ _ _ => Some Users
  | Sql (UpsertUserGameStats _) => Some Users
  | Sleep _ => Some Users
  | _ => None
  end.

Definition inPhase (p : Phase) (e : Effect) : bool :=
  match phaseOf e, p with
  | Some Metadata, Metadata => true
  | Some Catalog, Catalog => true
  | Some Users, Users => true
  | _, _ => false
  end.

(** The SyncLog row of a run at its start and at its end. *)
Definition startedLog (w : World) (game : Game) (syncType : SyncType) : SyncLog :=
  mkSyncLog (game_id game) syncType started 0 0 None (now w) None.

Definition failedLog (w : World) (game : Game) (syncType : SyncType) (msg : string)
    : SyncLog :=
  mkSyncLog (game_id game) syncType failed 0 0 (Some msg) (now w) (Some (now w)).

Definition completedLog (w : World) (game : Game) (syncType : SyncType)
    (usersCount elementsCount : Z) : SyncLog :=
  mkSyncLog (game_id game) syncType completed usersCount elementsCount None (now w)
    (Some (now w)).

(** The alert of a failed run. *)
Definition failureAlert (w : World) (game : Game) (msg : string) : SyncFailureAlert :=
  {| gameKey := game_key game;
     gameName := Some (name game);
     alert_error := msg;
     alert_timestamp := now w;
     lastSuccessfulSync := last_synced_at game |}.

(** A partner API that serves the game, a catalog and the user pages. *)
Definition gameMeta : Endpoint SwushGameResponse :=
  mkEndpoint 60
    (Resolved 200 "OK"
       (JsonValue (mkSwushGameResponse 42 22 (Some 5)
                     [mkSwushRound 4 (Some 100) (Some 90) (Some 200) 1 "Ended";
                      mkSwushRound 5 (Some 300) (Some 290) (Some 400) 0 "CurrentOpen";
                      mkSwushRound 6 (Some 500) (Some 490) (Some 600) 0 "Pending"]))).

Definition worldServing (totalPages : Z) (down : list Z) (els : list SwushElement) : World :=
  mkWorld 0 (fun _ => None) "log-1" gameMeta (catalogOf els)
    (fun p _ => if existsb (Z.eqb p) down then unavailable else usersPage totalPages p)
    None None (fun _ => silent) None.


(** A computation that stays in phase [p]: it leaves the sync logs alone and
    all it does belongs to the phase. *)
Definition staysIn {A} (p : Phase) (c : M A) : Prop :=
  forall t,
    sync_logs (tablesOf (c t)) = sync_logs t
    /\ Forall (fun e => inPhase p e = true) (effectsOf (c t)).


(** A users endpoint that answers 503 on the first three attempts and
    serves the page on the fourth. *)
Definition flakyUsers (a : Z) : Endpoint SwushUsersResponse :=
  if a <=? 3 then unavailable else usersPage 1 1.


(** ** Triggers of a game *)

(** The rows that [processGameTriggers] reads: the active triggers of the
    game. *)
Definition activeTriggersOf (game : Game) (t : Tables) : list GameTrigger :=
  filter (fun tr => String.eqb (trigger_game_id tr) (game_id game) && trigger_is_active tr)
    (map snd (map_to_list (game_triggers t))).

(** An effect that is the dispatch, the log or the watermark update of the
    trigger [tr]. *)
Definition concerns (tr : GameTrigger) (e : Effect) : bool :=
  match e with
  | BrazeSend post => String.eqb (post_campaign_id post) (braze_campaign_id tr)
  | Sql (InsertTriggerLog i) => String.eqb i (trigger_id tr)
  | Sql (UpdateGameTrigger i) => String.eqb i (trigger_id tr)
  | _ => false
  end.


(** ** The catalog phase as one upsert *)

(** The elements of the batches that the store accepts, in the order of the
    loop that starts at index [i]. *)
Fixpoint acceptedFrom (w : World) (els : list SwushElement) (fuel i : nat)
    : list SwushElement :=
  match fuel with
  | O => []
  | S fuel' =>
      if (i <? length els)%nat then
        match sql_error w (UpsertElements (Z.of_nat i)) with
        | None => SyncService.slice i SyncService.BATCH_SIZE els
        | Some _ => []
        end ++ acceptedFrom w els fuel' (i + SyncService.BATCH_SIZE)
      else []
  end.

Definition acceptedElements (w : World) (els : list SwushElement) : list SwushElement :=
  acceptedFrom w els (length els) 0.

(** The last columns sent for the key [k]. *)
Fixpoint lastFor (k : string * Z) (cs : list SyncService.ElementColumns)
    : option SyncService.ElementColumns :=
  match cs with
  | [] => None
  | c :: cs' =>
      match lastFor k cs' with
      | Some c' => Some c'
      | None => if bool_decide (columnsKey c = k) then Some c else None
      end
  end.

(** The tables other than [elements] agree. *)
Definition sameOutsideElements (t t' : Tables) : Prop :=
  games t' = games t /\ user_game_stats t' = user_game_stats t
  /\ sync_logs t' = sync_logs t /\ game_triggers t' = game_triggers t
  /\ trigger_logs t' = trigger_logs t.

(** A catalog endpoint that answers 404. *)
Definition catalogMissing : Endpoint (list SwushElement) :=
  mkEndpoint 80 (Resolved 404 "Not Found" JsonInvalid).

Definition worldWithoutCatalog : World :=
  mkWorld 0 (fun _ => None) "log-1" silent catalogMissing (fun _ _ => silent)
    None None (fun _ => silent) None.


(** The last element of an upstream list that goes to the key [k]. *)
Fixpoint lastElementFor (game : Game) (k : string * Z) (els : list SwushElement)
    : option SwushElement :=
  match els with
  | [] => None
  | el :: els' =>
      match lastElementFor game k els' with
      | Some el' => Some el'
      | None => if bool_decide (elementKey game el = k) then Some el else None
      end
  end.

(** A row with its [updated_at] set to [stamp]. *)
Definition restamp (stamp : Z) (r : Element) : Element :=
  mkElement (e_game_id r) (e_element_id r) (e_short_name r) (e_full_name r) (e_team_name r)
    (e_image_url r) (e_popularity r) (e_trend r) (e_growth r) (e_total_growth r)
    (e_value r) (is_injured r) (is_suspended r) stamp.


(** ** The metadata phase *)

(** The game as the partner API describes it, when the call succeeds. *)
Definition metaFetched (w : World) : option SwushGameResponse :=
  if SyncService.fetchFailed (SwushClient.getGame (game_endpoint w)) then None
  else SwushClient.data (SwushClient.getGame (game_endpoint w)).


(** A stored game row before its first sync. *)
Definition storedGame : Game :=
  mkGame "game-1" "allsvenskan" "Allsvenskan" "aftonbladet" true (Some 1) 0 None
    None None None 45 None None None 0.

Definition tablesWithGame (g : Game) : Tables :=
  mkTables {[ game_id g := g ]} ∅ ∅ ∅ ∅ [].


(** ** The user phase, page by page *)

(** The users of page [p] whose rows reach the store. *)
Definition acceptedUsersOn (w : World) (p : Z) : list SwushUser :=
  match pageData w p with
  | Some d =>
      match sql_error w (UpsertUserGameStats p) with
      | None => List.filter SyncService.hasExternalId (users d)
      | Some _ => []
      end
  | None => []
  end.

Definition acceptedUsers (w : World) (ps : list Z) : list SwushUser :=
  flat_map (acceptedUsersOn w) ps.

(** The number of requests that the paginated call makes for page [p]. *)
Definition attemptsFor (w : World) (p : Z) : Z :=
  Z.of_nat (attempts (snd (SwushClient.getUsers (users_endpoint w p)))).

(** What the user phase does for page [p]: the paginated call, then, when
    the page was fetched, the upsert of its users that have an external id
    and, from page 2 on, the pause. *)
Definition pageEffects (w : World) (game : Game) (p : Z) : list Effect :=
  GetUsers (subsite_key game) (game_key game) p (attemptsFor w p)
  :: match pageData w p with
     | Some d =>
         (if (length (List.filter SyncService.hasExternalId (users d)) =? 0)%nat then []
          else [Sql (UpsertUserGameStats p)])
         ++ (if p =? 1 then [] else [Sleep 100])
     | None => []
     end.

(** The last row of a list that goes to the key [k]. *)
Fixpoint lastRowFor (k : string * string) (rows : list UserGameStats)
    : option UserGameStats :=
  match rows with
  | [] => None
  | r :: rows' =>
      match lastRowFor k rows' with
      | Some r' => Some r'
      | None => if bool_decide ((u_external_id r, u_game_id r) = k) then Some r else None
      end
  end.

(** A user without an external id. *)
Definition anonymousUser (k : Z) : SwushUser :=
  mkSwushUser k (Some "guest") None None None None.


(** The pages that a list of effects asks the partner API for. *)
Definition requestedPages (effs : list Effect) : list Z :=
  flat_map (fun e => match e with GetUsers _ _ p _ => [p] | _ => [] end) effs.

(** A partner API whose page 2 holds a user without an external id. *)
Definition worldWithGuest (totalPages : Z) (down : list Z) : World :=
  mkWorld 0 (fun _ => None) "log-1" silent silent
    (fun p _ =>
       if existsb (Z.eqb p) down then unavailable
       else if p =? 2 then
         mkEndpoint 50
           (Resolved 200 "OK"
              (JsonValue (mkSwushUsersResponse (2 * totalPages) totalPages p 10
                            [anonymousUser 4; someUser 5])))
       else usersPage totalPages p)
    None None (fun _ => silent) None.


(** ** Alerts and the SyncLog row of a run *)

Definition isAlert (e : Effect) : bool :=
  match e with
  | AlertSyncFailure _ => true
  | _ => false
  end.

Definition isLogUpdate (e : Effect) : bool :=
  match e with
  | Sql (UpdateSyncLog _) => true
  | _ => false
  end.

(** A store that rejects the insert of the SyncLog row. *)
Definition worldWithoutLog (totalPages : Z) (down : list Z) (els : list SwushElement) : World :=
  mkWorld 0 (fun s => match s with InsertSyncLog => Some "insert rejected" | _ => None end)
    "log-1" gameMeta (catalogOf els)
    (fun p _ => if existsb (Z.eqb p) down then unavailable else usersPage totalPages p)
    None None (fun _ => silent) None.


(** What the part of [syncGame] that follows [createSyncLog] does, from any
    state of the tables, when [createSyncLog] returned [logId]: it alerts
    exactly when it fails, it sends the one update of the SyncLog row when
    there is a row, and without a row it leaves the sync logs alone. *)
Definition endsRun (w : World) (game : Game) (logId : option string)
    (c : M SyncService.SyncResult) : Prop :=
  forall t,
    List.filter isAlert (effectsOf (c t))
    = (if SyncService.success (resultOf (c t)) then []
       else [AlertSyncFailure
               (failureAlert w game
                  (SyncService.thrownMessage (SyncService.sync_error (resultOf (c t)))))])
    /\ List.filter isLogUpdate (effectsOf (c t))
       = match logId with Some l => [Sql (UpdateSyncLog l)] | None => [] end
    /\ (SyncService.success (resultOf (c t)) = true
        -> SyncService.gamesSynced (resultOf (c t)) = Some 1
           /\ SyncService.sync_error (resultOf (c t)) = None)
    /\ (SyncService.success (resultOf (c t)) = false
        -> is_Some (SyncService.sync_error (resultOf (c t))))
    /\ (logId = None -> sync_logs (tablesOf (c t)) = sync_logs t).


(** ** src/services/sync-service.ts and braze-trigger-service.ts: all games *)

Module AllGames.

Import SyncService BrazeTriggerService.

(** [.from('games').select('*').eq('is_active', true)] *)
Definition activeGames (t : Tables) : list Game :=
  List.filter is_active (map snd (map_to_list (games t))).

Record Totals : Type := mkTotals { totalGames : Z; totalElements : Z; totalUsers : Z }.

(** The body of the loop over the games: the counters after one game. *)
Definition addResult (acc : Totals) (result : SyncResult) : Totals :=
  if SyncService.success result then
    mkTotals (totalGames acc + 1)
      (totalElements acc + num_or (elementsSynced result) 0)
      (totalUsers acc + num_or (usersSynced result) 0)
  else acc.

(** [for (const game of games) { const result = await this.syncGame(game, syncType) ... }];
    [worldOf game] is what the outside world decides during the sync of
    [game]. *)
Fixpoint syncEach (worldOf : Game -> World) (syncType : SyncType) (gs : list Game)
    (acc : Totals) : M Totals :=
  match gs with
  | [] => mret acc
  | game :: rest =>
      result ← syncGame (worldOf game) game syncType;
      syncEach worldOf syncType rest (addResult acc result)
  end.

Definition syncAllActiveGames (w : World) (worldOf : Game -> World) (syncType : SyncType)
    : M SyncResult :=
  emit (Sql SelectActiveGames) ;;
  match sql_error w SelectActiveGames with
  | Some err => mret (failure err)
  | None =>
      gs ← read activeGames;
      if (length gs =? 0)%nat then mret (mkSyncResult true (Some 0) None None None)
      else
        totals ← syncEach worldOf syncType gs (mkTotals 0 0 0);
        mret (mkSyncResult true (Some (totalGames totals)) (Some (totalElements totals))
                (Some (totalUsers totals)) None)
  end.

Record TriggerTotals : Type := mkTriggerTotals {
  gamesProcessed : Z;
  triggersExecuted : Z;
  errors : Z
}.

(** The inner loop of [processAllTriggers] over the results of a game; the
    counters are the pair (triggersExecuted, errors). *)
Fixpoint countResults (results : list TriggerResult) (acc : Z * Z) : Z * Z :=
  match results with
  | [] => acc
  | result :: rest =>
      countResults rest
        (if triggered result then
           if BrazeTriggerService.success result then (acc.1 + 1, acc.2)
           else (acc.1, acc.2 + 1)
         else acc)
  end.

Fixpoint triggerEach (w : World) (gs : list Game) (acc : Z * Z) : M (Z * Z) :=
  match gs with
  | [] => mret acc
  | game :: rest =>
      results ← processGameTriggers w game;
      triggerEach w rest (countResults results acc)
  end.

Definition processAllTriggers (w : World) : M TriggerTotals :=
  emit (Sql SelectActiveGames) ;;
  match sql_error w SelectActiveGames with
  | Some _ => mret (mkTriggerTotals 0 0 1)
  | None =>
      gs ← read activeGames;
      counters ← triggerEach w gs (0, 0);
      mret (mkTriggerTotals (Z.of_nat (length gs)) counters.1 counters.2)
  end.

End AllGames.

(** ** src/app/api/cron/sync/route.ts and cron/triggers/route.ts *)

Module CronRoutes.

Import SyncService AllGames.

Inductive Body : Type :=
| ErrorBody (error : string) (timestamp : Z)
| NoGamesDue
| SyncedBody (message : string) (gamesChecked gamesSynced usersSynced elementsSynced : Z)
    (timestamp : Z)
| TriggersBody (message : string) (totals : TriggerTotals) (timestamp : Z).

Record Response : Type := mkHttpResponse { status : Z; body : Body }.

(** [errorResponse(message, status)] and [jsonResponse(data)] of
    src/lib/api-auth.ts, with the status and the body. *)
Definition errorResponse (w : World) (message : string) (st : Z) : Response :=
  mkHttpResponse st (ErrorBody message (now w)).

Definition jsonResponse (data : Body) : Response := mkHttpResponse 200 data.

(** [!cronSecret || authHeader !== `Bearer ${cronSecret}`]: [cronSecret] is
    [process.env.CRON_SECRET], [authHeader] the authorization header or
    null. *)
Definition refused (cronSecret authHeader : option string) : bool :=
  match cronSecret with
  | None => true
  | Some secret =>
      String.eqb secret ""
      || negb (bool_decide (authHeader = Some ("Bearer " +:+ secret)))
  end.

Definition POST_sync (w : World) (worldOf : Game -> World)
    (cronSecret authHeader : option string) : M Response :=
  if refused cronSecret authHeader then mret (errorResponse w "Unauthorized" 401)
  else
    gamesDue ← getGamesDueForSync w;
    if (length gamesDue =? 0)%nat then mret (jsonResponse NoGamesDue)
    else
      totals ← syncEach worldOf scheduled gamesDue (mkTotals 0 0 0);
      mret (jsonResponse
              (SyncedBody ("Synced " +:+ pretty (totalGames totals) +:+ " games")
                 (Z.of_nat (length gamesDue)) (totalGames totals)
                 (totalUsers totals) (totalElements totals) (now w))).

Definition POST_triggers (w : World) (cronSecret authHeader : option string) : M Response :=
  if refused cronSecret authHeader then mret (errorResponse w "Unauthorized" 401)
  else
    result ← processAllTriggers w;
    mret (jsonResponse
            (TriggersBody
               ("Processed " +:+ pretty (gamesProcessed result) +:+ " games, executed "
                +:+ pretty (triggersExecuted result) +:+ " triggers")
               result (now w))).

End CronRoutes.

(** ** What the jobs over all games leave behind *)

Definition isTriggerLogInsert (e : Effect) : bool :=
  match e with
  | Sql (InsertTriggerLog _) => true
  | _ => false
  end.

Definition isWatermarkUpdate (e : Effect) : bool :=
  match e with
  | Sql (UpdateGameTrigger _) => true
  | _ => false
  end.

Definition countOf (f : Effect -> bool) (effs : list Effect) : Z :=
  Z.of_nat (length (List.filter f effs)).

(** Two active games and an inactive one. *)
Definition gameNamed (id : string) (active : bool) : Game :=
  mkGame id (game_key storedGame) (name storedGame) (subsite_key storedGame) active
    (current_round storedGame) (total_rounds storedGame) (round_state storedGame)
    (next_trade_deadline storedGame) (current_round_start storedGame)
    (current_round_end storedGame) (sync_interval_minutes storedGame)
    (last_synced_at storedGame) (swush_game_id storedGame) (game_url storedGame)
    (users_total storedGame).

Definition threeGames : Tables :=
  set_games (fun _ => {[ "g-1" := gameNamed "g-1" true;
                         "g-2" := gameNamed "g-2" true;
                         "g-3" := gameNamed "g-3" false ]}) emptyTables.

(** The partner API serves the first game and is down for every other. *)
Definition worldOfGame (game : Game) : World :=
  if String.eqb (game_id game) "g-1" then worldServing 2 [] [striker]
  else mkWorld 0 (fun _ => None) "log-2" unavailable unavailable (fun _ _ => unavailable)
         None None (fun _ => silent) None.


(** A game with three triggers, of which the first two fire, and a campaign
    system that accepts the campaign of the first and refuses every other. *)
Definition tablesWithTriggers : Tables :=
  mkTables {[ "game-1" := gameInRound (Some 6) (Some "CurrentOpen") None ]} ∅ ∅ ∅
    {[ "trigger-1" := triggerOf round_started (Some 5);
       "trigger-2" := mkGameTrigger "trigger-2" "game-1" round_started "campaign-2" true
                        None None;
       "trigger-3" := mkGameTrigger "trigger-3" "game-1" round_ended "campaign-3" true
                        None None ]} [].

Definition worldWithCampaigns : World :=
  mkWorld 0 (fun _ => None) "log-1" silent silent (fun _ _ => silent)
    (Some "https://rest.example") (Some "key")
    (fun c => if String.eqb c "campaign-1" then brazeAccepts else brazeRefuses 500 None)
    None.

(** The request carries the secret of the deployment. *)
Definition carriesSecret (cronSecret authHeader : option string) : Prop :=
  exists secret,
    cronSecret = Some secret /\ secret <> "" /\ authHeader = Some ("Bearer " +:+ secret).

(** The games that the sync job finds due. *)
Definition gamesDue (w : World) (t : Tables) : list Game :=
  List.filter (SyncService.dueForSync w) (AllGames.activeGames t).


(** ** src/lib/rate-limit.ts *)

Module RateLimit.

Record RateLimitEntry : Type := mkRateLimitEntry { count : Z; resetTime : Z }.

(** The state of the module: [rateLimitStore] and [lastCleanup]. *)
Record Limiter : Type := mkLimiter {
  rateLimitStore : gmap string RateLimitEntry;
  lastCleanup : Z
}.

Record RateLimitConfig : Type := mkRateLimitConfig { limit : Z; windowSeconds : Z }.

Record RateLimitResult : Type := mkRateLimitResult {
  success : bool;
  result_limit : Z;
  remaining : Z;
  result_resetTime : Z
}.

Definition CLEANUP_INTERVAL_MS : Z := 60000.

(** [cleanupExpiredEntries()], the clock reading [now]. *)
Definition cleanupExpiredEntries (now : Z) (s : Limiter) : Limiter :=
  if now - lastCleanup s <? CLEANUP_INTERVAL_MS then s
  else
    mkLimiter
      (filter (fun kv : string * RateLimitEntry => ~ (now > resetTime kv.2))
         (rateLimitStore s))
      now.

(** [checkRateLimit(key, config)]: the clock reads [cleanupNow] in the
    cleanup and [now] afterwards.  [entry.count++] changes the entry that the
    store holds. *)
Definition checkRateLimit (cleanupNow now : Z) (key : string) (config : RateLimitConfig)
    (s0 : Limiter) : RateLimitResult * Limiter :=
  let s := cleanupExpiredEntries cleanupNow s0 in
  let windowMs := windowSeconds config * 1000 in
  let resetTime' := now + windowMs in
  let fresh :=
    (mkRateLimitResult true (limit config) (limit config - 1) resetTime',
     mkLimiter (<[key := mkRateLimitEntry 1 resetTime']> (rateLimitStore s))
       (lastCleanup s)) in
  match rateLimitStore s !! key with
  | None => fresh
  | Some entry =>
      if now >? resetTime entry then fresh
      else
        let entry' := mkRateLimitEntry (count entry + 1) (resetTime entry) in
        let s' := mkLimiter (<[key := entry']> (rateLimitStore s)) (lastCleanup s) in
        if count entry' >? limit config then
          (mkRateLimitResult false (limit config) 0 (resetTime entry'), s')
        else
          (mkRateLimitResult true (limit config) (limit config - count entry')
             (resetTime entry'), s')
  end.

(** [RATE_LIMITS] *)
Definition publicApi : RateLimitConfig := mkRateLimitConfig 100 60.
Definition adminApi : RateLimitConfig := mkRateLimitConfig 200 60.
Definition auth : RateLimitConfig := mkRateLimitConfig 5 60.

End RateLimit.

(** ** Requests against the rate limiter *)

(** One call of [checkRateLimit]. *)
Record Call : Type := mkCall {
  call_key : string;
  call_config : RateLimit.RateLimitConfig;
  cleanedAt : Z;
  calledAt : Z
}.

(** The calls in their order, each on the state that the one before left. *)
Fixpoint serve (calls : list Call) (s : RateLimit.Limiter) : list RateLimit.RateLimitResult :=
  match calls with
  | [] => []
  | c :: rest =>
      let run := RateLimit.checkRateLimit (cleanedAt c) (calledAt c) (call_key c)
                   (call_config c) s in
      run.1 :: serve rest run.2
  end.

Definition isFor (key : string) (c : Call) : bool := String.eqb (call_key c) key.

(** The number of calls for [key] that were let through. *)
Fixpoint allowed (key : string) (calls : list Call) (results : list RateLimit.RateLimitResult)
    : nat :=
  match calls, results with
  | c :: calls', r :: results' =>
      (if isFor key c && RateLimit.success r then 1 else 0)%nat + allowed key calls' results'
  | _, _ => 0%nat
  end.

(** Calls that follow one another in time from the instant [t] on. *)
Fixpoint chronological (t : Z) (calls : list Call) : Prop :=
  match calls with
  | [] => True
  | c :: rest => t <= cleanedAt c /\ cleanedAt c <= calledAt c /\ chronological (calledAt c) rest
  end.

(** No entry, or one whose window is over at [t]. *)
Definition lapsed (t : Z) (entry : option RateLimit.RateLimitEntry) : Prop :=
  match entry with
  | None => True
  | Some e => RateLimit.resetTime e < t
  end.

(** Two stores that differ at most in entries whose window is over at [t]. *)
Definition sameLiveEntries (t : Z) (s s' : RateLimit.Limiter) : Prop :=
  forall k,
    RateLimit.rateLimitStore s !! k = RateLimit.rateLimitStore s' !! k
    \/ (lapsed t (RateLimit.rateLimitStore s !! k)
        /\ lapsed t (RateLimit.rateLimitStore s' !! k)).

(** A burst of [n] calls for one key within 10 s. *)
Definition burst (key : string) (n : nat) : list Call :=
  map (fun i => mkCall key RateLimit.auth (Z.of_nat i * 1000) (Z.of_nat i * 1000)) (seq 0 n).


(** The entry that a call at [t] goes on counting in, if any. *)
Definition liveAt (t : Z) (entry : option RateLimit.RateLimitEntry)
    : option RateLimit.RateLimitEntry :=
  match entry with
  | Some e => if t >? RateLimit.resetTime e then None else Some e
  | None => None
  end.

(** The calls of a window: none cleans up or, for [key], is made after the
    instant [reset], and those for [key] use [config]. *)
Definition withinWindow (key : string) (config : RateLimit.RateLimitConfig) (reset : Z)
    (calls : list Call) : Prop :=
  Forall (fun c =>
            cleanedAt c <= reset
            /\ (isFor key c = true -> calledAt c <= reset /\ call_config c = config))
    calls.

(** * Properties *)

(** ** The retrying request *)

Section RetryProofs.

Import SwushClient.
Context {T : Type}.
Implicit Types srv : Endpoint T.

Lemma transient_retried srv :
  transient srv = true ->
  succeeded (request DEFAULT_TIMEOUT_MS srv) = false
  /\ nonRetryable (request DEFAULT_TIMEOUT_MS srv) = false.
Proof.
  unfold transient, request, succeeded, nonRetryable.
  destruct (fetch DEFAULT_TIMEOUT_MS srv) as [st txt body | [e|]]; cbn.
  - intros H.
    assert (Hok : Fetch.ok st = false) by (unfold Fetch.ok; lia).
    rewrite Hok. cbn. split; [reflexivity | lia].
  - intros _. destruct (String.eqb (err_name e) "AbortError"); cbn; auto.
  - auto.
Qed.

Lemma permanent_returned srv :
  permanent srv = true ->
  succeeded (request DEFAULT_TIMEOUT_MS srv) = false
  /\ nonRetryable (request DEFAULT_TIMEOUT_MS srv) = true.
Proof.
  unfold permanent, request, succeeded, nonRetryable.
  destruct (fetch DEFAULT_TIMEOUT_MS srv) as [st txt body | [e|]]; cbn;
    try discriminate.
  intros H.
  assert (Hok : Fetch.ok st = false) by (unfold Fetch.ok; lia).
  rewrite Hok. cbn. split; [reflexivity | lia].
Qed.

Lemma answer_succeeded srv d :
  answer srv = Some d ->
  succeeded (request DEFAULT_TIMEOUT_MS srv) = true
  /\ data (request DEFAULT_TIMEOUT_MS srv) = Some d.
Proof.
  unfold answer, request, succeeded.
  destruct (fetch DEFAULT_TIMEOUT_MS srv) as [st txt [| |v] | e]; try discriminate.
  unfold Fetch.ok.
  destruct ((200 <=? st) && (st <=? 299)); try discriminate.
  intros [= ->]. cbn. auto.
Qed.

(** The loop with the default budget, spelled out attempt by attempt. *)
Lemma requestWithRetry_default (srv : Z -> Endpoint T) :
  requestWithRetry DEFAULT_TIMEOUT_MS srv MAX_RETRIES =
  let r1 := request DEFAULT_TIMEOUT_MS (srv 1) in
  let r2 := request DEFAULT_TIMEOUT_MS (srv 2) in
  let r3 := request DEFAULT_TIMEOUT_MS (srv 3) in
  let r4 := request DEFAULT_TIMEOUT_MS (srv 4) in
  if succeeded r1 || nonRetryable r1 then (Some r1, schedule 1)
  else if succeeded r2 || nonRetryable r2 then (Some r2, schedule 2)
  else if succeeded r3 || nonRetryable r3 then (Some r3, schedule 3)
  else (Some r4, schedule 4).
Proof.
  unfold requestWithRetry.
  change (Z.to_nat (MAX_RETRIES + 1)) with 4%nat.
  cbn [retryLoop].
  change (1 <=? MAX_RETRIES + 1) with true.
  change (1 + 1 <=? MAX_RETRIES + 1) with true.
  change (1 + 1 + 1 <=? MAX_RETRIES + 1) with true.
  change (1 + 1 + 1 + 1 <=? MAX_RETRIES + 1) with true.
  change (1 <=? MAX_RETRIES) with true.
  change (1 + 1 <=? MAX_RETRIES) with true.
  change (1 + 1 + 1 <=? MAX_RETRIES) with true.
  change (1 + 1 + 1 + 1 <=? MAX_RETRIES) with false.
  change (1 + 1 + 1 + 1) with 4. change (1 + 1 + 1) with 3. change (1 + 1) with 2.
  cbv zeta.
  destruct (succeeded (request DEFAULT_TIMEOUT_MS (srv 1))); [reflexivity|].
  destruct (nonRetryable (request DEFAULT_TIMEOUT_MS (srv 1))); [reflexivity|].
  destruct (succeeded (request DEFAULT_TIMEOUT_MS (srv 2))); [reflexivity|].
  destruct (nonRetryable (request DEFAULT_TIMEOUT_MS (srv 2))); [reflexivity|].
  destruct (succeeded (request DEFAULT_TIMEOUT_MS (srv 3))); [reflexivity|].
  destruct (nonRetryable (request DEFAULT_TIMEOUT_MS (srv 3))); [reflexivity|].
  destruct (succeeded (request DEFAULT_TIMEOUT_MS (srv 4))); [reflexivity|].
  destruct (nonRetryable (request DEFAULT_TIMEOUT_MS (srv 4))); reflexivity.
Qed.

Lemma requestWithRetry_returns (srv : Z -> Endpoint T) :
  exists r, fst (requestWithRetry DEFAULT_TIMEOUT_MS srv MAX_RETRIES) = Some r.
Proof.
  rewrite requestWithRetry_default. cbv zeta.
  repeat match goal with
         | |- context [if ?b then _ else _] => destruct b
         end; eexists; reflexivity.
Qed.

End RetryProofs.

Section RetryPolicy.

Import SwushClient.

Let attempt (srv : Z -> Endpoint SwushUsersResponse) (k : Z) :=
  request DEFAULT_TIMEOUT_MS (srv k).

Local Ltac retried H i :=
  let Hs := fresh in
  let Hn := fresh in
  destruct (transient_retried _ (H i ltac:(lia))) as [Hs Hn];
  rewrite Hs, Hn; cbn [orb].

Local Ltac cases_upto4 k :=
  assert (k = 1 \/ k = 2 \/ k = 3 \/ k = 4) as [-> | [-> | [-> | ->]]] by lia.

(** C3. The paginated users call makes at most 4 attempts.  While the
    attempts meet transient failures (timeout, transport error, 5xx, 408,
    429) it tries again after 1000 * 2^(attempt-1) ms, that is after 1 s,
    2 s and 4 s; the first success is returned at once; a 4xx answer other
    than 408/429 is returned at once, with no further attempt and no delay
    after it; and when all 4 attempts fail the last failure is returned. *)
Theorem getUsers_retry_policy (srv : Z -> Endpoint SwushUsersResponse) :
  (attempts (snd (getUsers srv)) <= 4)%nat
  /\ (forall k d, 1 <= k <= 4 ->
        (forall i, 1 <= i < k -> transient (srv i) = true) ->
        answer (srv k) = Some d ->
        fst (getUsers srv) = Some (attempt srv k)
        /\ data (attempt srv k) = Some d
        /\ snd (getUsers srv) = schedule k)
  /\ (forall k, 1 <= k <= 4 ->
        (forall i, 1 <= i < k -> transient (srv i) = true) ->
        permanent (srv k) = true ->
        fst (getUsers srv) = Some (attempt srv k)
        /\ snd (getUsers srv) = schedule k)
  /\ ((forall i, 1 <= i <= 4 -> transient (srv i) = true) ->
        fst (getUsers srv) = Some (attempt srv 4)
        /\ snd (getUsers srv) = schedule 4)
  /\ schedule 4 = [Requested 1; Slept 1000; Requested 2; Slept 2000;
                   Requested 3; Slept 4000; Requested 4]
  /\ (forall k, 1 <= k <= 4 -> attempts (schedule k) = Z.to_nat k).
Proof.
  unfold getUsers, attempt. rewrite requestWithRetry_default. cbv zeta.
  split; [|split; [|split; [|split; [|split]]]].
  - repeat match goal with
           | |- context [if ?b then _ else _] => destruct b
           end; cbn [snd]; vm_compute; lia.
  - intros k d Hk Htr Hans.
    destruct (answer_succeeded _ _ Hans) as [Hs Hd].
    cases_upto4 k.
    + rewrite Hs. cbn [orb]. auto.
    + retried Htr 1. rewrite Hs. cbn [orb]. auto.
    + retried Htr 1. retried Htr 2. rewrite Hs. cbn [orb]. auto.
    + retried Htr 1. retried Htr 2. retried Htr 3. auto.
  - intros k Hk Htr Hperm.
    destruct (permanent_returned _ Hperm) as [Hs Hn].
    cases_upto4 k.
    + rewrite Hs, Hn. cbn [orb]. auto.
    + retried Htr 1. rewrite Hs, Hn. cbn [orb]. auto.
    + retried Htr 1. retried Htr 2. rewrite Hs, Hn. cbn [orb]. auto.
    + retried Htr 1. retried Htr 2. retried Htr 3. auto.
  - intros Htr. retried Htr 1. retried Htr 2. retried Htr 3. auto.
  - reflexivity.
  - intros k Hk. cases_upto4 k; reflexivity.
Qed.

End RetryPolicy.

(** ** Trigger evaluation *)

Section TriggerProofs.

Import BrazeTriggerService.

Local Ltac run_monad :=
  unfold mbind, M_bind, bind, mret, M_ret, ret, write, emit, modify, read;
  unfold mbind, M_bind, bind, mret, M_ret, ret.

(** The dispatch neither reads nor changes the tables. *)
Lemma triggerBrazeCampaign_run w game trigger t :
  triggerBrazeCampaign w (braze_campaign_id trigger) (properties game trigger) t
  = (dispatch w game trigger, t, dispatchEffects w game trigger).
Proof.
  unfold dispatch, dispatchEffects, triggerBrazeCampaign.
  destruct (String.eqb (brazeApiUrl w) "" || String.eqb (brazeApiKey w) "");
    run_monad; reflexivity.
Qed.

Lemma processTrigger_skip w game trigger t :
  fires w game trigger = false ->
  processTrigger w game trigger t
  = (mkTriggerResult true false (reason (checkTrigger w game trigger)) None, t, []).
Proof.
  unfold fires, processTrigger. intros ->. reflexivity.
Qed.

Lemma processTrigger_fire w game trigger t :
  fires w game trigger = true ->
  processTrigger w game trigger t =
  let d := dispatch w game trigger in
  let r := num_or (current_round game) 1 in
  let t1 :=
    match sql_error w (InsertTriggerLog (trigger_id trigger)) with
    | None => set_trigger_logs (fun logs => logs ++ [triggerLogRow game trigger r d]) t
    | Some _ => t
    end in
  let t2 :=
    if sent d then
      match sql_error w (UpdateGameTrigger (trigger_id trigger)) with
      | None => set_game_triggers (alter (advanced w r) (trigger_id trigger)) t1
      | Some _ => t1
      end
    else t1 in
  (mkTriggerResult (sent d) true
     (if sent d then "Campaign triggered for " +:+ trigger_type_name (trigger_type trigger)
      else "Failed to trigger: " +:+ show_undefined (error d))
     (response d),
   t2,
   dispatchEffects w game trigger
     ++ Sql (InsertTriggerLog (trigger_id trigger))
     :: (if sent d then [Sql (UpdateGameTrigger (trigger_id trigger))] else [])).
Proof.
  unfold fires, processTrigger. intros ->. cbn [negb].
  fold (properties game trigger).
  unfold mbind at 1, M_bind at 1, bind at 1.
  rewrite triggerBrazeCampaign_run. cbv zeta.
  unfold logTrigger, updateTriggerLastTriggered, triggerLogRow, advanced.
  run_monad.
  destruct (sql_error w (InsertTriggerLog (trigger_id trigger)));
    destruct (sent (dispatch w game trigger));
    try destruct (sql_error w (UpdateGameTrigger (trigger_id trigger)));
    cbn; rewrite ?app_nil_r; reflexivity.
Qed.

(** A trigger whose type is about the round state fires whatever the clock
    reads; the deadline reminder fires while the window is open. *)
Lemma fires_again w w' game trigger :
  fires w game trigger = true ->
  (trigger_type trigger = deadline_reminder_24h ->
   exists deadline, next_trade_deadline game = Some deadline
     /\ 20 <= differenceInHours deadline (now w') <= 28) ->
  fires w' game trigger = true.
Proof.
  unfold fires, checkTrigger.
  destruct (trigger_type trigger); auto.
  intros H Hw. destruct (Hw eq_refl) as (deadline & Hd & Hh).
  revert H. unfold checkDeadlineReminder24h. rewrite Hd.
  unfold DEADLINE_REMINDER_MIN_HOURS, DEADLINE_REMINDER_MAX_HOURS.
  destruct ((differenceInHours deadline (now w) <? 20)
            || (differenceInHours deadline (now w) >? 28)); [discriminate|].
  replace ((differenceInHours deadline (now w') <? 20)
           || (differenceInHours deadline (now w') >? 28)) with false by lia.
  auto.
Qed.

End TriggerProofs.

Section TriggerClaims.

Import BrazeTriggerService.


End TriggerClaims.

Section TriggerExamples.

Import BrazeTriggerService.



End TriggerExamples.

Section SkippedTriggers.

Import BrazeTriggerService.

(** C6, as the code has it.  When the fire condition of a trigger is false
    the evaluation makes no campaign dispatch and writes nothing: no
    TriggerLog row is added (none with status 'skipped' either) and the
    trigger rows are untouched.  The human-readable reason goes back to the
    caller as the message of a result that is successful and not
    triggered. *)
Theorem processTrigger_skipped w game trigger t :
  fires w game trigger = false ->
  resultOf (processTrigger w game trigger t)
  = mkTriggerResult true false (reason (checkTrigger w game trigger)) None
  /\ tablesOf (processTrigger w game trigger t) = t
  /\ effectsOf (processTrigger w game trigger t) = []
  /\ List.filter isBrazeSend (effectsOf (processTrigger w game trigger t)) = []
  /\ trigger_logs (tablesOf (processTrigger w game trigger t)) = trigger_logs t.
Proof.
  intros Hf. rewrite (processTrigger_skip _ _ _ _ Hf). cbn. auto.
Qed.

Lemma processTrigger_skipped_witness :
  resultOf (processTrigger (worldAt 0) (gameInRound (Some 5) (Some "CurrentOpen") None)
              (triggerOf round_started (Some 5))
              (tablesWith (triggerOf round_started (Some 5))))
  = mkTriggerResult true false "Already triggered for round 5" None.
Proof.
  destruct (processTrigger_skipped (worldAt 0)
              (gameInRound (Some 5) (Some "CurrentOpen") None)
              (triggerOf round_started (Some 5))
              (tablesWith (triggerOf round_started (Some 5)))) as (H & _).
  - reflexivity.
  - rewrite H. reflexivity.
Defined.

(** C6, as stated, fails: a round_started trigger that already fired for
    round 5 is not fired again, and no 'skipped' TriggerLog is recorded. *)
Lemma processTrigger_skipped_counterexample :
  fires (worldAt 0) (gameInRound (Some 5) (Some "CurrentOpen") None)
    (triggerOf round_started (Some 5)) = false
  /\ ~ (exists row,
          In row (trigger_logs
                    (tablesOf (processTrigger (worldAt 0)
                                 (gameInRound (Some 5) (Some "CurrentOpen") None)
                                 (triggerOf round_started (Some 5))
                                 (tablesWith (triggerOf round_started (Some 5))))))
          /\ tl_status row = Skipped).
Proof.
  split; [reflexivity|]. intros (row & Hin & _). exact Hin.
Qed.

(** C10.  When a trigger fires for a game whose [current_round] is null or
    0 (the store accepting the writes), the TriggerLog row carries round
    index 1 and, when the dispatch succeeds, [last_triggered_round] becomes
    1, which is not the round that the game holds. *)
Theorem processTrigger_round_defaults_to_1 w game trigger t :
  fires w game trigger = true ->
  current_round game = None \/ current_round game = Some 0 ->
  sql_error w (InsertTriggerLog (trigger_id trigger)) = None ->
  sql_error w (UpdateGameTrigger (trigger_id trigger)) = None ->
  (exists row,
      trigger_logs (tablesOf (processTrigger w game trigger t)) = trigger_logs t ++ [row]
      /\ tl_round_index row = 1)
  /\ (sent (dispatch w game trigger) = true ->
      game_triggers (tablesOf (processTrigger w game trigger t))
      = alter (advanced w 1) (trigger_id trigger) (game_triggers t)
      /\ (forall row, game_triggers t !! trigger_id trigger = Some row ->
          last_triggered_round <$>
            game_triggers (tablesOf (processTrigger w game trigger t)) !! trigger_id trigger
          = Some (Some 1)))
  /\ Some 1 <> current_round game.
Proof.
  intros Hf Hr Hi Hu.
  assert (Hone : num_or (current_round game) 1 = 1)
    by (destruct Hr as [-> | ->]; reflexivity).
  rewrite (processTrigger_fire _ _ _ _ Hf). cbv zeta.
  rewrite Hi, Hu, Hone.
  split; [|split].
  - eexists. split; [destruct (sent (dispatch w game trigger)); reflexivity | reflexivity].
  - intros ->. cbn. split; [reflexivity|].
    intros row Hrow. rewrite lookup_alter_eq, Hrow. reflexivity.
  - destruct Hr as [-> | ->]; discriminate.
Qed.

Lemma processTrigger_round_defaults_to_1_witness :
  last_triggered_round <$>
    game_triggers (tablesOf (processTrigger (worldWithBraze 0 brazeAccepts)
                     (gameInRound None (Some "CurrentOpen") None)
                     (triggerOf round_started (Some 3))
                     (tablesWith (triggerOf round_started (Some 3))))) !! "trigger-1"
  = Some (Some 1).
Proof.
  destruct (processTrigger_round_defaults_to_1 (worldWithBraze 0 brazeAccepts)
              (gameInRound None (Some "CurrentOpen") None)
              (triggerOf round_started (Some 3))
              (tablesWith (triggerOf round_started (Some 3)))) as (_ & H & _).
  - reflexivity.
  - left. reflexivity.
  - reflexivity.
  - reflexivity.
  - destruct H as [_ H]; [reflexivity|].
    apply (H (triggerOf round_started (Some 3))). reflexivity.
Defined.

End SkippedTriggers.

Section DeadlineReminder.

Import BrazeTriggerService.

Lemma opt_Z_eqb_eq (a b : option Z) : opt_Z_eqb a b = true <-> a = b.
Proof.
  destruct a as [x|], b as [y|]; cbn; split; try discriminate; try reflexivity.
  - intros H. f_equal. lia.
  - intros [= ->]. lia.
Qed.

(** Whole hours between 20 and 28 are 20 h up to, but not including, 29 h. *)
Lemma differenceInHours_window deadline current :
  20 <= differenceInHours deadline current <= 28
  <-> hours 20 <= deadline - current < hours 29.
Proof.
  unfold differenceInHours, hours.
  change (1000 * 60 * 60) with 3600000.
  destruct (Z_lt_le_dec (deadline - current) 0) as [Hneg | Hpos].
  - pose proof (Z.quot_opp_l (-(deadline - current)) 3600000 ltac:(lia)) as Ho.
    rewrite Z.opp_involutive in Ho.
    pose proof (Z.quot_pos (-(deadline - current)) 3600000 ltac:(lia) ltac:(lia)).
    lia.
  - rewrite Z.quot_div_nonneg by lia.
    pose proof (Z.div_mod (deadline - current) 3600000 ltac:(lia)).
    pose proof (Z.mod_pos_bound (deadline - current) 3600000 ltac:(lia)).
    lia.
Qed.

Lemma deadline_fires_iff w game trigger :
  trigger_type trigger = deadline_reminder_24h ->
  fires w game trigger = true
  <-> exists deadline,
        next_trade_deadline game = Some deadline
        /\ 20 <= differenceInHours deadline (now w) <= 28
        /\ last_triggered_round trigger <> current_round game.
Proof.
  intros Hty. unfold fires, checkTrigger. rewrite Hty.
  unfold checkDeadlineReminder24h, DEADLINE_REMINDER_MIN_HOURS, DEADLINE_REMINDER_MAX_HOURS.
  destruct (next_trade_deadline game) as [deadline|].
  - destruct ((differenceInHours deadline (now w) <? 20)
              || (differenceInHours deadline (now w) >? 28)) eqn:Hwin.
    + cbn. split; [discriminate|]. intros (d & [= <-] & Hh & _). lia.
    + destruct (opt_Z_eqb (last_triggered_round trigger) (current_round game)) eqn:Heq.
      * cbn. split; [discriminate|]. intros (d & _ & _ & Hne).
        apply opt_Z_eqb_eq in Heq. contradiction.
      * cbn. split; [|reflexivity]. intros _. exists deadline.
        split; [reflexivity|]. split; [lia|].
        intros Heq'. apply opt_Z_eqb_eq in Heq'. congruence.
  - cbn. split; [discriminate|]. intros (d & Hd & _). discriminate.
Qed.

(** C7.  The deadline_reminder_24h trigger fires if and only if
    [next_trade_deadline] is set, the hours until the deadline (whole
    hours, as [differenceInHours] counts them) lie in [20, 28], and
    [last_triggered_round] differs from [current_round].  With the deadline
    25 hours away it fires; 19 hours away or 29 hours away it does not.
    In milliseconds the window runs from 20 h up to, not including, 29 h. *)
Theorem deadline_reminder_fires_iff w game trigger :
  trigger_type trigger = deadline_reminder_24h ->
  (fires w game trigger = true
   <-> exists deadline,
         next_trade_deadline game = Some deadline
         /\ 20 <= differenceInHours deadline (now w) <= 28
         /\ last_triggered_round trigger <> current_round game)
  /\ (next_trade_deadline game = Some (now w + hours 25) ->
      last_triggered_round trigger <> current_round game ->
      fires w game trigger = true)
  /\ (next_trade_deadline game = Some (now w + hours 19) -> fires w game trigger = false)
  /\ (next_trade_deadline game = Some (now w + hours 29) -> fires w game trigger = false)
  /\ (forall deadline,
        20 <= differenceInHours deadline (now w) <= 28
        <-> hours 20 <= deadline - now w < hours 29).
Proof.
  intros Hty.
  pose proof (deadline_fires_iff w game trigger Hty) as Hiff.
  split; [exact Hiff|]. split; [|split; [|split; [|intros; apply differenceInHours_window]]].
  - intros Hd Hne. apply Hiff. exists (now w + hours 25).
    split; [exact Hd|]. split; [|exact Hne].
    apply differenceInHours_window. unfold hours. lia.
  - intros Hd. apply not_true_is_false. intros Hf.
    apply Hiff in Hf. destruct Hf as (d & Hd' & Hh & _).
    rewrite Hd in Hd'. injection Hd' as <-.
    apply differenceInHours_window in Hh. unfold hours in Hh. lia.
  - intros Hd. apply not_true_is_false. intros Hf.
    apply Hiff in Hf. destruct Hf as (d & Hd' & Hh & _).
    rewrite Hd in Hd'. injection Hd' as <-.
    apply differenceInHours_window in Hh. unfold hours in Hh. lia.
Qed.

Lemma deadline_reminder_fires_iff_witness :
  fires (worldAt 0) (gameInRound (Some 4) (Some "CurrentOpen") (Some (hours 25)))
    (triggerOf deadline_reminder_24h (Some 3)) = true.
Proof.
  destruct (deadline_reminder_fires_iff (worldAt 0)
              (gameInRound (Some 4) (Some "CurrentOpen") (Some (hours 25)))
              (triggerOf deadline_reminder_24h (Some 3))) as (_ & H & _).
  - reflexivity.
  - apply H; [reflexivity | discriminate].
Defined.

End DeadlineReminder.

(** ** Campaign dispatch *)

Section CampaignDispatch.

Import BrazeTriggerService.

Lemma hasCredentials_false w :
  hasCredentials w = false
  <-> String.eqb (brazeApiUrl w) "" || String.eqb (brazeApiKey w) "" = true.
Proof.
  unfold hasCredentials, brazeApiUrl, brazeApiKey, str_or.
  destruct (BRAZE_REST_ENDPOINT w) as [u|], (BRAZE_API_KEY w) as [k|]; cbn;
    try destruct (String.eqb u "") eqn:Eu; try destruct (String.eqb k "") eqn:Ek;
    cbn; try rewrite Eu; try rewrite Ek; cbn; intuition congruence.
Qed.

Lemma hasCredentials_true w :
  hasCredentials w = true ->
  String.eqb (brazeApiUrl w) "" || String.eqb (brazeApiKey w) "" = false.
Proof.
  intros H. destruct (String.eqb (brazeApiUrl w) "" || String.eqb (brazeApiKey w) "") eqn:E;
    [|reflexivity].
  apply hasCredentials_false in E. congruence.
Qed.

(** C9, as the code has it.  Without credentials of the campaign system the
    dispatch is a success that sends no HTTP request.  With credentials it
    sends one request under an abort timer of 30 000 ms; an answer that is
    not there by then is reported with the error text "Braze request
    timeout", and an answer with a status outside 2xx is reported with the
    message of its body ("Braze API error" when the body has none).  The two
    reports differ exactly when that message is not itself the text of the
    timeout. *)
Theorem triggerBrazeCampaign_timeout_and_skip w campaignId props t :
  (hasCredentials w = false ->
   resultOf (triggerBrazeCampaign w campaignId props t)
   = mkSendResult true
       (Some (mkBrazeApiResponse None (Some "Skipped - no Braze credentials") None)) None
   /\ effectsOf (triggerBrazeCampaign w campaignId props t) = []
   /\ tablesOf (triggerBrazeCampaign w campaignId props t) = t)
  /\ (hasCredentials w = true ->
      (exists post,
          effectsOf (triggerBrazeCampaign w campaignId props t) = [BrazeSend post]
          /\ post_abort_after_ms post = 30000
          /\ post_campaign_id post = campaignId)
      /\ (30000 <= latency (braze_endpoint w campaignId) ->
          resultOf (triggerBrazeCampaign w campaignId props t)
          = sendFailed "Braze request timeout")
      /\ (forall st txt body,
            latency (braze_endpoint w campaignId) < 30000 ->
            settles (braze_endpoint w campaignId) = Resolved st txt body ->
            ~ 200 <= st <= 299 ->
            resultOf (triggerBrazeCampaign w campaignId props t)
            = sendFailed (rejectionText body)
            /\ (resultOf (triggerBrazeCampaign w campaignId props t)
                <> sendFailed "Braze request timeout"
                <-> rejectionText body <> "Braze request timeout"))
      /\ (forall st txt data,
            latency (braze_endpoint w campaignId) < 30000 ->
            settles (braze_endpoint w campaignId) = Resolved st txt (JsonValue data) ->
            ~ 200 <= st <= 299 ->
            message data = None ->
            resultOf (triggerBrazeCampaign w campaignId props t)
            = sendFailed "Braze API error"
            /\ sendFailed "Braze API error" <> sendFailed "Braze request timeout")
      /\ (forall st txt data,
            latency (braze_endpoint w campaignId) < 30000 ->
            settles (braze_endpoint w campaignId) = Resolved st txt (JsonValue data) ->
            200 <= st <= 299 ->
            resultOf (triggerBrazeCampaign w campaignId props t)
            = mkSendResult true (Some data) None)).
Proof.
  unfold triggerBrazeCampaign, resultOf, effectsOf, tablesOf.
  split.
  - intros Hc. apply hasCredentials_false in Hc. rewrite Hc. cbn. auto.
  - intros Hc. rewrite (hasCredentials_true _ Hc).
    unfold mbind, M_bind, bind, mret, M_ret, ret, emit. cbn [fst snd app].
    split; [|split; [|split; [|split]]].
    + eexists. split; [reflexivity|]. split; reflexivity.
    + intros Hl. unfold fetch, BRAZE_REQUEST_TIMEOUT_MS.
      replace (30000 <=? latency (braze_endpoint w campaignId)) with true by lia.
      reflexivity.
    + intros st txt body Hl Hs Hst. unfold fetch, BRAZE_REQUEST_TIMEOUT_MS.
      replace (30000 <=? latency (braze_endpoint w campaignId)) with false by lia.
      rewrite Hs.
      assert (Hok : Fetch.ok st = false) by (unfold Fetch.ok; lia).
      assert (Hr : match body with
                   | JsonInvalid => sendFailed "Invalid response from Braze"
                   | JsonNull =>
                       if negb (Fetch.ok st) then sendFailed null_message_error
                       else mkSendResult true None None
                   | JsonValue data =>
                       if negb (Fetch.ok st)
                       then sendFailed (str_or (message data) "Braze API error")
                       else mkSendResult true (Some data) None
                   end = sendFailed (rejectionText body))
        by (rewrite Hok; destruct body; reflexivity).
      rewrite Hr. split; [reflexivity|].
      unfold sendFailed. split; intros H; congruence.
    + intros st txt data Hl Hs Hst Hm. unfold fetch, BRAZE_REQUEST_TIMEOUT_MS.
      replace (30000 <=? latency (braze_endpoint w campaignId)) with false by lia.
      rewrite Hs.
      assert (Hok : Fetch.ok st = false) by (unfold Fetch.ok; lia).
      rewrite Hok, Hm. cbn. split; [reflexivity | discriminate].
    + intros st txt data Hl Hs Hst. unfold fetch, BRAZE_REQUEST_TIMEOUT_MS.
      replace (30000 <=? latency (braze_endpoint w campaignId)) with false by lia.
      rewrite Hs.
      assert (Hok : Fetch.ok st = true) by (unfold Fetch.ok; lia).
      rewrite Hok. reflexivity.
Qed.

Lemma triggerBrazeCampaign_timeout_and_skip_witness :
  resultOf (triggerBrazeCampaign (worldWithBraze 0 brazeHangs) "campaign-1"
              (properties (gameInRound (Some 6) (Some "CurrentOpen") None)
                 (triggerOf round_started (Some 5))) emptyTables)
  = sendFailed "Braze request timeout"
  /\ effectsOf (triggerBrazeCampaign (worldAt 0) "campaign-1"
                  (properties (gameInRound (Some 6) (Some "CurrentOpen") None)
                     (triggerOf round_started (Some 5))) emptyTables) = [].
Proof.
  split.
  - destruct (triggerBrazeCampaign_timeout_and_skip (worldWithBraze 0 brazeHangs)
                "campaign-1"
                (properties (gameInRound (Some 6) (Some "CurrentOpen") None)
                   (triggerOf round_started (Some 5))) emptyTables) as (_ & H).
    destruct H as (_ & H & _); [reflexivity|].
    apply H. vm_compute. discriminate.
  - destruct (triggerBrazeCampaign_timeout_and_skip (worldAt 0) "campaign-1"
                (properties (gameInRound (Some 6) (Some "CurrentOpen") None)
                   (triggerOf round_started (Some 5))) emptyTables) as (H & _).
    destruct H as (_ & H & _); [reflexivity|]. exact H.
Defined.

(** C9, as stated, fails: a 504 answer whose body carries the message "Braze
    request timeout" arrives in time, and is reported exactly as a timeout
    is. *)
Lemma triggerBrazeCampaign_timeout_and_skip_counterexample :
  latency (brazeRefuses 504 (Some "Braze request timeout")) < 30000
  /\ settles (brazeRefuses 504 (Some "Braze request timeout"))
     = Resolved 504 ""
         (JsonValue (mkBrazeApiResponse None (Some "Braze request timeout") None))
  /\ 30000 <= latency brazeHangs
  /\ resultOf (triggerBrazeCampaign
                 (worldWithBraze 0 (brazeRefuses 504 (Some "Braze request timeout")))
                 "campaign-1"
                 (properties (gameInRound (Some 6) (Some "CurrentOpen") None)
                    (triggerOf round_started (Some 5))) emptyTables)
     = resultOf (triggerBrazeCampaign (worldWithBraze 0 brazeHangs) "campaign-1"
                   (properties (gameInRound (Some 6) (Some "CurrentOpen") None)
                      (triggerOf round_started (Some 5))) emptyTables).
Proof.
  split; [reflexivity|]. split; [reflexivity|]. split; [discriminate|]. reflexivity.
Qed.

End CampaignDispatch.

(** ** Sync scheduling *)

Section Scheduling.

Import SyncService.

Lemma Qle_bool_quotient_r k x c :
  0 < c -> Qle_bool (inject_Z k) (inject_Z x / inject_Z c) = (k * c <=? x).
Proof.
  intros Hc. destruct c as [|p|p]; try lia.
  unfold Qle_bool, Qdiv, Qmult, Qinv, inject_Z. cbn.
  rewrite !Z.mul_1_r. rewrite Pos.mul_1_l. reflexivity.
Qed.

Lemma Qle_bool_quotient_l k x c :
  0 < c -> Qle_bool (inject_Z x / inject_Z c) (inject_Z k) = (x <=? k * c).
Proof.
  intros Hc. destruct c as [|p|p]; try lia.
  unfold Qle_bool, Qdiv, Qmult, Qinv, inject_Z. cbn.
  rewrite !Z.mul_1_r. rewrite Pos.mul_1_l. reflexivity.
Qed.

Lemma Qltb_quotient k x c :
  0 < c -> Qltb (inject_Z k) (inject_Z x / inject_Z c) = (k * c <? x).
Proof.
  intros Hc. unfold Qltb. rewrite Qle_bool_quotient_l by assumption. lia.
Qed.

Lemma startingSoon_within w game :
  bool_decide (is_Some (startingSoon w game))
  = withinNext (now w) (hours 2) (current_round_start game).
Proof.
  unfold startingSoon, withinNext, hoursBetween, hours.
  destruct (current_round_start game) as [s|]; [|reflexivity].
  change 0%Q with (inject_Z 0). change 2%Q with (inject_Z 2).
  rewrite Qltb_quotient, Qle_bool_quotient_l by lia.
  change (0 * (1000 * 60 * 60)) with 0. change (2 * (1000 * 60 * 60)) with (2 * 3600000).
  destruct ((0 <? s - now w) && (s - now w <=? 2 * 3600000)); reflexivity.
Qed.

Lemma deadlineSoon_within w game :
  bool_decide (is_Some (deadlineSoon w game))
  = withinNext (now w) (hours 2) (next_trade_deadline game).
Proof.
  unfold deadlineSoon, withinNext, hoursBetween, hours.
  destruct (next_trade_deadline game) as [s|]; [|reflexivity].
  change 0%Q with (inject_Z 0). change 2%Q with (inject_Z 2).
  rewrite Qltb_quotient, Qle_bool_quotient_l by lia.
  change (0 * (1000 * 60 * 60)) with 0. change (2 * (1000 * 60 * 60)) with (2 * 3600000).
  destruct ((0 <? s - now w) && (s - now w <=? 2 * 3600000)); reflexivity.
Qed.

Lemma endedRecently_within w game :
  bool_decide (is_Some (endedRecently w game))
  = stateEnded game && withinPast (now w) (hours 1) (current_round_end game).
Proof.
  unfold endedRecently, withinPast, hoursBetween, hours, stateEnded, roundEnded.
  destruct (current_round_end game) as [e|]; [|rewrite andb_false_r; reflexivity].
  destruct (round_state game) as [s|]; [|reflexivity].
  destruct (String.eqb s "Ended" || String.eqb s "EndedLastest"); [|reflexivity].
  change 0%Q with (inject_Z 0). change 1%Q with (inject_Z 1).
  rewrite Qle_bool_quotient_r, Qle_bool_quotient_l by lia.
  change (0 * (1000 * 60 * 60)) with 0. change (1 * (1000 * 60 * 60)) with (1 * 3600000).
  destruct ((0 <=? now w - e) && (now w - e <=? 1 * 3600000)); reflexivity.
Qed.

Lemma isInCriticalPeriod_spec w game :
  critical (isInCriticalPeriod w game) = criticalPeriod (now w) game.
Proof.
  unfold criticalPeriod.
  rewrite <- startingSoon_within, <- deadlineSoon_within, <- endedRecently_within.
  unfold isInCriticalPeriod.
  destruct (startingSoon w game); [reflexivity|].
  destruct (deadlineSoon w game); [reflexivity|].
  destruct (endedRecently w game); reflexivity.
Qed.

(** C4, as the code has it.  A game never synced is due.  Otherwise a game
    in a critical period (round start within the next 2 hours, trade
    deadline within the next 2 hours, or round end within the past hour
    while the stored round state is Ended or EndedLastest) is due exactly
    when 30 minutes have gone by since the last sync; any other game is due
    exactly when its [sync_interval_minutes] have gone by.  The games due are
    the active games for which this holds. *)
Theorem dueForSync_rule w game :
  (last_synced_at game = None -> dueForSync w game = true)
  /\ (forall lastSync,
        last_synced_at game = Some lastSync ->
        (criticalPeriod (now w) game = true ->
         (dueForSync w game = true <-> minutes 30 <= now w - lastSync))
        /\ (criticalPeriod (now w) game = false ->
            (dueForSync w game = true
             <-> minutes (sync_interval_minutes game) <= now w - lastSync)))
  /\ (forall t g,
        sql_error w SelectActiveGames = None ->
        In g (resultOf (getGamesDueForSync w t))
        <-> (exists k, games t !! k = Some g) /\ is_active g = true /\ dueForSync w g = true).
Proof.
  split; [|split].
  - unfold dueForSync. intros ->. reflexivity.
  - intros lastSync Hl. unfold dueForSync. rewrite Hl, isInCriticalPeriod_spec.
    unfold minutesBetween, minutes.
    change 30%Q with (inject_Z 30).
    rewrite !Qle_bool_quotient_r by lia.
    change (1000 * 60) with 60000.
    split; intros ->; rewrite Z.leb_le; reflexivity.
  - intros t g Hsel. unfold getGamesDueForSync, resultOf.
    unfold mbind, M_bind, bind, mret, M_ret, ret, emit, read. rewrite Hsel. cbn [fst snd].
    rewrite !filter_In, in_map_iff.
    split.
    + intros [[[[k g'] [Hg Hin]] Ha] Hd]. cbn in Hg. subst g'.
      apply list_elem_of_In, elem_of_map_to_list in Hin. eauto.
    + intros [[k Hk] [Ha Hd]]. split; [split|]; auto.
      exists (k, g). split; [reflexivity|].
      apply list_elem_of_In, elem_of_map_to_list. exact Hk.
Qed.

End Scheduling.

Section SchedulingExamples.

Import SyncService.

Lemma dueForSync_rule_witness : dueForSync (worldAt (hours 10)) upcomingGame = true.
Proof.
  destruct (dueForSync_rule (worldAt (hours 10)) upcomingGame) as (_ & H & _).
  destruct (H (hours 10 - minutes 40) eq_refl) as (Hc & _).
  apply Hc; [reflexivity | vm_compute; discriminate].
Defined.

(** C4, as stated, fails: the open round of the game ended 30 minutes ago
    by the clock, so a round end lies within the past hour, and 40 minutes
    have gone by since the last sync; yet the stored round state is still
    CurrentOpen, the game counts as routine, and with its interval of 60
    minutes it is not due. *)
Lemma dueForSync_rule_counterexample :
  last_synced_at overrunGame = Some (hours 10 - minutes 40)
  /\ criticalAsStated (hours 10) overrunGame = true
  /\ minutes 30 <= hours 10 - (hours 10 - minutes 40)
  /\ dueForSync (worldAt (hours 10)) overrunGame = false.
Proof.
  split; [reflexivity|]. split; [reflexivity|]. split; [vm_compute; discriminate|].
  vm_compute. reflexivity.
Qed.

End SchedulingExamples.

(** ** The user phase *)

Section UserPhase.

Import SwushClient SyncService.

Local Ltac run_monad :=
  unfold mbind, M_bind, bind, mret, M_ret, ret, write, emit, modify, read;
  unfold mbind, M_bind, bind, mret, M_ret, ret.








End UserPhase.

Section UserPhaseClaims.

Import SwushClient SyncService.



End UserPhaseClaims.

(** ** The catalog phase *)

Section CatalogPhase.

Import SwushClient SyncService.

Local Ltac run_monad :=
  unfold mbind, M_bind, bind, mret, M_ret, ret, write, emit, modify, read;
  unfold mbind, M_bind, bind, mret, M_ret, ret.

Lemma upsertElements_other cs :
  forall (tbl : gmap (string * Z) Element) k,
    (forall c, In c cs -> columnsKey c <> k) ->
    upsertElements cs tbl !! k = tbl !! k.
Proof.
  unfold upsertElements.
  induction cs as [|c cs IH]; intros tbl k Hk; [reflexivity|].
  cbn [fold_left]. rewrite IH by (intros c' Hc'; apply Hk; right; exact Hc').
  unfold upsertElement. apply lookup_insert_ne. apply Hk. left. reflexivity.
Qed.

Lemma upsertElements_at cs :
  forall (m : nat) c (tbl : gmap (string * Z) Element),
    cs !! m = Some c ->
    (forall (m' : nat) c', cs !! m' = Some c' -> columnsKey c' = columnsKey c -> m' = m) ->
    upsertElements cs tbl !! columnsKey c
    = Some (upsertElementRow c (tbl !! columnsKey c)).
Proof.
  induction cs as [|c0 cs IH]; intros m c tbl Hm Huniq; [discriminate|].
  change (upsertElements (c0 :: cs) tbl) with (upsertElements cs (upsertElement tbl c0)).
  destruct m as [|m].
  - injection Hm as ->.
    rewrite upsertElements_other.
    + unfold upsertElement. apply lookup_insert_eq.
    + intros c' Hin Hkey.
      apply list_elem_of_In, list_elem_of_lookup in Hin. destruct Hin as [m' Hm'].
      specialize (Huniq (S m') c' Hm' Hkey). discriminate.
  - rewrite (IH m c (upsertElement tbl c0) Hm).
    + f_equal. f_equal. unfold upsertElement. apply lookup_insert_ne.
      intros Hkey. specialize (Huniq 0%nat c0 eq_refl Hkey). discriminate.
    + intros m' c' Hm' Hkey. specialize (Huniq (S m') c' Hm' Hkey). lia.
Qed.

Lemma slice_lookup {A} (l : list A) (i n m : nat) (x : A) :
  slice i n l !! m = Some x <-> (m < n)%nat /\ l !! (i + m)%nat = Some x.
Proof.
  unfold slice. rewrite lookup_take_Some, lookup_drop. tauto.
Qed.

(** One turn of the batch loop. *)
Lemma upsertBatches_step w game els fuel i s t :
  (i < length els)%nat ->
  upsertBatches w game els (S fuel) i s t =
  let batch := slice i BATCH_SIZE els in
  let '(t1, s1) :=
    match sql_error w (UpsertElements (Z.of_nat i)) with
    | Some _ => (t, s)
    | None => (set_elements (upsertElements (map (upsertData w game) batch)) t,
               s + Z.of_nat (length batch))
    end in
  let '(r, t2, effs) := upsertBatches w game els fuel (i + BATCH_SIZE)%nat s1 t1 in
  (r, t2, Sql (UpsertElements (Z.of_nat i)) :: effs).
Proof.
  intros Hi. cbn [upsertBatches].
  replace (i <? length els)%nat with true by (symmetry; apply Nat.ltb_lt; exact Hi).
  run_monad. cbv zeta.
  destruct (sql_error w (UpsertElements (Z.of_nat i))); cbn;
    match goal with
    | |- context [upsertBatches ?a ?b ?c ?d ?e ?f ?g] =>
        destruct (upsertBatches a b c d e f g) as [[r t2] effs]
    end; reflexivity.
Qed.

Lemma upsertBatches_stop w game els fuel i s t :
  (length els <= i)%nat ->
  upsertBatches w game els fuel i s t = (s, t, []).
Proof.
  intros Hi. destruct fuel; [reflexivity|]. cbn [upsertBatches].
  replace (i <? length els)%nat with false by (symmetry; apply Nat.ltb_ge; exact Hi).
  reflexivity.
Qed.

Lemma upsertBatches_other w game els k fuel :
  forall i s t,
    (forall (j : nat) el', (i <= j)%nat -> els !! j = Some el' -> elementKey game el' <> k) ->
    elements (tablesOf (upsertBatches w game els fuel i s t)) !! k = elements t !! k.
Proof.
  induction fuel as [|fuel IH]; intros i s t Hk; [reflexivity|].
  destruct (Nat.lt_ge_cases i (length els)) as [Hi | Hi].
  - rewrite upsertBatches_step by exact Hi. cbv zeta.
    assert (Hbatch : upsertElements (map (upsertData w game) (slice i BATCH_SIZE els))
                       (elements t) !! k = elements t !! k).
    { apply upsertElements_other. intros c Hin.
      apply in_map_iff in Hin. destruct Hin as (el' & <- & Hin).
      apply list_elem_of_In, list_elem_of_lookup in Hin. destruct Hin as [m Hm].
      apply slice_lookup in Hm. destruct Hm as [_ Hm].
      apply (Hk (i + m)%nat el'); [lia | exact Hm]. }
    destruct (sql_error w (UpsertElements (Z.of_nat i))).
    + specialize (IH (i + BATCH_SIZE)%nat s t).
      destruct (upsertBatches w game els fuel (i + BATCH_SIZE)%nat s t) as [[r t2] effs].
      unfold tablesOf in *. cbn [fst snd] in *. apply IH.
      intros j el' Hj. apply Hk. lia.
    + match goal with
      | |- context [upsertBatches ?a ?b ?c ?d ?e ?f ?g] =>
          specialize (IH e f g); destruct (upsertBatches a b c d e f g) as [[r t2] effs]
      end.
      unfold tablesOf in *. cbn [fst snd] in *. rewrite IH.
      * exact Hbatch.
      * intros j el' Hj. apply Hk. lia.
  - rewrite upsertBatches_stop by exact Hi. reflexivity.
Qed.

Lemma upsertBatches_at w game els j el fuel :
  els !! j = Some el ->
  (forall (j' : nat) el', els !! j' = Some el' -> elementId el' = elementId el -> j' = j) ->
  sql_error w (UpsertElements (Z.of_nat (BATCH_SIZE * (j / BATCH_SIZE)))) = None ->
  forall i s t,
    (i <= j)%nat -> (i mod BATCH_SIZE = 0)%nat -> (j < i + BATCH_SIZE * fuel)%nat ->
    elements (tablesOf (upsertBatches w game els fuel i s t)) !! elementKey game el
    = Some (upsertElementRow (upsertData w game el) (elements t !! elementKey game el)).
Proof.
  intros Hj Huniq Hok.
  assert (Hlen : (j < length els)%nat) by (eapply lookup_lt_Some; exact Hj).
  induction fuel as [|fuel IH]; intros i s t Hij Hmod Hfuel; [lia|].
  rewrite upsertBatches_step by lia. cbv zeta.
  destruct (Nat.lt_ge_cases j (i + BATCH_SIZE)) as [Hin | Hout].
  - assert (Hi : (BATCH_SIZE * (j / BATCH_SIZE))%nat = i).
    { unfold BATCH_SIZE in *.
      pose proof (Nat.div_mod_eq i 100). pose proof (Nat.div_mod_eq j 100).
      pose proof (Nat.mod_upper_bound j 100 ltac:(lia)).
      assert (j / 100 = i / 100)%nat; [|lia].
      symmetry. apply (Nat.div_unique j 100 (i / 100) (j - i)); lia. }
    rewrite Hi in Hok. rewrite Hok.
    match goal with
    | |- context [upsertBatches ?a ?b ?c ?d ?e ?f ?g] =>
        pose proof (upsertBatches_other a b c (elementKey game el) d e f g) as Hrest;
        destruct (upsertBatches a b c d e f g) as [[r t2] effs]
    end.
    unfold tablesOf in *. cbn [fst snd] in *. rewrite Hrest.
    + cbn [elements set_elements].
      apply (upsertElements_at _ (j - i)%nat (upsertData w game el)).
      * rewrite list_lookup_fmap.
        assert (Hs : slice i BATCH_SIZE els !! (j - i)%nat = Some el).
        { apply slice_lookup. split; [lia|].
          replace (i + (j - i))%nat with j by lia. exact Hj. }
        rewrite Hs. reflexivity.
      * intros m' c' Hm' Hkey. rewrite list_lookup_fmap in Hm'.
        destruct (slice i BATCH_SIZE els !! m') as [el'|] eqn:Hs; [|discriminate].
        injection Hm' as <-. apply slice_lookup in Hs. destruct Hs as [_ Hs].
        injection Hkey as Hid. specialize (Huniq _ _ Hs Hid). lia.
    + intros j' el' Hj' Hl Hkey. injection Hkey as Hid.
      specialize (Huniq _ _ Hl Hid). lia.
  - assert (Hbatch : upsertElements (map (upsertData w game) (slice i BATCH_SIZE els))
                       (elements t) !! elementKey game el = elements t !! elementKey game el).
    { apply upsertElements_other. intros c Hc.
      apply in_map_iff in Hc. destruct Hc as (el' & <- & Hc).
      apply list_elem_of_In, list_elem_of_lookup in Hc. destruct Hc as [m Hm].
      apply slice_lookup in Hm. destruct Hm as [Hlt Hm].
      intros Hkey. injection Hkey as Hid. specialize (Huniq _ _ Hm Hid). lia. }
    assert (Hmod' : ((i + BATCH_SIZE) mod BATCH_SIZE = 0)%nat).
    { unfold BATCH_SIZE in *. rewrite <- Nat.Div0.add_mod_idemp_r.
      change (100 mod 100)%nat with 0%nat. rewrite Nat.add_0_r. exact Hmod. }
    destruct (sql_error w (UpsertElements (Z.of_nat i))).
    + specialize (IH (i + BATCH_SIZE)%nat s t ltac:(lia) Hmod' ltac:(lia)).
      destruct (upsertBatches w game els fuel (i + BATCH_SIZE)%nat s t) as [[r t2] effs].
      unfold tablesOf in *. cbn [fst snd] in *. exact IH.
    + match goal with
      | |- context [upsertBatches ?a ?b ?c ?d ?e ?f ?g] =>
          specialize (IH e f g ltac:(lia) Hmod' ltac:(lia));
          destruct (upsertBatches a b c d e f g) as [[r t2] effs]
      end.
      unfold tablesOf in *. cbn [fst snd] in *. rewrite IH.
      cbn [elements set_elements]. rewrite Hbatch. reflexivity.
Qed.

End CatalogPhase.

Section CatalogClaims.

Import SwushClient SyncService.

(** C8, as the code has it.  A catalog sync upserts every element under the
    key (game, element id).  After the sync, an element of the upstream list
    whose id occurs once in it and whose batch the store accepted has a row
    that carries the upstream names, image, popularity, trend, growth,
    total_growth and value and the time of the sync.  The flags is_injured
    and is_suspended are not sent: the row keeps the flags that it had
    before the sync, and a new row has them false. *)
Theorem syncElements_upserts_sent_columns w game t els (j : nat) el :
  catalogFetched w = Some els ->
  els !! j = Some el ->
  (forall (j' : nat) el', els !! j' = Some el' -> elementId el' = elementId el -> j' = j) ->
  sql_error w (UpsertElements (Z.of_nat (BATCH_SIZE * (j / BATCH_SIZE)))) = None ->
  elements (tablesOf (syncElements w game t)) !! elementKey game el
  = Some (mkElement (game_id game) (elementId el) (shortName el) (fullName el)
            (str_or (teamName el) "") (imageUrl el) (popularity el) (trend el)
            (growth el) (totalGrowth el) (value el)
            (flagOf is_injured (elements t !! elementKey game el))
            (flagOf is_suspended (elements t !! elementKey game el))
            (now w)).
Proof.
  intros Hfetch Hj Huniq Hok.
  assert (Hlen : (j < length els)%nat) by (eapply lookup_lt_Some; exact Hj).
  unfold catalogFetched in Hfetch. unfold syncElements.
  destruct (fetchFailed (getElements (elements_endpoint w))); [discriminate|].
  rewrite Hfetch.
  unfold mbind, M_bind, bind, mret, M_ret, ret, emit.
  pose proof (upsertBatches_at w game els j el (length els) Hj Huniq Hok 0%nat 0 t
                ltac:(lia) eq_refl ltac:(unfold BATCH_SIZE; lia)) as H.
  destruct (upsertBatches w game els (length els) 0%nat 0 t) as [[r t2] effs].
  unfold tablesOf in *. cbn [fst snd] in *. rewrite H. reflexivity.
Qed.

Lemma syncElements_upserts_sent_columns_witness :
  strikerAfterSync (storedStriker true)
  = Some (mkElement "game-1" 7 "Striker" "A. Striker" "Hammarby"
            "https://img.example/7.png" (1 # 4) 12 3 40 9500 true false 1000).
Proof.
  unfold strikerAfterSync.
  refine (eq_trans
            (syncElements_upserts_sent_columns (worldWithCatalog 1000 [striker])
               (gameInRound (Some 5) (Some "CurrentOpen") None)
               (tablesWithElement (storedStriker true)) [striker] 0%nat striker
               _ _ _ _) _).
  - reflexivity.
  - reflexivity.
  - intros [|j'] el' Hl _; [reflexivity | discriminate].
  - reflexivity.
  - reflexivity.
Defined.

(** C8, as stated, fails: the same upstream element synced over a row that
    was flagged injured and over a row that was not leaves two different
    rows, so the flag of the stored row is left over from before the
    sync. *)
Lemma syncElements_upserts_sent_columns_counterexample :
  catalogFetched (worldWithCatalog 1000 [striker]) = Some [striker]
  /\ is_injured <$> strikerAfterSync (storedStriker true) = Some true
  /\ is_injured <$> strikerAfterSync (storedStriker false) = Some false
  /\ strikerAfterSync (storedStriker true) <> strikerAfterSync (storedStriker false).
Proof.
  split; [reflexivity|]. split; [vm_compute; reflexivity|].
  split; [vm_compute; reflexivity|].
  vm_compute. discriminate.
Qed.

End CatalogClaims.

(** ** One run of a game sync *)

Section SyncRun.

Import SwushClient SyncService.

Local Ltac run_monad :=
  unfold mbind, M_bind, bind, mret, M_ret, ret, write, emit, modify, read;
  unfold mbind, M_bind, bind, mret, M_ret, ret.

Lemma staysIn_ret {A} p (a : A) : staysIn p (mret a).
Proof. intros t. split; [reflexivity | constructor]. Qed.

Lemma staysIn_bind {A B} p (c : M A) (k : A -> M B) :
  staysIn p c -> (forall a, staysIn p (k a)) -> staysIn p (c ≫= k).
Proof.
  intros Hc Hk t. unfold mbind, M_bind, bind.
  destruct (Hc t) as [Hl He]. destruct (c t) as [[a t1] e1].
  destruct (Hk a t1) as [Hl' He']. destruct (k a t1) as [[b t2] e2].
  unfold tablesOf, effectsOf in *. cbn [fst snd] in *.
  split; [congruence | apply Forall_app; split; assumption].
Qed.

Lemma staysIn_emit p e : inPhase p e = true -> staysIn p (emit e).
Proof. intros H t. split; [reflexivity | repeat constructor; exact H]. Qed.

Lemma staysIn_write p w s f :
  inPhase p (Sql s) = true ->
  (forall t, sync_logs (f t) = sync_logs t) ->
  staysIn p (write w s f).
Proof.
  intros Hs Hf. unfold write.
  apply staysIn_bind; [apply staysIn_emit; exact Hs|]. intros _.
  destruct (sql_error w s); [apply staysIn_ret|].
  apply staysIn_bind; [|intros; apply staysIn_ret].
  intros t. split; [apply Hf | constructor].
Qed.

Lemma syncGameDetails_staysIn w game : staysIn Metadata (syncGameDetails w game).
Proof.
  unfold syncGameDetails.
  apply staysIn_bind; [apply staysIn_emit; reflexivity|]. intros _.
  destruct (data (getGame (game_endpoint w))); [|apply staysIn_ret].
  destruct (fetchFailed _); [apply staysIn_ret|].
  apply staysIn_bind; [|intros; apply staysIn_ret].
  apply staysIn_write; reflexivity.
Qed.

Lemma upsertBatches_staysIn w game els fuel :
  forall i s, staysIn Catalog (upsertBatches w game els fuel i s).
Proof.
  induction fuel as [|fuel IH]; intros i s; [apply staysIn_ret|].
  cbn [upsertBatches]. destruct (i <? length els)%nat; [|apply staysIn_ret].
  apply staysIn_bind; [apply staysIn_write; reflexivity|].
  intros [err|]; apply IH.
Qed.

Lemma syncElements_staysIn w game : staysIn Catalog (syncElements w game).
Proof.
  unfold syncElements.
  apply staysIn_bind; [apply staysIn_emit; reflexivity|]. intros _.
  destruct (data (getElements (elements_endpoint w))); [|apply staysIn_ret].
  destruct (fetchFailed _); [apply staysIn_ret|].
  apply staysIn_bind; [apply upsertBatches_staysIn | intros; apply staysIn_ret].
Qed.

Lemma fetchUsersPage_staysIn w game p : staysIn Users (fetchUsersPage w game p).
Proof.
  unfold fetchUsersPage. destruct (getUsers (users_endpoint w p)) as [r evs].
  apply staysIn_bind; [apply staysIn_emit; reflexivity | intros; apply staysIn_ret].
Qed.

Lemma saveUsersPage_staysIn w game us p : staysIn Users (saveUsersPage w game us p).
Proof.
  unfold saveUsersPage. destruct (_ =? _)%nat; [apply staysIn_ret|].
  apply staysIn_bind; [apply staysIn_write; reflexivity | intros; apply staysIn_ret].
Qed.

Lemma fetchAndSave_staysIn w game todo :
  forall acc, staysIn Users (fetchAndSave w game todo acc).
Proof.
  induction todo as [|p rest IH]; intros acc; [apply staysIn_ret|].
  cbn [fetchAndSave].
  apply staysIn_bind; [apply fetchUsersPage_staysIn|]. intros r.
  destruct (data r); [|apply IH].
  destruct (fetchFailed r); [apply IH|].
  apply staysIn_bind; [apply saveUsersPage_staysIn|]. intros pr.
  apply staysIn_bind; [apply staysIn_emit; reflexivity|]. intros _. apply IH.
Qed.

Lemma syncUsers_staysIn w game : staysIn Users (syncUsers w game).
Proof.
  unfold syncUsers.
  apply staysIn_bind; [apply fetchUsersPage_staysIn|]. intros r.
  destruct (data r); [|apply staysIn_ret].
  destruct (fetchFailed r); [apply staysIn_ret|].
  apply staysIn_bind; [apply saveUsersPage_staysIn|]. intros pr.
  apply staysIn_bind; [apply fetchAndSave_staysIn|]. intros acc.
  destruct (js_gt _ _); apply staysIn_ret.
Qed.

Lemma other_phase_absent p q l :
  p <> q ->
  Forall (fun e => inPhase p e = true) l ->
  List.filter (inPhase q) l = [].
Proof.
  intros Hpq Hl. induction Hl as [|e l He _ IH]; [reflexivity|].
  cbn [List.filter]. rewrite IH.
  replace (inPhase q e) with false; [reflexivity|].
  unfold inPhase in *. destruct (phaseOf e) as [[| |]|], p, q; congruence.
Qed.

End SyncRun.

Section SyncGameClaims.

Import SwushClient SyncService.

Local Ltac run_monad :=
  unfold mbind, M_bind, bind, mret, M_ret, ret, write, emit, modify, read;
  unfold mbind, M_bind, bind, mret, M_ret, ret.

(** The [catch] block, the store accepting the update of the log row. *)
Lemma syncFailed_run w game logId msg t :
  sql_error w (UpdateSyncLog logId) = None ->
  syncFailed w game (Some logId) msg t
  = (failure msg,
     set_sync_logs
       (alter (applySyncLogUpdates
                 (mkSyncLogUpdates (Some failed) None None (Some msg) (Some (now w))))
          logId) t,
     [Sql (UpdateSyncLog logId); AlertSyncFailure (failureAlert w game msg)]).
Proof.
  intros Hu. unfold syncFailed, updateSyncLog, AlertService.alertSyncFailure.
  run_monad. rewrite Hu. reflexivity.
Qed.

(** C5.  [syncGame] creates the SyncLog row and then runs the metadata,
    the catalog and the user phase in this order.  When a phase fails no
    later phase runs, the SyncLog row is finalized as failed with the error
    message of the phase, the alert service is called with the key and name
    of the game, that message and the [last_synced_at] that the game had,
    and the failure goes back to the caller.  When all three succeed the row
    is finalized as completed with the element and user counts.  (The store
    accepts the insert and the update of the row.) *)
Theorem syncGame_phases w game syncType t :
  sql_error w InsertSyncLog = None ->
  sql_error w (UpdateSyncLog (new_sync_log_id w)) = None ->
  let logId := new_sync_log_id w in
  let meta :=
    syncGameDetails w game (set_sync_logs (insert logId (startedLog w game syncType)) t) in
  let catalog := syncElements w game (tablesOf meta) in
  let usersRun := syncUsers w game (tablesOf catalog) in
  let run := syncGame w game syncType t in
  Forall (fun e => inPhase Metadata e = true) (effectsOf meta)
  /\ Forall (fun e => inPhase Catalog e = true) (effectsOf catalog)
  /\ Forall (fun e => inPhase Users e = true) (effectsOf usersRun)
  /\ (success (resultOf meta) = false ->
      resultOf run = failure (thrownMessage (sync_error (resultOf meta)))
      /\ effectsOf run
         = Sql InsertSyncLog :: effectsOf meta
           ++ [Sql (UpdateSyncLog logId);
               AlertSyncFailure
                 (failureAlert w game (thrownMessage (sync_error (resultOf meta))))]
      /\ List.filter (inPhase Catalog) (effectsOf run) = []
      /\ List.filter (inPhase Users) (effectsOf run) = []
      /\ sync_logs (tablesOf run) !! logId
         = Some (failedLog w game syncType (thrownMessage (sync_error (resultOf meta)))))
  /\ (success (resultOf meta) = true ->
      success (resultOf catalog) = false ->
      resultOf run = failure (thrownMessage (sync_error (resultOf catalog)))
      /\ effectsOf run
         = Sql InsertSyncLog :: effectsOf meta ++ effectsOf catalog
           ++ [Sql (UpdateSyncLog logId);
               AlertSyncFailure
                 (failureAlert w game (thrownMessage (sync_error (resultOf catalog))))]
      /\ List.filter (inPhase Users) (effectsOf run) = []
      /\ sync_logs (tablesOf run) !! logId
         = Some (failedLog w game syncType
                   (thrownMessage (sync_error (resultOf catalog)))))
  /\ (success (resultOf meta) = true ->
      success (resultOf catalog) = true ->
      success (resultOf usersRun) = false ->
      resultOf run = failure (thrownMessage (sync_error (resultOf usersRun)))
      /\ effectsOf run
         = Sql InsertSyncLog :: effectsOf meta ++ effectsOf catalog ++ effectsOf usersRun
           ++ [Sql (UpdateSyncLog logId);
               AlertSyncFailure
                 (failureAlert w game (thrownMessage (sync_error (resultOf usersRun))))]
      /\ sync_logs (tablesOf run) !! logId
         = Some (failedLog w game syncType
                   (thrownMessage (sync_error (resultOf usersRun)))))
  /\ (success (resultOf meta) = true ->
      success (resultOf catalog) = true ->
      success (resultOf usersRun) = true ->
      resultOf run
      = mkSyncResult true (Some 1) (elementsSynced (resultOf catalog))
          (usersSynced (resultOf usersRun)) None
      /\ effectsOf run
         = Sql InsertSyncLog :: effectsOf meta ++ effectsOf catalog ++ effectsOf usersRun
           ++ [Sql (UpdateSyncLog logId)]
      /\ sync_logs (tablesOf run) !! logId
         = Some (completedLog w game syncType
                   (num_or (usersSynced (resultOf usersRun)) 0)
                   (num_or (elementsSynced (resultOf catalog)) 0))).
Proof.
  intros Hins Hupd logId meta catalog usersRun run. subst logId.
  pose proof (syncGameDetails_staysIn w game
                (set_sync_logs (insert (new_sync_log_id w) (startedLog w game syncType)) t)) as [Lm Em].
  pose proof (syncElements_staysIn w game (tablesOf meta)) as [Lc Ec].
  pose proof (syncUsers_staysIn w game (tablesOf catalog)) as [Lu Eu].
  fold meta in Lm, Em. fold catalog in Lc, Ec. fold usersRun in Lu, Eu.
  split; [exact Em|]. split; [exact Ec|]. split; [exact Eu|].
  assert (Hrun : run =
    let '(rg, t1, e1) := meta in
    if negb (success rg) then
      let '(r, t', e') := syncFailed w game (Some (new_sync_log_id w)) (thrownMessage (sync_error rg)) t1 in
      (r, t', Sql InsertSyncLog :: e1 ++ e')
    else
      let '(re, t2, e2) := syncElements w game t1 in
      if negb (success re) then
        let '(r, t', e') := syncFailed w game (Some (new_sync_log_id w)) (thrownMessage (sync_error re)) t2 in
        (r, t', Sql InsertSyncLog :: e1 ++ e2 ++ e')
      else
        let '(ru, t3, e3) := syncUsers w game t2 in
        if negb (success ru) then
          let '(r, t', e') :=
            syncFailed w game (Some (new_sync_log_id w)) (thrownMessage (sync_error ru)) t3 in
          (r, t', Sql InsertSyncLog :: e1 ++ e2 ++ e3 ++ e')
        else
          (mkSyncResult true (Some 1) (elementsSynced re) (usersSynced ru) None,
           set_sync_logs
             (alter (applySyncLogUpdates
                       (mkSyncLogUpdates (Some completed) (Some (num_or (usersSynced ru) 0))
                          (Some (num_or (elementsSynced re) 0)) None (Some (now w))))
                (new_sync_log_id w)) t3,
           Sql InsertSyncLog :: e1 ++ e2 ++ e3 ++ [Sql (UpdateSyncLog (new_sync_log_id w))])).
  { subst run meta. unfold syncGame, createSyncLog.
    unfold mbind at 1 2, M_bind at 1 2, bind at 1 2, write.
    unfold mbind at 1 2, M_bind at 1 2, bind at 1 2, emit, modify, mret, M_ret, ret.
    rewrite Hins. cbn [fst snd app]. unfold startedLog.
    unfold mbind at 1, M_bind at 1, bind at 1.
    destruct (syncGameDetails w game _) as [[rg t1] e1].
    destruct (negb (success rg)).
    { destruct (syncFailed w game (Some (new_sync_log_id w)) _ t1) as [[r t'] e']. reflexivity. }
    unfold mbind at 1, M_bind at 1, bind at 1.
    destruct (syncElements w game t1) as [[re t2] e2].
    destruct (negb (success re)).
    { destruct (syncFailed w game (Some (new_sync_log_id w)) _ t2) as [[r t'] e']. reflexivity. }
    unfold mbind at 1, M_bind at 1, bind at 1.
    destruct (syncUsers w game t2) as [[ru t3] e3].
    destruct (negb (success ru)).
    { destruct (syncFailed w game (Some (new_sync_log_id w)) _ t3) as [[r t'] e']. reflexivity. }
    unfold updateSyncLog. run_monad. rewrite Hupd. cbn [fst snd app].
    reflexivity. }
  clearbody run. subst run.
  assert (Hrow : forall u tbls,
             sync_logs tbls = <[(new_sync_log_id w) := startedLog w game syncType]> (sync_logs t) ->
             sync_logs (set_sync_logs (alter (applySyncLogUpdates u) (new_sync_log_id w)) tbls) !! (new_sync_log_id w)
             = Some (applySyncLogUpdates u (startedLog w game syncType))).
  { intros u tbls H. cbn [sync_logs set_sync_logs]. rewrite H.
    rewrite lookup_alter_eq, lookup_insert_eq. reflexivity. }
  subst usersRun catalog.
  destruct meta as [[rg t1] e1].
  unfold resultOf, tablesOf, effectsOf in *. cbn [fst snd] in *.
  destruct (syncElements w game t1) as [[re t2] e2]. cbn [fst snd] in *.
  destruct (syncUsers w game t2) as [[ru t3] e3]. cbn [fst snd] in *.
  cbn [sync_logs set_sync_logs] in Lm.
  split; [|split; [|split]].
  - intros Hg. rewrite Hg. cbn [negb].
    rewrite (syncFailed_run _ _ _ _ _ Hupd). cbn [fst snd].
    repeat split.
    + cbn [List.filter inPhase phaseOf]. rewrite List.filter_app.
      rewrite (other_phase_absent Metadata Catalog e1 ltac:(discriminate) Em). reflexivity.
    + cbn [List.filter inPhase phaseOf]. rewrite List.filter_app.
      rewrite (other_phase_absent Metadata Users e1 ltac:(discriminate) Em). reflexivity.
    + rewrite (Hrow _ t1 Lm). reflexivity.
  - intros Hg Hc. rewrite Hg, Hc. cbn [negb].
    rewrite (syncFailed_run _ _ _ _ _ Hupd). cbn [fst snd].
    repeat split.
    + cbn [List.filter inPhase phaseOf]. rewrite !List.filter_app.
      rewrite (other_phase_absent Metadata Users e1 ltac:(discriminate) Em).
      rewrite (other_phase_absent Catalog Users e2 ltac:(discriminate) Ec). reflexivity.
    + rewrite (Hrow _ t2 ltac:(congruence)). reflexivity.
  - intros Hg Hc Hu. rewrite Hg, Hc, Hu. cbn [negb].
    rewrite (syncFailed_run _ _ _ _ _ Hupd). cbn [fst snd].
    repeat split.
    rewrite (Hrow _ t3 ltac:(congruence)). reflexivity.
  - intros Hg Hc Hu. rewrite Hg, Hc, Hu. cbn [negb fst snd].
    repeat split.
    rewrite (Hrow _ t3 ltac:(congruence)). reflexivity.
Qed.

End SyncGameClaims.

Section SyncGameExamples.

Import SwushClient SyncService.

Lemma syncGame_phases_witness :
  resultOf (syncGame (worldAt 0) (gameInRound (Some 5) (Some "CurrentOpen") None)
              manual emptyTables)
  = failure "Unknown error occurred"
  /\ sync_logs (tablesOf (syncGame (worldServing 3 [] [striker])
                            (gameInRound (Some 5) (Some "CurrentOpen") None)
                            scheduled emptyTables)) !! "log-1"
     = Some (completedLog (worldServing 3 [] [striker])
               (gameInRound (Some 5) (Some "CurrentOpen") None) scheduled 6 1).
Proof.
  split.
  - destruct (syncGame_phases (worldAt 0) (gameInRound (Some 5) (Some "CurrentOpen") None)
                manual emptyTables eq_refl eq_refl) as (_ & _ & _ & H & _).
    destruct H as (H & _); [reflexivity|]. exact H.
  - destruct (syncGame_phases (worldServing 3 [] [striker])
                (gameInRound (Some 5) (Some "CurrentOpen") None)
                scheduled emptyTables eq_refl eq_refl) as (_ & _ & _ & _ & _ & _ & H).
    destruct H as (_ & _ & H); [vm_compute; reflexivity ..|].
    refine (eq_trans H _). vm_compute. reflexivity.
Defined.

End SyncGameExamples.

Section RetryExamples.

Import SwushClient.

Lemma getUsers_retry_policy_witness :
  (data <$> fst (getUsers flakyUsers))
  = Some (Some (mkSwushUsersResponse 2 1 1 10 [someUser 2; someUser 3]))
  /\ delays (snd (getUsers flakyUsers)) = [1000; 2000; 4000].
Proof.
  destruct (getUsers_retry_policy flakyUsers) as (_ & H & _).
  destruct (H 4 (mkSwushUsersResponse 2 1 1 10 [someUser 2; someUser 3]))
    as (Hr & Hd & He).
  - lia.
  - intros i Hi.
    assert (i = 1 \/ i = 2 \/ i = 3) as [-> | [-> | ->]] by lia; reflexivity.
  - reflexivity.
  - rewrite Hr, He. cbn [fmap option_fmap option_map]. rewrite Hd.
    split; reflexivity.
Defined.

End RetryExamples.

(** * Further properties of the services *)

(** ** Triggers: the watermark over several evaluations *)

Section TriggerWatermark.

Import BrazeTriggerService.

(** The fire condition looks at a trigger only through its type and through
    the comparison of its watermark with the current round. *)
Lemma fires_by_watermark w game trigger trigger' :
  trigger_type trigger' = trigger_type trigger ->
  opt_Z_eqb (last_triggered_round trigger') (current_round game)
  = opt_Z_eqb (last_triggered_round trigger) (current_round game) ->
  fires w game trigger' = fires w game trigger.
Proof.
  intros Hty Heq. unfold fires, checkTrigger. rewrite Hty.
  destruct (trigger_type trigger);
    unfold checkDeadlineReminder24h, checkRoundStarted, checkRoundEnded;
    rewrite Heq; reflexivity.
Qed.

Lemma watermark_blocks w game trigger :
  last_triggered_round trigger = current_round game ->
  fires w game trigger = false.
Proof.
  intros Heq. apply opt_Z_eqb_eq in Heq.
  unfold fires, checkTrigger.
  destruct (trigger_type trigger);
    unfold checkDeadlineReminder24h, checkRoundStarted, checkRoundEnded; rewrite Heq.
  - destruct (next_trade_deadline game); [|reflexivity].
    destruct (_ || _); reflexivity.
  - destruct (negb _); reflexivity.
  - destruct (_ && _); reflexivity.
Qed.

(** Once a trigger has fired for round [r] (a round other than 0) with a
    successful dispatch and the store has taken the watermark, the stored
    trigger does not fire again while the game stays in round [r], whatever
    the clock reads: the next evaluation sends nothing and writes
    nothing. *)
Theorem processTrigger_at_most_once_per_round w w' game trigger t t' r :
  fires w game trigger = true ->
  current_round game = Some r ->
  r <> 0 ->
  sent (dispatch w game trigger) = true ->
  sql_error w (UpdateGameTrigger (trigger_id trigger)) = None ->
  game_triggers t !! trigger_id trigger = Some trigger ->
  exists stored,
    game_triggers (tablesOf (processTrigger w game trigger t)) !! trigger_id trigger
    = Some stored
    /\ last_triggered_round stored = Some r
    /\ fires w' game stored = false
    /\ tablesOf (processTrigger w' game stored t') = t'
    /\ effectsOf (processTrigger w' game stored t') = [].
Proof.
  intros Hf Hr Hr0 Hs Hu Hrow.
  assert (Hround : num_or (current_round game) 1 = r).
  { rewrite Hr. cbn. destruct (r =? 0) eqn:E; [lia | reflexivity]. }
  exists (advanced w r trigger).
  assert (Hblock : fires w' game (advanced w r trigger) = false)
    by (apply watermark_blocks; rewrite Hr; reflexivity).
  split; [|split; [reflexivity|split; [exact Hblock|]]].
  - rewrite (processTrigger_fire _ _ _ _ Hf). cbv zeta. rewrite Hs, Hu, Hround.
    unfold tablesOf. cbn [fst snd].
    destruct (sql_error w (InsertTriggerLog (trigger_id trigger)));
      cbn [game_triggers set_game_triggers set_trigger_logs];
      rewrite lookup_alter_eq, Hrow; reflexivity.
  - rewrite (processTrigger_skip _ _ _ _ Hblock). auto.
Qed.

Lemma processTrigger_at_most_once_per_round_witness :
  exists stored,
    game_triggers
      (tablesOf (processTrigger (worldWithBraze 0 brazeAccepts)
                   (gameInRound (Some 6) (Some "CurrentOpen") None)
                   (triggerOf round_started (Some 5))
                   (tablesWith (triggerOf round_started (Some 5))))) !! "trigger-1"
    = Some stored
    /\ fires (worldWithBraze (hours 1) brazeAccepts)
         (gameInRound (Some 6) (Some "CurrentOpen") None) stored = false.
Proof.
  destruct (processTrigger_at_most_once_per_round
              (worldWithBraze 0 brazeAccepts) (worldWithBraze (hours 1) brazeAccepts)
              (gameInRound (Some 6) (Some "CurrentOpen") None)
              (triggerOf round_started (Some 5))
              (tablesWith (triggerOf round_started (Some 5))) emptyTables 6)
    as (stored & Hrow & _ & Hf & _).
  - reflexivity.
  - reflexivity.
  - discriminate.
  - reflexivity.
  - reflexivity.
  - reflexivity.
  - exists stored. split; [exact Hrow | exact Hf].
Defined.

(** Before the first round the watermark does not hold the trigger back:
    when [current_round] is null or 0, a trigger that fired with a
    successful dispatch is stored with watermark 1 and fires again at the
    next evaluation (for the deadline reminder, while the deadline is still
    20 to 28 hours away). *)
Theorem processTrigger_refires_in_round_0 w w' game trigger t :
  fires w game trigger = true ->
  current_round game = None \/ current_round game = Some 0 ->
  sent (dispatch w game trigger) = true ->
  sql_error w (UpdateGameTrigger (trigger_id trigger)) = None ->
  game_triggers t !! trigger_id trigger = Some trigger ->
  (trigger_type trigger = deadline_reminder_24h ->
   exists deadline, next_trade_deadline game = Some deadline
     /\ 20 <= differenceInHours deadline (now w') <= 28) ->
  exists stored,
    game_triggers (tablesOf (processTrigger w game trigger t)) !! trigger_id trigger
    = Some stored
    /\ last_triggered_round stored = Some 1
    /\ fires w' game stored = true.
Proof.
  intros Hf Hr Hs Hu Hrow Hwin.
  assert (Hround : num_or (current_round game) 1 = 1)
    by (destruct Hr as [-> | ->]; reflexivity).
  exists (advanced w 1 trigger).
  split; [|split; [reflexivity|]].
  - rewrite (processTrigger_fire _ _ _ _ Hf). cbv zeta. rewrite Hs, Hu, Hround.
    unfold tablesOf. cbn [fst snd].
    destruct (sql_error w (InsertTriggerLog (trigger_id trigger)));
      cbn [game_triggers set_game_triggers set_trigger_logs];
      rewrite lookup_alter_eq, Hrow; reflexivity.
  - apply (fires_again w w' game (advanced w 1 trigger)); [|exact Hwin].
    rewrite <- Hf. apply fires_by_watermark; [reflexivity|].
    cbn [last_triggered_round advanced].
    assert (Hne : opt_Z_eqb (last_triggered_round trigger) (current_round game) = false).
    { destruct (opt_Z_eqb (last_triggered_round trigger) (current_round game)) eqn:E;
        [|reflexivity].
      apply opt_Z_eqb_eq in E. rewrite (watermark_blocks w game trigger E) in Hf.
      discriminate. }
    rewrite Hne. destruct Hr as [-> | ->]; reflexivity.
Qed.

Lemma processTrigger_refires_in_round_0_witness :
  exists stored,
    game_triggers
      (tablesOf (processTrigger (worldWithBraze 0 brazeAccepts)
                   (gameInRound (Some 0) (Some "CurrentOpen") None)
                   (triggerOf round_started None)
                   (tablesWith (triggerOf round_started None)))) !! "trigger-1"
    = Some stored
    /\ fires (worldWithBraze (hours 1) brazeAccepts)
         (gameInRound (Some 0) (Some "CurrentOpen") None) stored = true.
Proof.
  destruct (processTrigger_refires_in_round_0
              (worldWithBraze 0 brazeAccepts) (worldWithBraze (hours 1) brazeAccepts)
              (gameInRound (Some 0) (Some "CurrentOpen") None)
              (triggerOf round_started None)
              (tablesWith (triggerOf round_started None)))
    as (stored & Hrow & _ & Hf).
  - reflexivity.
  - right. reflexivity.
  - reflexivity.
  - reflexivity.
  - reflexivity.
  - discriminate.
  - exists stored. split; [exact Hrow | exact Hf].
Defined.

End TriggerWatermark.

(** ** Triggers: fire conditions on the round state, and runs without
    credentials *)

Section TriggerRuns.

Import BrazeTriggerService.

Lemma round_state_is_eq game s :
  round_state_is game s = true <-> round_state game = Some s.
Proof.
  unfold round_state_is. destruct (round_state game) as [r|].
  - rewrite String.eqb_eq. split; [intros -> | intros [= ->]]; reflexivity.
  - split; discriminate.
Qed.

Lemma opt_Z_eqb_false (a b : option Z) : opt_Z_eqb a b = false <-> a <> b.
Proof.
  rewrite <- opt_Z_eqb_eq. destruct (opt_Z_eqb a b); split; congruence.
Qed.

(** The round_started trigger fires exactly when the stored round state is
    CurrentOpen and the watermark differs from the current round; the
    round_ended trigger fires exactly when the state is Ended or
    EndedLastest (the spelling of the partner API) and the watermark differs.
    The two never fire for the same game state, and a state spelled
    EndedLatest fires neither. *)
Theorem round_triggers_fire_iff w game trigger :
  (trigger_type trigger = round_started ->
   (fires w game trigger = true
    <-> round_state game = Some "CurrentOpen"
        /\ last_triggered_round trigger <> current_round game))
  /\ (trigger_type trigger = round_ended ->
      (fires w game trigger = true
       <-> (round_state game = Some "Ended" \/ round_state game = Some "EndedLastest")
           /\ last_triggered_round trigger <> current_round game))
  /\ (forall started ended,
        trigger_type started = round_started ->
        trigger_type ended = round_ended ->
        fires w game started = true -> fires w game ended = false)
  /\ (round_state game = Some "EndedLatest" ->
      trigger_type trigger <> deadline_reminder_24h ->
      fires w game trigger = false).
Proof.
  assert (Hstarted : forall tr, trigger_type tr = round_started ->
            (fires w game tr = true
             <-> round_state game = Some "CurrentOpen"
                 /\ last_triggered_round tr <> current_round game)).
  { intros tr Hty. unfold fires, checkTrigger, checkRoundStarted. rewrite Hty.
    rewrite <- round_state_is_eq, <- opt_Z_eqb_false.
    destruct (round_state_is game "CurrentOpen"); cbn;
      [destruct (opt_Z_eqb _ _); cbn|]; intuition congruence. }
  assert (Hended : forall tr, trigger_type tr = round_ended ->
            (fires w game tr = true
             <-> (round_state game = Some "Ended" \/ round_state game = Some "EndedLastest")
                 /\ last_triggered_round tr <> current_round game)).
  { intros tr Hty. unfold fires, checkTrigger, checkRoundEnded. rewrite Hty.
    rewrite <- !round_state_is_eq, <- opt_Z_eqb_false.
    destruct (round_state_is game "Ended"), (round_state_is game "EndedLastest"); cbn;
      try (destruct (opt_Z_eqb _ _); cbn); intuition congruence. }
  split; [apply Hstarted|]. split; [apply Hended|]. split.
  - intros started ended Hs He Hf.
    apply Hstarted in Hf; [|exact Hs]. destruct Hf as [Hst _].
    apply not_true_is_false. intros Hf'.
    apply Hended in Hf'; [|exact He]. destruct Hf' as [[H | H] _]; congruence.
  - intros Hst Hty. apply not_true_is_false. intros Hf.
    destruct (trigger_type trigger) eqn:E; [congruence| |].
    + apply Hstarted in Hf; [|exact E]. destruct Hf as [H _]. congruence.
    + apply Hended in Hf; [|exact E]. destruct Hf as [[H | H] _]; congruence.
Qed.

(** Without credentials of the campaign system a trigger that fires is
    handled as a successful send: no HTTP request leaves, yet the TriggerLog
    row says 'triggered' (its response being the note that the send was
    skipped), the watermark moves, and the result counts as triggered. *)
Theorem processTrigger_without_credentials w game trigger t :
  hasCredentials w = false ->
  fires w game trigger = true ->
  sql_error w (InsertTriggerLog (trigger_id trigger)) = None ->
  sql_error w (UpdateGameTrigger (trigger_id trigger)) = None ->
  effectsOf (processTrigger w game trigger t)
  = [Sql (InsertTriggerLog (trigger_id trigger)); Sql (UpdateGameTrigger (trigger_id trigger))]
  /\ trigger_logs (tablesOf (processTrigger w game trigger t))
     = trigger_logs t
       ++ [mkTriggerLog (game_id game) (trigger_id trigger)
             (trigger_type_name (trigger_type trigger)) (num_or (current_round game) 1)
             Triggered
             (Some (mkBrazeApiResponse None (Some "Skipped - no Braze credentials") None))
             None]
  /\ game_triggers (tablesOf (processTrigger w game trigger t))
     = alter (advanced w (num_or (current_round game) 1)) (trigger_id trigger)
         (game_triggers t)
  /\ success (resultOf (processTrigger w game trigger t)) = true
  /\ triggered (resultOf (processTrigger w game trigger t)) = true.
Proof.
  intros Hc Hf Hi Hu.
  assert (Hd : dispatch w game trigger
               = mkSendResult true
                   (Some (mkBrazeApiResponse None (Some "Skipped - no Braze credentials") None))
                   None
               /\ dispatchEffects w game trigger = []).
  { unfold dispatch, dispatchEffects, triggerBrazeCampaign.
    apply hasCredentials_false in Hc. rewrite Hc. split; reflexivity. }
  destruct Hd as [Hd He].
  rewrite (processTrigger_fire _ _ _ _ Hf). cbv zeta. rewrite Hi, Hu, Hd, He.
  cbn. auto.
Qed.

Lemma processTrigger_without_credentials_witness :
  effectsOf (processTrigger (worldAt 0) (gameInRound (Some 6) (Some "CurrentOpen") None)
               (triggerOf round_started (Some 5))
               (tablesWith (triggerOf round_started (Some 5))))
  = [Sql (InsertTriggerLog "trigger-1"); Sql (UpdateGameTrigger "trigger-1")].
Proof.
  destruct (processTrigger_without_credentials (worldAt 0)
              (gameInRound (Some 6) (Some "CurrentOpen") None)
              (triggerOf round_started (Some 5))
              (tablesWith (triggerOf round_started (Some 5)))) as (H & _).
  - reflexivity.
  - reflexivity.
  - reflexivity.
  - reflexivity.
  - exact H.
Defined.

End TriggerRuns.

(** ** Triggers: all triggers of a game *)

Section GameTriggers.

Import BrazeTriggerService.

Lemma processTrigger_concerns w game tr t :
  Forall (fun e => concerns tr e = true) (effectsOf (processTrigger w game tr t)).
Proof.
  destruct (fires w game tr) eqn:Hf.
  - rewrite (processTrigger_fire _ _ _ _ Hf). cbv zeta. unfold effectsOf. cbn [snd].
    apply Forall_app. split.
    + unfold dispatchEffects, triggerBrazeCampaign.
      destruct (String.eqb (brazeApiUrl w) "" || String.eqb (brazeApiKey w) "").
      * constructor.
      * unfold mbind, M_bind, bind, mret, M_ret, ret, emit. cbn.
        repeat constructor. apply String.eqb_refl.
    + constructor; [cbn; apply String.eqb_refl|].
      destruct (sent (dispatch w game tr)); repeat constructor.
      cbn. apply String.eqb_refl.
  - rewrite (processTrigger_skip _ _ _ _ Hf). constructor.
Qed.

Lemma forEach_processTrigger w game l :
  forall t,
    length (resultOf (forEach (processTrigger w game) l t)) = length l
    /\ Forall (fun e => exists tr, In tr l /\ concerns tr e = true)
         (effectsOf (forEach (processTrigger w game) l t)).
Proof.
  induction l as [|tr l IH]; intros t.
  - split; [reflexivity | constructor].
  - cbn [forEach]. unfold mbind, M_bind, bind, mret, M_ret, ret.
    pose proof (processTrigger_concerns w game tr t) as Hc.
    destruct (processTrigger w game tr t) as [[b t1] e1].
    destruct (IH t1) as [Hlen Heff].
    destruct (forEach (processTrigger w game) l t1) as [[bs t2] e2].
    unfold resultOf, effectsOf in *. cbn [fst snd length] in *.
    split; [congruence|].
    apply Forall_app. split.
    + eapply Forall_impl; [exact Hc|].
      intros e He. exists tr. split; [left; reflexivity | exact He].
    + rewrite app_nil_r. eapply Forall_impl; [exact Heff|].
      intros e (tr' & Hin & He). exists tr'. split; [right; exact Hin | exact He].
Qed.

(** [processGameTriggers] evaluates the active triggers of the game and no
    others: it gives one result per such trigger, and every campaign
    request, TriggerLog insert and watermark update that it makes belongs to
    a trigger that is active and belongs to this game.  When the triggers
    cannot be read it gives no result and changes nothing. *)
Theorem processGameTriggers_scope w game t :
  (forall err,
      sql_error w (SelectActiveTriggers (game_id game)) = Some err ->
      processGameTriggers w game t = ([], t, [Sql (SelectActiveTriggers (game_id game))]))
  /\ (sql_error w (SelectActiveTriggers (game_id game)) = None ->
      length (resultOf (processGameTriggers w game t)) = length (activeTriggersOf game t)
      /\ (forall e,
            In e (effectsOf (processGameTriggers w game t)) ->
            e = Sql (SelectActiveTriggers (game_id game))
            \/ exists k tr,
                 game_triggers t !! k = Some tr
                 /\ trigger_is_active tr = true
                 /\ trigger_game_id tr = game_id game
                 /\ concerns tr e = true)).
Proof.
  unfold processGameTriggers.
  unfold mbind, M_bind, bind, mret, M_ret, ret, emit, read.
  split.
  - intros err ->. reflexivity.
  - intros ->. fold (activeTriggersOf game t).
    destruct (forEach_processTrigger w game (activeTriggersOf game t) t) as [Hlen Heff].
    destruct (forEach (processTrigger w game) (activeTriggersOf game t) t) as [[rs t2] e2].
    unfold resultOf, effectsOf in *. cbn [fst snd app] in *.
    split; [exact Hlen|].
    intros e [<- | He]; [left; reflexivity | right].
    rewrite Forall_forall in Heff.
    destruct (Heff e (proj2 (list_elem_of_In _ _) He)) as (tr & Hin & Hc).
    unfold activeTriggersOf in Hin.
    apply list_elem_of_In, list_elem_of_filter in Hin. destruct Hin as [Hp Hin].
    apply list_elem_of_fmap in Hin. destruct Hin as ([k tr'] & -> & Hin).
    apply elem_of_map_to_list in Hin.
    apply Is_true_true, andb_true_iff in Hp. destruct Hp as [Hg Ha].
    apply String.eqb_eq in Hg.
    exists k, tr'. auto.
Qed.

End GameTriggers.

(** ** Partner API client: one request, and the retry loop with any budget *)

Section ClientRequests.

Import SwushClient.
Context {T : Type}.

(** What [request] makes of the network: it reports a success exactly for an
    answer in time with a 2xx status and a JSON value, and a failure that is
    not to be retried exactly for an answer in time with a status 4xx other
    than 408 and 429.  A timeout, a transport error and an unreadable body are
    given the statuses 408, 500 and 500, so they are retried; and a response
    never carries both data and an error. *)
Theorem request_outcomes (timeout : Z) (srv : Endpoint T) :
  (succeeded (request timeout srv) = true
   <-> exists st txt d,
         latency srv < timeout /\ settles srv = Resolved st txt (JsonValue d)
         /\ 200 <= st <= 299)
  /\ (nonRetryable (request timeout srv) = true
      <-> exists st txt body,
            latency srv < timeout /\ settles srv = Resolved st txt body
            /\ 400 <= st <= 499 /\ st <> 408 /\ st <> 429)
  /\ (timeout <= latency srv -> status (request timeout srv) = 408)
  /\ (forall e, latency srv < timeout -> settles srv = Thrown e ->
      status (request timeout srv) = 408 \/ status (request timeout srv) = 500)
  /\ (forall st txt, latency srv < timeout -> settles srv = Resolved st txt JsonInvalid ->
      200 <= st <= 299 -> status (request timeout srv) = 500)
  /\ (data (request timeout srv) <> None -> error (request timeout srv) = None).
Proof.
  assert (Hcase :
    (timeout <= latency srv
     /\ request timeout srv
        = mkResponse None (Some ("Request timeout after " +:+ pretty timeout +:+ "ms")) 408)
    \/ (latency srv < timeout
        /\ ((exists st txt body,
               settles srv = Resolved st txt body /\ ~ 200 <= st <= 299
               /\ request timeout srv
                  = mkResponse None (Some ("HTTP " +:+ pretty st +:+ ": " +:+ txt)) st)
            \/ (exists st txt,
                  settles srv = Resolved st txt JsonInvalid /\ 200 <= st <= 299
                  /\ request timeout srv
                     = mkResponse None (Some "Invalid JSON response from SWUSH API") 500)
            \/ (exists st txt,
                  settles srv = Resolved st txt JsonNull /\ 200 <= st <= 299
                  /\ request timeout srv = mkResponse None None st)
            \/ (exists st txt d,
                  settles srv = Resolved st txt (JsonValue d) /\ 200 <= st <= 299
                  /\ request timeout srv = mkResponse (Some d) None st)
            \/ (exists e msg,
                  settles srv = Thrown e
                  /\ (request timeout srv = mkResponse None (Some msg) 408
                      \/ request timeout srv = mkResponse None (Some msg) 500))))).
  { unfold request, fetch.
    destruct (timeout <=? latency srv) eqn:Hl.
    - left. split; [lia | reflexivity].
    - right. split; [lia|].
      destruct (settles srv) as [st txt body | [e|]].
      + unfold Fetch.ok. destruct ((200 <=? st) && (st <=? 299)) eqn:Hok; cbn [negb].
        * destruct body as [| |d].
          -- right. left. exists st, txt. repeat split; lia.
          -- right. right. left. exists st, txt. repeat split; lia.
          -- right. right. right. left. exists st, txt, d. repeat split; lia.
        * left. exists st, txt, body. repeat split; lia.
      + right. right. right. right. exists (Some e).
        destruct (String.eqb (err_name e) "AbortError"); eexists; split; eauto.
      + right. right. right. right. exists None. eexists. split; eauto. }
  unfold succeeded, nonRetryable.
  destruct Hcase as [[Hl ->] | [Hl [ (st & txt & body & Hs & Hst & ->)
                                   | [ (st & txt & Hs & Hst & ->)
                                   | [ (st & txt & Hs & Hst & ->)
                                   | [ (st & txt & d & Hs & Hst & ->)
                                   | (e & msg & Hs & [-> | ->]) ]]]]]];
    cbn [data error status]; rewrite ?Hs;
    (repeat split; intros;
     repeat match goal with
            | H : exists _, _ |- _ => destruct H
            | H : _ /\ _ |- _ => destruct H
            end;
     simplify_eq;
     try discriminate; try lia; try congruence; auto;
     try (do 3 eexists; repeat split; try reflexivity; lia)).
Qed.

End ClientRequests.

Section RetryBudget.

Import SwushClient.
Context {T : Type}.






End RetryBudget.

(** ** The catalog phase as one upsert *)

Section CatalogRuns.

Import SwushClient SyncService.

Lemma upsertElements_app (a b : list ElementColumns) (tbl : gmap (string * Z) Element) :
  upsertElements (a ++ b) tbl = upsertElements b (upsertElements a tbl).
Proof. unfold upsertElements. apply fold_left_app. Qed.

Lemma sameOutsideElements_refl t : sameOutsideElements t t.
Proof. repeat split. Qed.

Lemma upsertBatches_run w game els fuel :
  forall i s t,
    resultOf (upsertBatches w game els fuel i s t)
    = s + Z.of_nat (length (acceptedFrom w els fuel i))
    /\ elements (tablesOf (upsertBatches w game els fuel i s t))
       = upsertElements (map (upsertData w game) (acceptedFrom w els fuel i)) (elements t)
    /\ sameOutsideElements t (tablesOf (upsertBatches w game els fuel i s t)).
Proof.
  induction fuel as [|fuel IH]; intros i s t.
  - cbn. split; [lia|]. split; [reflexivity | apply sameOutsideElements_refl].
  - destruct (Nat.lt_ge_cases i (length els)) as [Hi | Hi].
    + rewrite upsertBatches_step by exact Hi. cbv zeta. cbn [acceptedFrom].
      replace (i <? length els)%nat with true by (symmetry; apply Nat.ltb_lt; exact Hi).
      destruct (sql_error w (UpsertElements (Z.of_nat i))).
      * specialize (IH (i + BATCH_SIZE)%nat s t).
        destruct (upsertBatches w game els fuel (i + BATCH_SIZE)%nat s t) as [[r t2] effs].
        unfold resultOf, tablesOf in *. cbn [fst snd app] in *. exact IH.
      * match goal with
        | |- context [upsertBatches ?a ?b ?c ?d ?e ?f ?g] =>
            specialize (IH e f g); destruct (upsertBatches a b c d e f g) as [[r t2] effs]
        end.
        unfold resultOf, tablesOf in *. cbn [fst snd] in *.
        destruct IH as (Hr & He & Hs).
        rewrite length_app, map_app, upsertElements_app.
        split; [lia|]. split; [exact He|].
        destruct Hs as (? & ? & ? & ? & ?). repeat split; assumption.
    + rewrite upsertBatches_stop by exact Hi. destruct fuel; cbn [acceptedFrom];
        replace (i <? length els)%nat with false by (symmetry; apply Nat.ltb_ge; exact Hi);
        cbn; (split; [lia|]); (split; [reflexivity | apply sameOutsideElements_refl]).
Qed.

Lemma acceptedFrom_all w els fuel :
  (forall i, sql_error w (UpsertElements i) = None) ->
  forall i, (length els <= i + BATCH_SIZE * fuel)%nat -> acceptedFrom w els fuel i = drop i els.
Proof.
  intros Hall. unfold BATCH_SIZE.
  induction fuel as [|fuel IH]; intros i Hlen.
  - cbn. rewrite drop_ge by lia. reflexivity.
  - cbn [acceptedFrom]. unfold BATCH_SIZE. destruct (i <? length els)%nat eqn:Hi.
    + apply Nat.ltb_lt in Hi. rewrite Hall, IH by lia. unfold slice.
      rewrite <- (take_drop 100 (drop i els)) at 2. rewrite drop_drop. reflexivity.
    + apply Nat.ltb_ge in Hi. rewrite drop_ge by lia. reflexivity.
Qed.

Lemma acceptedFrom_none w els fuel :
  (forall i, sql_error w (UpsertElements i) <> None) ->
  forall i, acceptedFrom w els fuel i = [].
Proof.
  intros Hnone. induction fuel as [|fuel IH]; intros i; [reflexivity|].
  cbn [acceptedFrom]. destruct (i <? length els)%nat; [|reflexivity].
  rewrite IH. specialize (Hnone (Z.of_nat i)).
  destruct (sql_error w (UpsertElements (Z.of_nat i))); [reflexivity | congruence].
Qed.

(** The catalog phase after a fetch, as one upsert. *)
Lemma syncElements_run w game t els :
  catalogFetched w = Some els ->
  resultOf (syncElements w game t)
  = mkSyncResult true None (Some (Z.of_nat (length (acceptedElements w els)))) None None
  /\ elements (tablesOf (syncElements w game t))
     = upsertElements (map (upsertData w game) (acceptedElements w els)) (elements t)
  /\ sameOutsideElements t (tablesOf (syncElements w game t)).
Proof.
  intros Hfetch. unfold catalogFetched in Hfetch. unfold syncElements.
  destruct (fetchFailed (getElements (elements_endpoint w))); [discriminate|].
  rewrite Hfetch.
  unfold mbind, M_bind, bind, mret, M_ret, ret, emit.
  destruct (upsertBatches_run w game els (length els) 0%nat 0 t) as (Hr & He & Hs).
  destruct (upsertBatches w game els (length els) 0%nat 0 t) as [[r t2] effs].
  unfold resultOf, tablesOf in *. cbn [fst snd] in *.
  fold (acceptedElements w els) in *.
  split; [rewrite Hr; reflexivity|]. split; [exact He | exact Hs].
Qed.

(** Once the catalog is fetched, [syncElements] does not fail.  The
    [elements] table afterwards is the upsert, in order, of the elements of
    the batches that the store accepted; [elementsSynced] counts exactly
    those; the other tables are left as they were.  With every batch accepted
    these are all the upstream elements; with every batch rejected the sync
    still reports success, with a count of 0 and the table unchanged. *)
Theorem syncElements_accepted_batches w game t els :
  catalogFetched w = Some els ->
  resultOf (syncElements w game t)
  = mkSyncResult true None (Some (Z.of_nat (length (acceptedElements w els)))) None None
  /\ elements (tablesOf (syncElements w game t))
     = upsertElements (map (upsertData w game) (acceptedElements w els)) (elements t)
  /\ sameOutsideElements t (tablesOf (syncElements w game t))
  /\ ((forall i, sql_error w (UpsertElements i) = None) -> acceptedElements w els = els)
  /\ ((forall i, sql_error w (UpsertElements i) <> None) ->
      acceptedElements w els = []
      /\ elements (tablesOf (syncElements w game t)) = elements t).
Proof.
  intros Hfetch. destruct (syncElements_run w game t els Hfetch) as (Hr & He & Hs).
  split; [exact Hr|]. split; [exact He|]. split; [exact Hs|]. split.
  - intros Hall. unfold acceptedElements.
    rewrite (acceptedFrom_all w els (length els) Hall) by (unfold BATCH_SIZE; lia).
    reflexivity.
  - intros Hnone. unfold acceptedElements in *.
    rewrite (acceptedFrom_none w els (length els) Hnone) in *.
    split; [reflexivity | exact He].
Qed.

Lemma syncElements_accepted_batches_witness :
  resultOf (syncElements (worldWithCatalog 1000 [striker])
              (gameInRound (Some 5) (Some "CurrentOpen") None) emptyTables)
  = mkSyncResult true None (Some 1) None None.
Proof.
  destruct (syncElements_accepted_batches (worldWithCatalog 1000 [striker])
              (gameInRound (Some 5) (Some "CurrentOpen") None) emptyTables [striker])
    as (H & _).
  - reflexivity.
  - rewrite H. reflexivity.
Defined.

End CatalogRuns.

Section CatalogIdempotence.

Import SwushClient SyncService.

(** The row of key [k] after an upsert of [cs]: the columns last sent for
    [k], with the flags that the row of [k] had before. *)
Lemma upsertElements_lookup cs :
  forall (tbl : gmap (string * Z) Element) k,
    upsertElements cs tbl !! k
    = match lastFor k cs with
      | Some c => Some (upsertElementRow c (tbl !! k))
      | None => tbl !! k
      end.
Proof.
  induction cs as [|c cs IH]; intros tbl k; [reflexivity|].
  change (upsertElements (c :: cs) tbl) with (upsertElements cs (upsertElement tbl c)).
  rewrite IH. cbn [lastFor]. unfold upsertElement.
  destruct (lastFor k cs) as [c'|].
  - f_equal. fold (columnsKey c).
    destruct (decide (columnsKey c = k)) as [<- | Hne].
    + rewrite lookup_insert_eq. reflexivity.
    + rewrite lookup_insert_ne by exact Hne. reflexivity.
  - fold (columnsKey c). case_bool_decide as Hk.
    + subst k. apply lookup_insert_eq.
    + apply lookup_insert_ne. exact Hk.
Qed.

Lemma upsertElements_idempotent (cs : list ElementColumns) (tbl : gmap (string * Z) Element) :
  upsertElements cs (upsertElements cs tbl) = upsertElements cs tbl.
Proof.
  apply map_eq. intros k. rewrite !upsertElements_lookup.
  destruct (lastFor k cs); reflexivity.
Qed.

Lemma lastFor_upsertData w game k els :
  lastFor k (map (upsertData w game) els) = upsertData w game <$> lastElementFor game k els.
Proof.
  induction els as [|el els IH]; [reflexivity|].
  cbn [map lastFor lastElementFor]. rewrite IH.
  destruct (lastElementFor game k els); [reflexivity|].
  cbn [fmap option_fmap option_map].
  change (columnsKey (upsertData w game el)) with (elementKey game el).
  case_bool_decide; reflexivity.
Qed.

Lemma acceptedFrom_ext w w' els fuel :
  (forall s, sql_error w' s = sql_error w s) ->
  forall i, acceptedFrom w' els fuel i = acceptedFrom w els fuel i.
Proof.
  intros Hsql. induction fuel as [|fuel IH]; intros i; [reflexivity|].
  cbn [acceptedFrom]. rewrite Hsql, IH. reflexivity.
Qed.

(** A catalog sync repeated against the same upstream data and the same
    store behaviour adds no row and changes no column but the time stamp:
    after the second run every row is the row that the first run left, with
    at most its [updated_at] set to the time of the second run.  The count
    reported is the same; and were the two runs to read the same time the
    tables would be equal. *)
Theorem syncElements_idempotent w w' game t els :
  catalogFetched w = Some els ->
  catalogFetched w' = Some els ->
  (forall s, sql_error w' s = sql_error w s) ->
  (forall k,
      elements (tablesOf (syncElements w' game (tablesOf (syncElements w game t)))) !! k
      = elements (tablesOf (syncElements w game t)) !! k
      \/ elements (tablesOf (syncElements w' game (tablesOf (syncElements w game t)))) !! k
         = restamp (now w') <$> elements (tablesOf (syncElements w game t)) !! k)
  /\ resultOf (syncElements w' game (tablesOf (syncElements w game t)))
     = resultOf (syncElements w game t)
  /\ (now w' = now w ->
      elements (tablesOf (syncElements w' game (tablesOf (syncElements w game t))))
      = elements (tablesOf (syncElements w game t))).
Proof.
  intros Hfetch Hfetch' Hsql.
  destruct (syncElements_run w game t els Hfetch) as (Hr & He & _).
  destruct (syncElements_run w' game (tablesOf (syncElements w game t)) els
              Hfetch') as (Hr' & He' & _).
  assert (Hacc : acceptedElements w' els = acceptedElements w els)
    by (apply acceptedFrom_ext; exact Hsql).
  rewrite Hacc in *. rewrite He', He, Hr', Hr.
  assert (Hk : forall k,
    upsertElements (map (upsertData w' game) (acceptedElements w els))
      (upsertElements (map (upsertData w game) (acceptedElements w els)) (elements t)) !! k
    = match lastElementFor game k (acceptedElements w els) with
      | Some el =>
          restamp (now w')
            <$> upsertElements (map (upsertData w game) (acceptedElements w els))
                  (elements t) !! k
      | None =>
          upsertElements (map (upsertData w game) (acceptedElements w els)) (elements t)
            !! k
      end).
  { intros k. rewrite (upsertElements_lookup (map (upsertData w' game) _)).
    rewrite (upsertElements_lookup (map (upsertData w game) _)).
    rewrite !lastFor_upsertData.
    destruct (lastElementFor game k (acceptedElements w els)); reflexivity. }
  split; [|split; [reflexivity|]].
  - intros k. rewrite Hk.
    destruct (lastElementFor game k (acceptedElements w els)); [right | left]; reflexivity.
  - intros Hnow. apply map_eq. intros k. rewrite Hk.
    destruct (lastElementFor game k (acceptedElements w els)) as [el|] eqn:Hl;
      [|reflexivity].
    rewrite (upsertElements_lookup (map (upsertData w game) _)), lastFor_upsertData, Hl.
    cbn. rewrite Hnow. reflexivity.
Qed.

Lemma syncElements_idempotent_witness :
  elements (tablesOf (syncElements (worldWithCatalog 1000 [striker])
                        (gameInRound (Some 5) (Some "CurrentOpen") None)
                        (tablesOf (syncElements (worldWithCatalog 1000 [striker])
                                     (gameInRound (Some 5) (Some "CurrentOpen") None)
                                     (tablesWithElement (storedStriker true))))))
  = elements (tablesOf (syncElements (worldWithCatalog 1000 [striker])
                          (gameInRound (Some 5) (Some "CurrentOpen") None)
                          (tablesWithElement (storedStriker true)))).
Proof.
  destruct (syncElements_idempotent (worldWithCatalog 1000 [striker])
              (worldWithCatalog 1000 [striker])
              (gameInRound (Some 5) (Some "CurrentOpen") None)
              (tablesWithElement (storedStriker true)) [striker]) as (_ & _ & H).
  - reflexivity.
  - reflexivity.
  - reflexivity.
  - apply H. reflexivity.
Defined.

(** When the catalog cannot be fetched the phase fails at once: one request
    and no second try, no statement sent to the store, the tables as they
    were, and the error of the client as the message.  A 404 is reported as
    "HTTP 404: Not Found". *)
Theorem syncElements_fetch_failure w game t :
  catalogFetched w = None ->
  syncElements w game t
  = (failure (str_or (error (getElements (elements_endpoint w))) "Failed to fetch elements"),
     t, [GetElements (subsite_key game) (game_key game)])
  /\ (forall txt body,
        latency (elements_endpoint w) < DEFAULT_TIMEOUT_MS ->
        settles (elements_endpoint w) = Resolved 404 txt body ->
        resultOf (syncElements w game t) = failure ("HTTP 404: " +:+ txt)).
Proof.
  intros Hfetch. unfold catalogFetched in Hfetch.
  assert (Hrun : syncElements w game t
                 = (failure (str_or (error (getElements (elements_endpoint w)))
                               "Failed to fetch elements"),
                    t, [GetElements (subsite_key game) (game_key game)])).
  { unfold syncElements. unfold mbind, M_bind, bind, mret, M_ret, ret, emit.
    destruct (fetchFailed (getElements (elements_endpoint w))).
    - destruct (data (getElements (elements_endpoint w))); reflexivity.
    - rewrite Hfetch. reflexivity. }
  split; [exact Hrun|].
  intros txt body Hl Hs. rewrite Hrun. unfold resultOf. cbn [fst].
  unfold getElements, request, fetch.
  replace (DEFAULT_TIMEOUT_MS <=? latency (elements_endpoint w)) with false by lia.
  rewrite Hs. cbn. destruct txt; reflexivity.
Qed.

Lemma syncElements_fetch_failure_witness :
  syncElements worldWithoutCatalog (gameInRound (Some 5) (Some "CurrentOpen") None)
    emptyTables
  = (failure "HTTP 404: Not Found", emptyTables, [GetElements "aftonbladet" "allsvenskan"]).
Proof.
  destruct (syncElements_fetch_failure worldWithoutCatalog
              (gameInRound (Some 5) (Some "CurrentOpen") None) emptyTables) as (H & _).
  - reflexivity.
  - rewrite H. reflexivity.
Defined.

End CatalogIdempotence.

(** ** The metadata phase *)

Section MetadataPhase.

Import SwushClient SyncService.

Lemma syncGameDetails_run w game t :
  syncGameDetails w game t
  = match metaFetched w with
    | None =>
        (failure (str_or (error (getGame (game_endpoint w))) "Failed to fetch game"),
         t, [GetGame (subsite_key game) (game_key game)])
    | Some d =>
        match sql_error w (UpdateGame (game_id game)) with
        | Some msg =>
            (failure msg, t,
             [GetGame (subsite_key game) (game_key game); Sql (UpdateGame (game_id game))])
        | None =>
            (mkSyncResult true (Some 1) None None None,
             set_games (alter (fun g =>
               mkGame (game_id g) (game_key g) (name g) (subsite_key g) (is_active g)
                 (currentRoundIndex d)
                 (Z.of_nat (length (rounds d)))
                 (firstOf (fun r => Some (round_state_of r))
                    (findCurrentRound (rounds d)) (findEndedRound (rounds d)))
                 (firstOf tradeCloses (findCurrentRound (rounds d))
                    (findRound "Pending" (rounds d)))
                 (firstOf round_start (findCurrentRound (rounds d))
                    (findRound "Pending" (rounds d)))
                 (firstOf round_end (findCurrentRound (rounds d))
                    (findEndedRound (rounds d)))
                 (sync_interval_minutes g)
                 (Some (now w))
                 (Some (gameId d))
                 (Some (GAME_BASE_URL w +:+ "/" +:+ game_key game))
                 (userteamsCount d)) (game_id game)) t,
             [GetGame (subsite_key game) (game_key game); Sql (UpdateGame (game_id game))])
        end
    end.
Proof.
  unfold metaFetched, syncGameDetails.
  unfold mbind, M_bind, bind, mret, M_ret, ret, write, emit, modify.
  unfold mbind, M_bind, bind, mret, M_ret, ret.
  destruct (fetchFailed (getGame (game_endpoint w))).
  - destruct (data (getGame (game_endpoint w))); reflexivity.
  - destruct (data (getGame (game_endpoint w))) as [d|]; [|reflexivity].
    destruct (sql_error w (UpdateGame (game_id game))); reflexivity.
Qed.




(** When the metadata cannot be fetched, or the store rejects the update of
    the game row, the phase fails with the message of the client or of the
    store, and the tables stay as they were: in particular [last_synced_at]
    is not moved. *)
Theorem syncGameDetails_failure w game t :
  (metaFetched w = None ->
   syncGameDetails w game t
   = (failure (str_or (error (getGame (game_endpoint w))) "Failed to fetch game"),
      t, [GetGame (subsite_key game) (game_key game)]))
  /\ (forall d msg,
        metaFetched w = Some d ->
        sql_error w (UpdateGame (game_id game)) = Some msg ->
        resultOf (syncGameDetails w game t) = failure msg
        /\ tablesOf (syncGameDetails w game t) = t).
Proof.
  split.
  - intros H. rewrite syncGameDetails_run, H. reflexivity.
  - intros d msg Hd Hs. rewrite syncGameDetails_run, Hd, Hs. split; reflexivity.
Qed.

End MetadataPhase.

(** ** The user phase, page by page *)

Section UserPages.

Import SwushClient SyncService.

Local Ltac run_monad :=
  unfold mbind, M_bind, bind, mret, M_ret, ret, write, emit, modify, read;
  unfold mbind, M_bind, bind, mret, M_ret, ret.

Lemma upsertUsers_lookup rows :
  forall (tbl : gmap (string * string) UserGameStats) k,
    upsertUsers rows tbl !! k
    = match lastRowFor k rows with
      | Some r => Some r
      | None => tbl !! k
      end.
Proof.
  unfold upsertUsers.
  induction rows as [|r rows IH]; intros tbl k; [reflexivity|].
  cbn [fold_left lastRowFor]. rewrite IH.
  destruct (lastRowFor k rows); [reflexivity|].
  case_bool_decide as Hk.
  - subst k. apply lookup_insert_eq.
  - apply lookup_insert_ne. exact Hk.
Qed.

Lemma lastRowFor_Some k rows r :
  lastRowFor k rows = Some r -> In r rows /\ (u_external_id r, u_game_id r) = k.
Proof.
  induction rows as [|r0 rows IH]; [discriminate|].
  cbn [lastRowFor]. destruct (lastRowFor k rows) as [r'|].
  - intros [= <-]. destruct (IH eq_refl) as [Hin Hk]. split; [right; exact Hin | exact Hk].
  - case_bool_decide as Hk; [|discriminate].
    intros [= <-]. split; [left; reflexivity | exact Hk].
Qed.

Lemma lastRowFor_None k rows :
  lastRowFor k rows = None -> forall r, In r rows -> (u_external_id r, u_game_id r) <> k.
Proof.
  induction rows as [|r0 rows IH]; intros H r Hin; [destruct Hin|].
  cbn [lastRowFor] in H. destruct (lastRowFor k rows) as [r'|]; [discriminate|].
  case_bool_decide as Hk; [discriminate|].
  destruct Hin as [<- | Hin]; [exact Hk | apply IH; [reflexivity | exact Hin]].
Qed.

Lemma hasExternalId_nonempty u :
  hasExternalId u = true -> str_or (externalId u) "" <> "".
Proof.
  unfold hasExternalId. intros H Heq. rewrite Heq in H. discriminate.
Qed.

(** [saveUsersPage] drops the users that have no external id without
    counting an error: a page with none of the others is a success of count
    0 that sends nothing to the store.  Otherwise one upsert is sent; when
    the store accepts it the count is the number of users with an external
    id, and every row that changed has the non-empty external id of one of
    them; when the store rejects it the page fails with count 0 and the
    tables stay as they were. *)
Theorem saveUsersPage_external_ids w game us p t :
  (List.filter hasExternalId us = [] ->
   saveUsersPage w game us p t = (mkPageResult true 0, t, []))
  /\ (List.filter hasExternalId us <> [] ->
      effectsOf (saveUsersPage w game us p t) = [Sql (UpsertUserGameStats p)]
      /\ (forall err,
            sql_error w (UpsertUserGameStats p) = Some err ->
            resultOf (saveUsersPage w game us p t) = mkPageResult false 0
            /\ tablesOf (saveUsersPage w game us p t) = t)
      /\ (sql_error w (UpsertUserGameStats p) = None ->
          resultOf (saveUsersPage w game us p t)
          = mkPageResult true (Z.of_nat (length (List.filter hasExternalId us)))
          /\ (forall k,
                user_game_stats (tablesOf (saveUsersPage w game us p t)) !! k
                <> user_game_stats t !! k ->
                exists u, In u us /\ hasExternalId u = true
                          /\ k = (str_or (externalId u) "", game_id game)
                          /\ k.1 <> ""))).
Proof.
  unfold saveUsersPage. split.
  - intros ->. reflexivity.
  - intros Hne.
    replace (length (List.filter hasExternalId us) =? 0)%nat with false
      by (destruct (List.filter hasExternalId us); [congruence | reflexivity]).
    run_monad. unfold effectsOf, resultOf, tablesOf.
    destruct (sql_error w (UpsertUserGameStats p)) as [err|] eqn:Hs; cbn [fst snd app].
    + split; [reflexivity|]. split; [|discriminate].
      intros err' _. split; reflexivity.
    + split; [reflexivity|]. split; [discriminate|]. intros _.
      rewrite length_map. split; [reflexivity|].
      intros k Hk. cbn [user_game_stats set_user_game_stats] in Hk.
      rewrite upsertUsers_lookup in Hk.
      destruct (lastRowFor k (map (userRow w game) (List.filter hasExternalId us)))
        as [r|] eqn:Hl; [|congruence].
      apply lastRowFor_Some in Hl. destruct Hl as [Hin Hkey].
      apply in_map_iff in Hin. destruct Hin as (u & <- & Hin).
      apply filter_In in Hin. destruct Hin as [Hin Hext].
      exists u. cbn in Hkey. subst k.
      repeat split; try assumption. cbn. apply hasExternalId_nonempty. exact Hext.
Qed.

End UserPages.

Section UserPhaseRuns.

Import SwushClient SyncService.

Local Ltac run_monad :=
  unfold mbind, M_bind, bind, mret, M_ret, ret, write, emit, modify, read;
  unfold mbind, M_bind, bind, mret, M_ret, ret.

Lemma fetchUsersPage_exact w game p t :
  fetchUsersPage w game p t
  = (default (mkResponse None None 0) (fst (getUsers (users_endpoint w p))), t,
     [GetUsers (subsite_key game) (game_key game) p (attemptsFor w p)]).
Proof.
  unfold fetchUsersPage, attemptsFor.
  destruct (getUsers (users_endpoint w p)) as [r evs]. reflexivity.
Qed.

(** The response of the paginated call, seen as the data of the page. *)
Lemma response_pageData w p :
  let r := default (mkResponse None None 0) (fst (getUsers (users_endpoint w p))) in
  pageData w p = match data r with
                 | Some d => if fetchFailed r then None else Some d
                 | None => None
                 end.
Proof.
  cbv zeta. unfold pageData.
  destruct (fst (getUsers (users_endpoint w p))) as [r|]; unfold default, from_option;
    cbn [id]; [|reflexivity].
  destruct (data r), (fetchFailed r); reflexivity.
Qed.

Lemma saveUsersPage_run w game us p t :
  effectsOf (saveUsersPage w game us p t)
  = (if (length (List.filter hasExternalId us) =? 0)%nat then []
     else [Sql (UpsertUserGameStats p)])
  /\ user_game_stats (tablesOf (saveUsersPage w game us p t))
     = upsertUsers
         (map (userRow w game)
            match sql_error w (UpsertUserGameStats p) with
            | None => List.filter hasExternalId us
            | Some _ => []
            end)
         (user_game_stats t).
Proof.
  unfold saveUsersPage, effectsOf, tablesOf.
  destruct (List.filter hasExternalId us) as [|u kept] eqn:Hk.
  - cbn. destruct (sql_error w (UpsertUserGameStats p)); split; reflexivity.
  - cbn [length Nat.eqb]. run_monad.
    destruct (sql_error w (UpsertUserGameStats p)); cbn; split; reflexivity.
Qed.

Lemma upsertUsers_app (a b : list UserGameStats) (tbl : gmap (string * string) UserGameStats) :
  upsertUsers (a ++ b) tbl = upsertUsers b (upsertUsers a tbl).
Proof. unfold upsertUsers. apply fold_left_app. Qed.

Lemma fetchAndSave_run w game todo :
  forall acc t,
    Forall (fun p => p <> 1) todo ->
    effectsOf (fetchAndSave w game todo acc t) = flat_map (pageEffects w game) todo
    /\ user_game_stats (tablesOf (fetchAndSave w game todo acc t))
       = upsertUsers (map (userRow w game) (acceptedUsers w todo)) (user_game_stats t).
Proof.
  induction todo as [|p rest IH]; intros acc t Hne; [split; reflexivity|].
  inversion Hne as [|? ? Hp Hrest]; subst.
  remember (fetchAndSave w game (p :: rest) acc t) as run eqn:Hrun.
  cbn [fetchAndSave] in Hrun.
  unfold mbind at 1, M_bind at 1, bind at 1 in Hrun. rewrite fetchUsersPage_exact in Hrun.
  unfold acceptedUsers in *. cbn [flat_map].
  unfold pageEffects at 1, acceptedUsersOn at 1.
  pose proof (response_pageData w p) as Hpd. cbv zeta in Hpd. rewrite Hpd. clear Hpd.
  set (r := default (mkResponse None None 0) (fst (getUsers (users_endpoint w p)))) in *.
  replace (p =? 1) with false by lia.
  destruct (data r) as [d|].
  - destruct (fetchFailed r).
    + destruct (IH (pageFailed acc p) t Hrest) as [He Ht].
      destruct (fetchAndSave w game rest (pageFailed acc p) t) as [[a t'] e].
      subst run. unfold effectsOf, tablesOf in *. cbn [fst snd app] in *.
      rewrite He, Ht. split; reflexivity.
    + unfold mbind, M_bind, bind, emit in Hrun.
      destruct (saveUsersPage_run w game (users d) p t) as [Hse Hst].
      destruct (saveUsersPage w game (users d) p t) as [[pr t1] e1].
      destruct (IH (if page_success pr then pageSaved acc (count pr) else pageFailed acc p)
                  t1 Hrest) as [He Ht].
      destruct (fetchAndSave w game rest
                  (if page_success pr then pageSaved acc (count pr) else pageFailed acc p) t1)
        as [[a' t'] e'].
      subst run. unfold effectsOf, tablesOf in *. cbn [fst snd app] in *.
      rewrite He, Ht, Hse, Hst. rewrite map_app, upsertUsers_app.
      split; [|reflexivity].
      destruct (length (List.filter hasExternalId (users d)) =? 0)%nat; reflexivity.
  - destruct (IH (pageFailed acc p) t Hrest) as [He Ht].
    destruct (fetchAndSave w game rest (pageFailed acc p) t) as [[a t'] e].
    subst run. unfold effectsOf, tablesOf in *. cbn [fst snd app] in *.
    rewrite He, Ht. split; reflexivity.
Qed.

Lemma remainingPages_not_1 n : Forall (fun p => p <> 1) (remainingPages n).
Proof.
  unfold remainingPages. apply Forall_forall. intros p Hin.
  apply list_elem_of_In, in_map_iff in Hin. destruct Hin as (k & <- & Hk).
  apply in_seq in Hk. lia.
Qed.

Lemma syncUsers_run w game t d :
  pageData w 1 = Some d ->
  effectsOf (syncUsers w game t) = flat_map (pageEffects w game) (visitedPages (pages d))
  /\ user_game_stats (tablesOf (syncUsers w game t))
     = upsertUsers (map (userRow w game) (acceptedUsers w (visitedPages (pages d))))
         (user_game_stats t).
Proof.
  intros Hd.
  remember (syncUsers w game t) as run eqn:Hrun.
  unfold syncUsers in Hrun.
  unfold mbind at 1, M_bind at 1, bind at 1 in Hrun. rewrite fetchUsersPage_exact in Hrun.
  unfold visitedPages, acceptedUsers. cbn [flat_map].
  unfold pageEffects at 1, acceptedUsersOn at 1. rewrite Hd.
  pose proof (response_pageData w 1) as Hpd. cbv zeta in Hpd. rewrite Hd in Hpd.
  set (r := default (mkResponse None None 0) (fst (getUsers (users_endpoint w 1)))) in *.
  destruct (data r) as [d'|]; [|discriminate].
  destruct (fetchFailed r); [discriminate|]. injection Hpd as <-.
  unfold mbind, M_bind, bind in Hrun.
  destruct (saveUsersPage_run w game (users d) 1 t) as [Hse Hst].
  destruct (saveUsersPage w game (users d) 1 t) as [[pr t1] e1].
  destruct (fetchAndSave_run w game (remainingPages (pages d))
              (if page_success pr then pageSaved (mkProgress 0 0 []) (count pr)
               else pageFailed (mkProgress 0 0 []) 1) t1 (remainingPages_not_1 _))
    as [He Ht].
  destruct (fetchAndSave w game (remainingPages (pages d))
              (if page_success pr then pageSaved (mkProgress 0 0 []) (count pr)
               else pageFailed (mkProgress 0 0 []) 1) t1) as [[acc t2] e2].
  unfold acceptedUsers in Ht.
  assert (Hshape : effectsOf run
                   = (GetUsers (subsite_key game) (game_key game) 1 (attemptsFor w 1) :: e1)
                     ++ e2
                   /\ tablesOf run = t2).
  { subst run. unfold effectsOf, tablesOf, mret, M_ret, ret.
    destruct (js_gt _ _); cbn [fst snd app]; rewrite !app_nil_r; split; reflexivity. }
  destruct Hshape as [-> ->].
  unfold effectsOf, tablesOf in *. cbn [fst snd app] in *.
  rewrite He, Ht, Hse, Hst, map_app, upsertUsers_app.
  split; [|reflexivity].
  change (1 =? 1) with true. rewrite app_nil_r. reflexivity.
Qed.

End UserPhaseRuns.

Section UserPhaseProperties.

Import SwushClient SyncService.

Lemma requestedPages_pageEffects w game ps :
  requestedPages (flat_map (pageEffects w game) ps) = ps.
Proof.
  induction ps as [|p ps IH]; [reflexivity|].
  cbn [flat_map]. unfold requestedPages in *. rewrite flat_map_app, IH.
  unfold pageEffects. cbn [flat_map app].
  destruct (pageData w p) as [d|]; [|reflexivity].
  destruct (length (List.filter hasExternalId (users d)) =? 0)%nat, (p =? 1); reflexivity.
Qed.

(** Once page 1 is fetched, the user phase goes through the pages 1, 2, ...
    one after the other, each once and in this order, whether pages fail or
    not.  For each page it makes the paginated call and, when the page was
    fetched, sends its users to the store before it asks for the next page;
    from page 2 on it then pauses 100 ms (there is no pause after a page that
    could not be fetched). *)
Theorem syncUsers_page_by_page w game t d :
  pageData w 1 = Some d ->
  effectsOf (syncUsers w game t) = flat_map (pageEffects w game) (visitedPages (pages d))
  /\ requestedPages (effectsOf (syncUsers w game t)) = visitedPages (pages d)
  /\ (0 < pages d -> visitedPages (pages d) = map Z.of_nat (seq 1 (Z.to_nat (pages d)))).
Proof.
  intros Hd. destruct (syncUsers_run w game t d Hd) as [He _].
  rewrite He. split; [reflexivity|]. split; [apply requestedPages_pageEffects|].
  intros Hpos. unfold visitedPages, remainingPages.
  replace (Z.to_nat (pages d)) with (S (Z.to_nat (pages d) - 1)) at 2 by lia.
  reflexivity.
Qed.

Lemma syncUsers_page_by_page_witness :
  effectsOf (syncUsers (worldWithGuest 3 [3]) (gameInRound (Some 5) (Some "CurrentOpen") None)
               emptyTables)
  = [GetUsers "aftonbladet" "allsvenskan" 1 1; Sql (UpsertUserGameStats 1);
     GetUsers "aftonbladet" "allsvenskan" 2 1; Sql (UpsertUserGameStats 2); Sleep 100;
     GetUsers "aftonbladet" "allsvenskan" 3 4].
Proof.
  destruct (syncUsers_page_by_page (worldWithGuest 3 [3])
              (gameInRound (Some 5) (Some "CurrentOpen") None) emptyTables
              (mkSwushUsersResponse 6 3 1 10 [someUser 2; someUser 3])) as (H & _).
  - reflexivity.
  - rewrite H. reflexivity.
Defined.

Lemma acceptedUsers_In w ps u :
  In u (acceptedUsers w ps)
  <-> exists p d,
        In p ps /\ pageData w p = Some d /\ sql_error w (UpsertUserGameStats p) = None
        /\ In u (users d) /\ hasExternalId u = true.
Proof.
  unfold acceptedUsers. rewrite in_flat_map. unfold acceptedUsersOn. split.
  - intros (p & Hp & Hu).
    destruct (pageData w p) as [d|] eqn:Hd; [|destruct Hu].
    destruct (sql_error w (UpsertUserGameStats p)) eqn:Hs; [destruct Hu|].
    apply filter_In in Hu. exists p, d. tauto.
  - intros (p & d & Hp & Hd & Hs & Hu & He). exists p. split; [exact Hp|].
    rewrite Hd, Hs. apply filter_In. tauto.
Qed.

(** Progress is durable page by page.  After the user phase, whatever it
    reports, a user with an external id on a page that was fetched and that
    the store accepted has their row in [user_game_stats], provided the
    external id does not belong to a different user elsewhere in the run.
    This holds also when the phase as a whole is reported as failed. *)
Theorem syncUsers_keeps_saved_pages w game t d p pd u :
  pageData w 1 = Some d ->
  In p (visitedPages (pages d)) ->
  pageData w p = Some pd ->
  sql_error w (UpsertUserGameStats p) = None ->
  In u (users pd) ->
  hasExternalId u = true ->
  (forall p' pd' u',
      In p' (visitedPages (pages d)) -> pageData w p' = Some pd' -> In u' (users pd') ->
      str_or (externalId u') "" = str_or (externalId u) "" ->
      userRow w game u' = userRow w game u) ->
  user_game_stats (tablesOf (syncUsers w game t)) !! (str_or (externalId u) "", game_id game)
  = Some (userRow w game u).
Proof.
  intros Hd Hp Hpd Hs Hu Hext Huniq.
  destruct (syncUsers_run w game t d Hd) as [_ Ht]. rewrite Ht, upsertUsers_lookup.
  destruct (lastRowFor _ _) as [r|] eqn:Hl.
  - apply lastRowFor_Some in Hl. destruct Hl as [Hin Hkey].
    apply in_map_iff in Hin. destruct Hin as (u' & <- & Hin).
    apply acceptedUsers_In in Hin. destruct Hin as (p' & pd' & Hp' & Hpd' & _ & Hu' & _).
    cbn in Hkey. injection Hkey as Hk. f_equal. eapply Huniq; eassumption.
  - exfalso. eapply (lastRowFor_None _ _ Hl (userRow w game u)); [|reflexivity].
    apply in_map. apply acceptedUsers_In. exists p, pd. tauto.
Qed.

Lemma syncUsers_keeps_saved_pages_witness :
  success (resultOf (syncUsers (worldWithPages 3 [2])
                       (gameInRound (Some 5) (Some "CurrentOpen") None) emptyTables)) = false
  /\ user_game_stats
       (tablesOf (syncUsers (worldWithPages 3 [2])
                    (gameInRound (Some 5) (Some "CurrentOpen") None) emptyTables))
       !! ("ext-6", "game-1")
     = Some (userRow (worldWithPages 3 [2])
               (gameInRound (Some 5) (Some "CurrentOpen") None) (someUser 6)).
Proof.
  split; [vm_compute; reflexivity|].
  refine (eq_trans
            (syncUsers_keeps_saved_pages (worldWithPages 3 [2])
               (gameInRound (Some 5) (Some "CurrentOpen") None) emptyTables
               (mkSwushUsersResponse 6 3 1 10 [someUser 2; someUser 3]) 3
               (mkSwushUsersResponse 6 3 3 10 [someUser 6; someUser 7]) (someUser 6)
               _ _ _ _ _ _ _) _).
  - reflexivity.
  - right. right. left. reflexivity.
  - reflexivity.
  - reflexivity.
  - left. reflexivity.
  - reflexivity.
  - intros p' pd' u' Hp' Hpd' Hu' Hk.
    destruct Hp' as [<- | [<- | [<- | []]]]; vm_compute in Hpd'; try discriminate;
      injection Hpd' as <-;
      (destruct Hu' as [<- | [<- | []]]; vm_compute in Hk; try discriminate; reflexivity).
  - reflexivity.
Defined.

(** When page 1 cannot be fetched after the retries the user phase fails
    with the error of the client, reports no user count, and sends nothing to
    the store. *)
Theorem syncUsers_first_page_failure w game t :
  pageData w 1 = None ->
  success (resultOf (syncUsers w game t)) = false
  /\ usersSynced (resultOf (syncUsers w game t)) = None
  /\ sync_error (resultOf (syncUsers w game t))
     = Some (str_or (error (default (mkResponse None None 0)
                              (fst (getUsers (users_endpoint w 1)))))
               "Failed to fetch users")
  /\ tablesOf (syncUsers w game t) = t
  /\ effectsOf (syncUsers w game t)
     = [GetUsers (subsite_key game) (game_key game) 1 (attemptsFor w 1)].
Proof.
  intros Hd.
  remember (syncUsers w game t) as run eqn:Hrun.
  unfold syncUsers in Hrun.
  unfold mbind at 1, M_bind at 1, bind at 1 in Hrun. rewrite fetchUsersPage_exact in Hrun.
  pose proof (response_pageData w 1) as Hpd. cbv zeta in Hpd. rewrite Hd in Hpd.
  set (r := default (mkResponse None None 0) (fst (getUsers (users_endpoint w 1)))) in *.
  destruct (data r) as [d'|].
  - destruct (fetchFailed r); [|discriminate]. subst run. cbn. auto.
  - subst run. cbn. auto.
Qed.

Lemma syncUsers_first_page_failure_witness :
  effectsOf (syncUsers (worldWithPages 3 [1])
               (gameInRound (Some 5) (Some "CurrentOpen") None) emptyTables)
  = [GetUsers "aftonbladet" "allsvenskan" 1 4].
Proof.
  destruct (syncUsers_first_page_failure (worldWithPages 3 [1])
              (gameInRound (Some 5) (Some "CurrentOpen") None) emptyTables)
    as (_ & _ & _ & _ & H).
  - reflexivity.
  - rewrite H. reflexivity.
Defined.

End UserPhaseProperties.

(** ** A run of [syncGame], whatever the store does *)

Section SyncGameRuns.

Import SwushClient SyncService.

Lemma bind_run {A B} (c : M A) (k : A -> M B) t :
  resultOf ((c ≫= k) t) = resultOf (k (resultOf (c t)) (tablesOf (c t)))
  /\ tablesOf ((c ≫= k) t) = tablesOf (k (resultOf (c t)) (tablesOf (c t)))
  /\ effectsOf ((c ≫= k) t)
     = effectsOf (c t) ++ effectsOf (k (resultOf (c t)) (tablesOf (c t))).
Proof.
  unfold mbind, M_bind, bind, resultOf, tablesOf, effectsOf.
  destruct (c t) as [[a t1] e1]. cbn [fst snd].
  destruct (k a t1) as [[b t2] e2]. auto.
Qed.

Lemma phase_effects_plain p l :
  Forall (fun e => inPhase p e = true) l ->
  List.filter isAlert l = [] /\ List.filter isLogUpdate l = [].
Proof.
  intros Hl. induction Hl as [|e l He _ [IH1 IH2]]; [split; reflexivity|].
  cbn [List.filter]. rewrite IH1, IH2.
  unfold inPhase, phaseOf in He.
  destruct e as [[]| | | | | |]; try discriminate; try destruct p; try discriminate;
    split; reflexivity.
Qed.

(** The [catch] block: whether there is a row to finalize or not, and
    whatever the store answers, one alert leaves and the failure goes back. *)
Lemma endsRun_syncFailed w game logId msg : endsRun w game logId (syncFailed w game logId msg).
Proof.
  intros t.
  unfold syncFailed, updateSyncLog, AlertService.alertSyncFailure, write.
  unfold mbind, M_bind, bind, mret, M_ret, ret, emit, modify.
  destruct logId as [l|].
  - destruct (sql_error w (UpdateSyncLog l)); cbn; repeat split; try discriminate; eauto.
  - cbn. repeat split; try discriminate; eauto.
Qed.

Lemma endsRun_bind {A} w game logId p (c : M A) (k : A -> M SyncResult) :
  staysIn p c -> (forall a, endsRun w game logId (k a)) -> endsRun w game logId (c ≫= k).
Proof.
  intros Hc Hk t. destruct (bind_run c k t) as (-> & -> & ->).
  destruct (Hc t) as [Lc Ec]. apply phase_effects_plain in Ec. destruct Ec as [Ac Uc].
  rewrite !List.filter_app, Ac, Uc. cbn [app].
  destruct (Hk (resultOf (c t)) (tablesOf (c t))) as (H1 & H2 & H3 & H4 & H5).
  repeat split; try assumption; try (apply H3; assumption).
  intros Hn. rewrite (H5 Hn). exact Lc.
Qed.

Lemma endsRun_completed w game logId elementsResult usersResult :
  endsRun w game logId
    (match logId with
     | Some l =>
         updateSyncLog w l
           (mkSyncLogUpdates (Some completed)
              (Some (num_or (usersSynced usersResult) 0))
              (Some (num_or (elementsSynced elementsResult) 0))
              None (Some (now w)))
     | None => mret tt
     end ;;
     mret (mkSyncResult true (Some 1) (elementsSynced elementsResult)
             (usersSynced usersResult) None)).
Proof.
  intros t. unfold updateSyncLog, write.
  unfold mbind, M_bind, bind, mret, M_ret, ret, emit, modify.
  destruct logId as [l|].
  - destruct (sql_error w (UpdateSyncLog l)); cbn; repeat split; discriminate.
  - cbn. repeat split; discriminate.
Qed.

Lemma createSyncLog_run w entry t :
  effectsOf (createSyncLog w entry t) = [Sql InsertSyncLog]
  /\ resultOf (createSyncLog w entry t)
     = match sql_error w InsertSyncLog with
       | Some _ => None
       | None => Some (new_sync_log_id w)
       end
  /\ (sql_error w InsertSyncLog <> None -> tablesOf (createSyncLog w entry t) = t).
Proof.
  unfold createSyncLog, write.
  unfold mbind, M_bind, bind, mret, M_ret, ret, emit, modify.
  destruct (sql_error w InsertSyncLog); cbn; repeat split; congruence.
Qed.

(** What a run of [syncGame] gives back, its alerts and its updates of the
    SyncLog row, in terms of the id that [createSyncLog] returned. *)
Lemma syncGame_outcome w game syncType t :
  let run := syncGame w game syncType t in
  let logId := match sql_error w InsertSyncLog with
               | Some _ => None
               | None => Some (new_sync_log_id w)
               end in
  List.filter isAlert (effectsOf run)
  = (if success (resultOf run) then []
     else [AlertSyncFailure
             (failureAlert w game (thrownMessage (sync_error (resultOf run))))])
  /\ List.filter isLogUpdate (effectsOf run)
     = match logId with Some l => [Sql (UpdateSyncLog l)] | None => [] end
  /\ (success (resultOf run) = true
      -> gamesSynced (resultOf run) = Some 1 /\ sync_error (resultOf run) = None)
  /\ (success (resultOf run) = false -> is_Some (sync_error (resultOf run)))
  /\ (logId = None -> sync_logs (tablesOf run) = sync_logs t).
Proof.
  intros run logId. subst run. unfold syncGame.
  set (entry := mkSyncLogEntry (game_id game) syncType started 0 0 None).
  destruct (bind_run (createSyncLog w entry)
              (fun logId =>
                 gameResult ← syncGameDetails w game;
                 if negb (success gameResult) then
                   syncFailed w game logId (thrownMessage (sync_error gameResult))
                 else
                   elementsResult ← syncElements w game;
                   if negb (success elementsResult) then
                     syncFailed w game logId (thrownMessage (sync_error elementsResult))
                   else
                     usersResult ← syncUsers w game;
                     if negb (success usersResult) then
                       syncFailed w game logId (thrownMessage (sync_error usersResult))
                     else
                       match logId with
                       | Some l =>
                           updateSyncLog w l
                             (mkSyncLogUpdates (Some completed)
                                (Some (num_or (usersSynced usersResult) 0))
                                (Some (num_or (elementsSynced elementsResult) 0))
                                None (Some (now w)))
                       | None => mret tt
                       end ;;
                       mret (mkSyncResult true (Some 1) (elementsSynced elementsResult)
                               (usersSynced usersResult) None)) t) as (-> & -> & ->).
  destruct (createSyncLog_run w entry t) as (Hce & Hcr & Hct).
  rewrite Hce, Hcr. fold logId.
  assert (Ht0 : logId = None -> tablesOf (createSyncLog w entry t) = t).
  { intros Hn. apply Hct. subst logId. destruct (sql_error w InsertSyncLog); congruence. }
  set (t0 := tablesOf (createSyncLog w entry t)) in *.
  clearbody t0 logId. clear Hce Hcr Hct.
  cbn [app List.filter isAlert isLogUpdate].
  assert (Hrun : endsRun w game logId
            (gameResult ← syncGameDetails w game;
             if negb (success gameResult) then
               syncFailed w game logId (thrownMessage (sync_error gameResult))
             else
               elementsResult ← syncElements w game;
               if negb (success elementsResult) then
                 syncFailed w game logId (thrownMessage (sync_error elementsResult))
               else
                 usersResult ← syncUsers w game;
                 if negb (success usersResult) then
                   syncFailed w game logId (thrownMessage (sync_error usersResult))
                 else
                   match logId with
                   | Some l =>
                       updateSyncLog w l
                         (mkSyncLogUpdates (Some completed)
                            (Some (num_or (usersSynced usersResult) 0))
                            (Some (num_or (elementsSynced elementsResult) 0))
                            None (Some (now w)))
                   | None => mret tt
                   end ;;
                   mret (mkSyncResult true (Some 1) (elementsSynced elementsResult)
                           (usersSynced usersResult) None))).
  { eapply endsRun_bind; [apply syncGameDetails_staysIn|]. intros gr.
    destruct (negb (success gr)); [apply endsRun_syncFailed|].
    eapply endsRun_bind; [apply syncElements_staysIn|]. intros er.
    destruct (negb (success er)); [apply endsRun_syncFailed|].
    eapply endsRun_bind; [apply syncUsers_staysIn|]. intros ur.
    destruct (negb (success ur)); [apply endsRun_syncFailed|].
    apply endsRun_completed. }
  destruct (Hrun t0) as (H1 & H2 & H3 & H4 & H5).
  repeat split; try assumption; try (apply H3; assumption).
  intros Hn. rewrite (H5 Hn), (Ht0 Hn). reflexivity.
Qed.

(** A run of [syncGame] sends an alert exactly when it reports a failure,
    and then exactly one, with the error that it reports; a successful run
    sends none and counts one game.  This holds whatever the store and the
    partner API answer. *)
Theorem syncGame_alerts_exactly_failures w game syncType t :
  List.filter isAlert (effectsOf (syncGame w game syncType t))
  = (if success (resultOf (syncGame w game syncType t)) then []
     else [AlertSyncFailure
             (failureAlert w game
                (thrownMessage (sync_error (resultOf (syncGame w game syncType t)))))])
  /\ (success (resultOf (syncGame w game syncType t)) = true
      -> gamesSynced (resultOf (syncGame w game syncType t)) = Some 1
         /\ sync_error (resultOf (syncGame w game syncType t)) = None)
  /\ (success (resultOf (syncGame w game syncType t)) = false
      -> is_Some (sync_error (resultOf (syncGame w game syncType t)))).
Proof.
  destruct (syncGame_outcome w game syncType t) as (Ha & _ & Hs & Hf & _).
  auto.
Qed.

(** When the store rejects the insert of the SyncLog row the run goes on
    without it: the phases are still attempted, starting with the request
    for the game, no update of a SyncLog row is ever sent, the table of
    sync logs stays as it was, and a failure of the run is alerted as
    usual. *)
Theorem syncGame_without_log_row w game syncType t err :
  sql_error w InsertSyncLog = Some err ->
  List.filter isLogUpdate (effectsOf (syncGame w game syncType t)) = []
  /\ sync_logs (tablesOf (syncGame w game syncType t)) = sync_logs t
  /\ (exists rest,
        effectsOf (syncGame w game syncType t)
        = Sql InsertSyncLog :: GetGame (subsite_key game) (game_key game) :: rest)
  /\ (success (resultOf (syncGame w game syncType t)) = false
      -> List.filter isAlert (effectsOf (syncGame w game syncType t))
         = [AlertSyncFailure
              (failureAlert w game
                 (thrownMessage (sync_error (resultOf (syncGame w game syncType t)))))]).
Proof.
  intros Hins.
  destruct (syncGame_outcome w game syncType t) as (Ha & Hu & _ & _ & Hl).
  cbv zeta in Hu, Hl. rewrite Hins in Hu, Hl.
  split; [exact Hu|]. split; [apply Hl; reflexivity|]. split.
  - unfold syncGame.
    match goal with
    | |- exists _, effectsOf ((?c ≫= ?k) t) = _ =>
        destruct (bind_run c k t) as (_ & _ & ->)
    end.
    destruct (createSyncLog_run w (mkSyncLogEntry (game_id game) syncType started 0 0 None) t)
      as (-> & _ & _).
    match goal with
    | |- exists _, _ ++ effectsOf ((?c ≫= ?k) ?t') = _ =>
        destruct (bind_run c k t') as (_ & _ & ->)
    end.
    unfold syncGameDetails at 1.
    match goal with
    | |- exists _, _ ++ effectsOf ((?c ≫= ?k) ?t') ++ _ = _ =>
        destruct (bind_run c k t') as (_ & _ & ->)
    end.
    cbn [app emit effectsOf snd]. eauto.
  - intros Hf. rewrite Ha, Hf. reflexivity.
Qed.

Lemma syncGame_without_log_row_witness :
  success (resultOf (syncGame (worldWithoutLog 3 [] [striker]) storedGame scheduled
                       (tablesWithGame storedGame))) = true
  /\ sync_logs (tablesOf (syncGame (worldWithoutLog 3 [] [striker]) storedGame scheduled
                            (tablesWithGame storedGame)))
     = sync_logs (tablesWithGame storedGame).
Proof.
  split; [vm_compute; reflexivity|].
  exact (proj1 (proj2 (syncGame_without_log_row (worldWithoutLog 3 [] [striker]) storedGame
                         scheduled (tablesWithGame storedGame) "insert rejected" eq_refl))).
Defined.

End SyncGameRuns.

(** ** The jobs over all games *)

Section AllGamesRuns.

Import SyncService BrazeTriggerService AllGames.

Lemma countOf_app f l l' : countOf f (l ++ l') = countOf f l + countOf f l'.
Proof. unfold countOf. rewrite List.filter_app, length_app. lia. Qed.

Lemma syncEach_accounts worldOf syncType gs :
  forall acc t,
    totalGames (resultOf (syncEach worldOf syncType gs acc t))
    + countOf isAlert (effectsOf (syncEach worldOf syncType gs acc t))
    = totalGames acc + Z.of_nat (length gs).
Proof.
  induction gs as [|game rest IH]; intros acc t.
  - unfold syncEach, mret, M_ret, ret, resultOf, effectsOf, countOf.
    cbn [fst snd List.filter length]. lia.
  - cbn [syncEach].
    destruct (bind_run (syncGame (worldOf game) game syncType)
                (fun result => syncEach worldOf syncType rest (addResult acc result)) t)
      as (-> & _ & ->).
    rewrite countOf_app. rewrite Z.add_assoc, (Z.add_comm (totalGames _)), <- Z.add_assoc.
    rewrite IH.
    destruct (syncGame_outcome (worldOf game) game syncType t) as (Ha & _).
    cbv zeta in Ha. unfold countOf at 1. rewrite Ha. unfold addResult.
    destruct (SyncService.success (resultOf (syncGame (worldOf game) game syncType t)));
      cbn [length List.filter totalGames]; lia.
Qed.

Lemma syncAllActiveGames_run w worldOf syncType t :
  sql_error w SelectActiveGames = None ->
  syncAllActiveGames w worldOf syncType t
  = if (length (activeGames t) =? 0)%nat then
      (mkSyncResult true (Some 0) None None None, t, [Sql SelectActiveGames])
    else
      let run := syncEach worldOf syncType (activeGames t) (mkTotals 0 0 0) t in
      (mkSyncResult true (Some (totalGames (resultOf run)))
         (Some (totalElements (resultOf run))) (Some (totalUsers (resultOf run))) None,
       tablesOf run, Sql SelectActiveGames :: effectsOf run).
Proof.
  intros Hsel. unfold syncAllActiveGames.
  unfold mbind, M_bind, bind, emit, read. rewrite Hsel.
  destruct (length (activeGames t) =? 0)%nat; [reflexivity|].
  cbv zeta. unfold resultOf, tablesOf, effectsOf.
  destruct (syncEach worldOf syncType (activeGames t) (mkTotals 0 0 0) t) as [[r t'] e].
  cbn. rewrite app_nil_r. reflexivity.
Qed.

(** [syncAllActiveGames] reports success as soon as the active games could
    be read, whatever became of each game.  Every active game is accounted
    for exactly once: it is counted in [gamesSynced] or an alert went out for
    it. *)
Theorem syncAllActiveGames_accounts w worldOf syncType t :
  sql_error w SelectActiveGames = None ->
  SyncService.success (resultOf (syncAllActiveGames w worldOf syncType t)) = true
  /\ sync_error (resultOf (syncAllActiveGames w worldOf syncType t)) = None
  /\ exists n,
       gamesSynced (resultOf (syncAllActiveGames w worldOf syncType t)) = Some n
       /\ n + countOf isAlert (effectsOf (syncAllActiveGames w worldOf syncType t))
          = Z.of_nat (length (activeGames t)).
Proof.
  intros Hsel. rewrite (syncAllActiveGames_run _ _ _ _ Hsel).
  pose proof (syncEach_accounts worldOf syncType (activeGames t) (mkTotals 0 0 0) t) as Hacc.
  destruct (activeGames t) as [|g gs].
  - cbn. split; [reflexivity|]. split; [reflexivity|]. exists 0. split; reflexivity.
  - cbn [length Nat.eqb]. cbv zeta.
    unfold resultOf at 1 2 3, effectsOf at 1. cbn [fst snd SyncService.success sync_error gamesSynced].
    split; [reflexivity|]. split; [reflexivity|].
    eexists. split; [reflexivity|].
    unfold effectsOf at 1. cbn [snd].
    unfold countOf at 1. cbn [List.filter isAlert]. fold (countOf isAlert).
    exact Hacc.
Qed.

Lemma syncAllActiveGames_accounts_witness :
  gamesSynced (resultOf (syncAllActiveGames (worldAt 0) worldOfGame scheduled threeGames))
  = Some 1
  /\ countOf isAlert
       (effectsOf (syncAllActiveGames (worldAt 0) worldOfGame scheduled threeGames)) = 1.
Proof.
  destruct (syncAllActiveGames_accounts (worldAt 0) worldOfGame scheduled threeGames eq_refl)
    as (_ & _ & n & Hn & Hsum).
  assert (Hone : gamesSynced
                   (resultOf (syncAllActiveGames (worldAt 0) worldOfGame scheduled threeGames))
                 = Some 1) by (vm_compute; reflexivity).
  split; [exact Hone|].
  rewrite Hone in Hn. injection Hn as <-.
  change (Z.of_nat (length (activeGames threeGames))) with 2 in Hsum. lia.
Defined.

(** One evaluation of a trigger, in the counters of [processAllTriggers]:
    a trigger that fired adds one TriggerLog insert, and one watermark update
    when the dispatch succeeded; a skipped trigger adds nothing. *)
Lemma processTrigger_counted w game tr t acc :
  countResults [resultOf (processTrigger w game tr t)] acc
  = (acc.1 + countOf isWatermarkUpdate (effectsOf (processTrigger w game tr t)),
     acc.2 + (countOf isTriggerLogInsert (effectsOf (processTrigger w game tr t))
              - countOf isWatermarkUpdate (effectsOf (processTrigger w game tr t))))
  /\ countOf isBrazeSend (effectsOf (processTrigger w game tr t))
     <= countOf isTriggerLogInsert (effectsOf (processTrigger w game tr t))
  /\ countOf isWatermarkUpdate (effectsOf (processTrigger w game tr t))
     <= countOf isTriggerLogInsert (effectsOf (processTrigger w game tr t)).
Proof.
  destruct (fires w game tr) eqn:Hf.
  - rewrite (processTrigger_fire _ _ _ _ Hf). cbv zeta.
    unfold resultOf, effectsOf. cbn [fst snd countResults triggered BrazeTriggerService.success].
    rewrite !countOf_app.
    assert (Hd : countOf isWatermarkUpdate (dispatchEffects w game tr) = 0
                 /\ countOf isTriggerLogInsert (dispatchEffects w game tr) = 0
                 /\ countOf isBrazeSend (dispatchEffects w game tr) <= 1).
    { unfold dispatchEffects, triggerBrazeCampaign.
      destruct (String.eqb (brazeApiUrl w) "" || String.eqb (brazeApiKey w) "");
        unfold mbind, M_bind, bind, mret, M_ret, ret, emit, countOf;
        cbn [fst snd app List.filter isWatermarkUpdate isTriggerLogInsert isBrazeSend length];
        repeat split; lia. }
    destruct Hd as (-> & -> & Hb).
    destruct (sent (dispatch w game tr)); unfold countOf in Hb |- *;
      cbn [List.filter isWatermarkUpdate isTriggerLogInsert isBrazeSend length];
      (split; [f_equal; lia | split; lia]).
  - rewrite (processTrigger_skip _ _ _ _ Hf).
    unfold resultOf, effectsOf, countOf.
    cbn [fst snd countResults triggered List.filter length].
    destruct acc as [a b]. cbn [fst snd]. split; [f_equal; lia | split; lia].
Qed.

Lemma countResults_app l l' acc :
  countResults (l ++ l') acc = countResults l' (countResults l acc).
Proof.
  revert acc. induction l as [|r l IH]; intros acc; [reflexivity|].
  cbn [app countResults]. apply IH.
Qed.

Lemma forEach_counted w game l :
  forall t acc r t' e,
    forEach (processTrigger w game) l t = (r, t', e) ->
    countResults r acc
    = (acc.1 + countOf isWatermarkUpdate e,
       acc.2 + (countOf isTriggerLogInsert e - countOf isWatermarkUpdate e))
    /\ countOf isBrazeSend e <= countOf isTriggerLogInsert e
    /\ countOf isWatermarkUpdate e <= countOf isTriggerLogInsert e.
Proof.
  induction l as [|tr l IH]; intros t acc r t' e Hrun.
  - cbn [forEach] in Hrun. unfold mret, M_ret, ret in Hrun. injection Hrun as <- <- <-.
    unfold countOf. cbn [countResults List.filter length].
    destruct acc as [a b]. cbn [fst snd]. split; [f_equal; lia | split; lia].
  - cbn [forEach] in Hrun. unfold mbind, M_bind, bind, mret, M_ret, ret in Hrun.
    pose proof (processTrigger_counted w game tr t acc) as (Hc & Hb & Hw).
    destruct (processTrigger w game tr t) as [[b t1] e1].
    destruct (forEach (processTrigger w game) l t1) as [[bs t2] e2] eqn:Hrest.
    injection Hrun as <- <- <-.
    unfold resultOf, effectsOf in Hc, Hb, Hw. cbn [fst snd] in Hc, Hb, Hw.
    change (b :: bs) with ([b] ++ bs). rewrite countResults_app, Hc.
    destruct (IH _ (acc.1 + countOf isWatermarkUpdate e1,
                    acc.2 + (countOf isTriggerLogInsert e1 - countOf isWatermarkUpdate e1))
                _ _ _ Hrest) as (-> & Hb' & Hw').
    rewrite app_nil_r, !countOf_app. cbn [fst snd]. split; [f_equal; lia | split; lia].
Qed.

Lemma processGameTriggers_counted w game t acc r t' e :
  processGameTriggers w game t = (r, t', e) ->
  countResults r acc
  = (acc.1 + countOf isWatermarkUpdate e,
     acc.2 + (countOf isTriggerLogInsert e - countOf isWatermarkUpdate e))
  /\ countOf isBrazeSend e <= countOf isTriggerLogInsert e
  /\ countOf isWatermarkUpdate e <= countOf isTriggerLogInsert e
  /\ (sql_error w (SelectActiveTriggers (game_id game)) <> None ->
      countOf isTriggerLogInsert e = 0).
Proof.
  unfold processGameTriggers. unfold mbind, M_bind, bind, emit, read.
  destruct (sql_error w (SelectActiveTriggers (game_id game))) as [err|].
  - unfold mret, M_ret, ret. intros Hrun. injection Hrun as <- <- <-.
    unfold countOf. cbn [countResults List.filter length isWatermarkUpdate
                           isTriggerLogInsert isBrazeSend app].
    destruct acc as [a b]. cbn [fst snd]. repeat split; try lia. f_equal; lia.
  - match goal with
    | |- context [forEach ?f ?l t] => destruct (forEach f l t) as [[bs t2] e2] eqn:Hrest
    end.
    intros Hrun. injection Hrun as <- <- <-.
    destruct (forEach_counted _ _ _ _ acc _ _ _ Hrest) as (-> & Hb & Hw).
    cbn [app]. unfold countOf in *.
    cbn [List.filter isWatermarkUpdate isTriggerLogInsert isBrazeSend].
    repeat split; [exact Hb | exact Hw | congruence].
Qed.

Lemma triggerEach_counted w gs :
  forall t acc r t' e,
    triggerEach w gs acc t = (r, t', e) ->
    r = (acc.1 + countOf isWatermarkUpdate e,
         acc.2 + (countOf isTriggerLogInsert e - countOf isWatermarkUpdate e))
    /\ countOf isBrazeSend e <= countOf isTriggerLogInsert e
    /\ countOf isWatermarkUpdate e <= countOf isTriggerLogInsert e
    /\ ((forall g, sql_error w (SelectActiveTriggers g) <> None) ->
        countOf isTriggerLogInsert e = 0).
Proof.
  induction gs as [|game rest IH]; intros t acc r t' e Hrun.
  - cbn [triggerEach] in Hrun. unfold mret, M_ret, ret in Hrun. injection Hrun as <- <- <-.
    unfold countOf. cbn [List.filter length].
    destruct acc as [a b]. cbn [fst snd]. repeat split; try lia. f_equal; lia.
  - cbn [triggerEach] in Hrun. unfold mbind, M_bind, bind in Hrun.
    destruct (processGameTriggers w game t) as [[results t1] e1] eqn:Hgame.
    destruct (triggerEach w rest (countResults results acc) t1) as [[r2 t2] e2] eqn:Hrest.
    injection Hrun as <- <- <-.
    destruct (processGameTriggers_counted _ _ _ acc _ _ _ Hgame) as (Hc & Hb & Hw & Hz).
    destruct (IH _ _ _ _ _ Hrest) as (-> & Hb' & Hw' & Hz').
    rewrite Hc, !countOf_app. cbn [fst snd]. repeat split; [f_equal; lia | lia | lia |].
    intros Hall. rewrite (Hz (Hall _)), (Hz' Hall). reflexivity.
Qed.

(** The counters of [processAllTriggers], once the active games could be
    read.  [gamesProcessed] is the number of active games, whatever happened
    for each.  [triggersExecuted] is the number of watermark updates sent and
    [triggersExecuted + errors] the number of TriggerLog inserts sent, so a
    skipped trigger is in neither; no more campaign requests leave than that.
    A game whose triggers could not be read adds nothing to [errors]: when
    this happens for every game both counters are 0. *)
Theorem processAllTriggers_counts w t :
  sql_error w SelectActiveGames = None ->
  gamesProcessed (resultOf (processAllTriggers w t)) = Z.of_nat (length (activeGames t))
  /\ triggersExecuted (resultOf (processAllTriggers w t))
     = countOf isWatermarkUpdate (effectsOf (processAllTriggers w t))
  /\ triggersExecuted (resultOf (processAllTriggers w t))
     + errors (resultOf (processAllTriggers w t))
     = countOf isTriggerLogInsert (effectsOf (processAllTriggers w t))
  /\ 0 <= errors (resultOf (processAllTriggers w t))
  /\ countOf isBrazeSend (effectsOf (processAllTriggers w t))
     <= countOf isTriggerLogInsert (effectsOf (processAllTriggers w t))
  /\ ((forall g, sql_error w (SelectActiveTriggers g) <> None) ->
      triggersExecuted (resultOf (processAllTriggers w t)) = 0
      /\ errors (resultOf (processAllTriggers w t)) = 0).
Proof.
  intros Hsel.
  assert (Hrun : processAllTriggers w t
                 = (mkTriggerTotals (Z.of_nat (length (activeGames t)))
                      (resultOf (triggerEach w (activeGames t) (0, 0) t)).1
                      (resultOf (triggerEach w (activeGames t) (0, 0) t)).2,
                    tablesOf (triggerEach w (activeGames t) (0, 0) t),
                    Sql SelectActiveGames
                    :: effectsOf (triggerEach w (activeGames t) (0, 0) t))).
  { unfold processAllTriggers. unfold mbind, M_bind, bind, emit, read. rewrite Hsel.
    unfold resultOf, tablesOf, effectsOf.
    destruct (triggerEach w (activeGames t) (0, 0) t) as [[r t'] e].
    unfold mret, M_ret, ret. cbn [fst snd app]. rewrite app_nil_r. reflexivity. }
  rewrite Hrun. clear Hrun.
  destruct (triggerEach w (activeGames t) (0, 0) t) as [[r t'] e] eqn:Hloop.
  destruct (triggerEach_counted _ _ _ _ _ _ _ Hloop) as (-> & Hb & Hw & Hz).
  unfold resultOf, tablesOf, effectsOf.
  cbn [fst snd gamesProcessed triggersExecuted errors].
  assert (Hw' : countOf isWatermarkUpdate (Sql SelectActiveGames :: e)
                = countOf isWatermarkUpdate e) by reflexivity.
  assert (Hl : countOf isTriggerLogInsert (Sql SelectActiveGames :: e)
               = countOf isTriggerLogInsert e) by reflexivity.
  assert (Hs : countOf isBrazeSend (Sql SelectActiveGames :: e)
               = countOf isBrazeSend e) by reflexivity.
  rewrite Hw', Hl, Hs.
  assert (H0 : 0 <= countOf isWatermarkUpdate e) by (unfold countOf; lia).
  repeat split; try lia.
  - rewrite (Hz H) in *. lia.
  - rewrite (Hz H) in *. lia.
Qed.

Lemma processAllTriggers_counts_witness :
  triggersExecuted (resultOf (processAllTriggers worldWithCampaigns tablesWithTriggers)) = 1
  /\ errors (resultOf (processAllTriggers worldWithCampaigns tablesWithTriggers)) = 1.
Proof.
  destruct (processAllTriggers_counts worldWithCampaigns tablesWithTriggers eq_refl)
    as (_ & Hexec & Hsum & _).
  assert (Hw : countOf isWatermarkUpdate
                 (effectsOf (processAllTriggers worldWithCampaigns tablesWithTriggers)) = 1)
    by (vm_compute; reflexivity).
  assert (Hl : countOf isTriggerLogInsert
                 (effectsOf (processAllTriggers worldWithCampaigns tablesWithTriggers)) = 2)
    by (vm_compute; reflexivity).
  rewrite Hw in Hexec. rewrite Hl in Hsum. split; [exact Hexec | lia].
Defined.

End AllGamesRuns.

(** ** The scheduled jobs behind the cron routes *)

Section CronJobs.

Import SyncService AllGames CronRoutes.

Lemma refused_spec cronSecret authHeader :
  refused cronSecret authHeader = false <-> carriesSecret cronSecret authHeader.
Proof.
  unfold refused, carriesSecret. destruct cronSecret as [secret|].
  - rewrite orb_false_iff, negb_false_iff, bool_decide_eq_true, String.eqb_neq.
    split.
    + intros [Hne Hh]. exists secret. auto.
    + intros (s & Hs & Hne & Hh). injection Hs as <-. auto.
  - split; [discriminate|]. intros (s & Hs & _). discriminate.
Qed.

(** Both cron routes answer 401 and do nothing at all, neither reading nor
    writing the store nor calling out, unless the request carries
    [Bearer <CRON_SECRET>]; with [CRON_SECRET] unset or empty every request
    is refused, whatever its header. *)
Theorem cron_routes_refuse w worldOf cronSecret authHeader t :
  ~ carriesSecret cronSecret authHeader ->
  POST_sync w worldOf cronSecret authHeader t
  = (mkHttpResponse 401 (ErrorBody "Unauthorized" (now w)), t, [])
  /\ POST_triggers w cronSecret authHeader t
     = (mkHttpResponse 401 (ErrorBody "Unauthorized" (now w)), t, []).
Proof.
  intros Hno. unfold POST_sync, POST_triggers.
  destruct (refused cronSecret authHeader) eqn:Hr.
  - split; reflexivity.
  - apply refused_spec in Hr. contradiction.
Qed.

Lemma cron_routes_refuse_witness :
  status (resultOf (POST_triggers worldWithCampaigns (Some "") (Some "Bearer ")
                      tablesWithTriggers)) = 401
  /\ effectsOf (POST_triggers worldWithCampaigns (Some "") (Some "Bearer ")
                  tablesWithTriggers) = [].
Proof.
  assert (Hno : ~ carriesSecret (Some "") (Some "Bearer ")).
  { intros (s & Hs & Hne & _). injection Hs as <-. apply Hne. reflexivity. }
  destruct (cron_routes_refuse worldWithCampaigns worldOfGame (Some "") (Some "Bearer ")
              tablesWithTriggers Hno) as [_ ->].
  split; reflexivity.
Defined.

Lemma getGamesDueForSync_run w t :
  getGamesDueForSync w t
  = (match sql_error w SelectActiveGames with
     | Some _ => []
     | None => gamesDue w t
     end, t, [Sql SelectActiveGames]).
Proof.
  unfold getGamesDueForSync, gamesDue, activeGames.
  unfold mbind, M_bind, bind, mret, M_ret, ret, emit, read.
  destruct (sql_error w SelectActiveGames); reflexivity.
Qed.

(** The sync job, for a request that carries the secret.  It answers 200
    in every case.  When the store cannot be read it answers that no games
    are due, as it does when none is, and syncs nothing.  Otherwise it syncs
    the games due, one after the other; [gamesChecked] is their number and
    every one of them is counted in [gamesSynced] or has an alert sent. *)
Theorem POST_sync_accounts w worldOf secret t :
  secret <> "" ->
  status (resultOf (POST_sync w worldOf (Some secret) (Some ("Bearer " +:+ secret)) t)) = 200
  /\ (sql_error w SelectActiveGames <> None \/ gamesDue w t = [] ->
      POST_sync w worldOf (Some secret) (Some ("Bearer " +:+ secret)) t
      = (mkHttpResponse 200 NoGamesDue, t, [Sql SelectActiveGames]))
  /\ (sql_error w SelectActiveGames = None -> gamesDue w t <> [] ->
      exists message synced usersCount elementsCount,
        body (resultOf (POST_sync w worldOf (Some secret) (Some ("Bearer " +:+ secret)) t))
        = SyncedBody message (Z.of_nat (length (gamesDue w t))) synced usersCount
            elementsCount (now w)
        /\ synced
           + countOf isAlert
               (effectsOf (POST_sync w worldOf (Some secret)
                             (Some ("Bearer " +:+ secret)) t))
           = Z.of_nat (length (gamesDue w t))).
Proof.
  intros Hne.
  assert (Hok : refused (Some secret) (Some ("Bearer " +:+ secret)) = false).
  { apply refused_spec. exists secret. auto. }
  assert (Hrun : POST_sync w worldOf (Some secret) (Some ("Bearer " +:+ secret)) t
                 = let due := match sql_error w SelectActiveGames with
                              | Some _ => []
                              | None => gamesDue w t
                              end in
                   if (length due =? 0)%nat then
                     (mkHttpResponse 200 NoGamesDue, t, [Sql SelectActiveGames])
                   else
                     let run := syncEach worldOf scheduled due (mkTotals 0 0 0) t in
                     (mkHttpResponse 200
                        (SyncedBody
                           ("Synced " +:+ pretty (totalGames (resultOf run)) +:+ " games")
                           (Z.of_nat (length due)) (totalGames (resultOf run))
                           (totalUsers (resultOf run)) (totalElements (resultOf run))
                           (now w)),
                      tablesOf run, Sql SelectActiveGames :: effectsOf run)).
  { unfold POST_sync. rewrite Hok.
    unfold mbind at 1, M_bind at 1, bind at 1. rewrite getGamesDueForSync_run. cbv zeta.
    destruct (length _ =? 0)%nat; [reflexivity|].
    unfold mbind, M_bind, bind, mret, M_ret, ret, resultOf, tablesOf, effectsOf.
    destruct (syncEach worldOf scheduled _ (mkTotals 0 0 0) t) as [[r t'] e].
    cbn [fst snd app]. rewrite app_nil_r. reflexivity. }
  rewrite Hrun. clear Hrun. cbv zeta.
  split; [|split].
  - destruct (length _ =? 0)%nat; reflexivity.
  - intros [Herr | Hnone].
    + destruct (sql_error w SelectActiveGames); [reflexivity | congruence].
    + rewrite Hnone. destruct (sql_error w SelectActiveGames); reflexivity.
  - intros -> Hdue.
    destruct (gamesDue w t) as [|g gs] eqn:Hg; [congruence|].
    cbn [length Nat.eqb].
    pose proof (syncEach_accounts worldOf scheduled (g :: gs) (mkTotals 0 0 0) t) as Hacc.
    unfold resultOf, effectsOf, countOf in Hacc |- *. cbn [fst snd body].
    do 4 eexists. split; [reflexivity|].
    cbn [totalGames length List.filter isAlert] in Hacc |- *.
    lia.
Qed.

Lemma POST_sync_accounts_witness :
  POST_sync (worldWithoutLog 0 [] []) worldOfGame (Some "s3cret") (Some "Bearer s3cret")
    (set_games (fun _ => ∅) emptyTables)
  = (mkHttpResponse 200 NoGamesDue, set_games (fun _ => ∅) emptyTables,
     [Sql SelectActiveGames]).
Proof.
  refine (proj1 (proj2 (POST_sync_accounts (worldWithoutLog 0 [] []) worldOfGame "s3cret"
                          (set_games (fun _ => ∅) emptyTables) _)) _).
  - discriminate.
  - right. reflexivity.
Defined.

End CronJobs.

(** ** The rate limiter *)

Section RateLimiter.

Import RateLimit.

Lemma cleanup_lookup now s k :
  rateLimitStore (cleanupExpiredEntries now s) !! k = rateLimitStore s !! k
  \/ (rateLimitStore (cleanupExpiredEntries now s) !! k = None
      /\ exists e, rateLimitStore s !! k = Some e /\ resetTime e < now).
Proof.
  unfold cleanupExpiredEntries.
  destruct (now - lastCleanup s <? CLEANUP_INTERVAL_MS); [left; reflexivity|].
  cbn [rateLimitStore].
  destruct (rateLimitStore s !! k) as [e|] eqn:Hk.
  - destruct (Z_lt_dec (resetTime e) now) as [Hlt|Hge].
    + right. split; [|eauto].
      apply map_lookup_filter_None. right. intros e' He'. cbn [snd].
      rewrite Hk in He'. injection He' as <-. lia.
    + left. apply map_lookup_filter_Some. split; [exact Hk|]. cbn [snd]. lia.
  - left. apply map_lookup_filter_None. left. exact Hk.
Qed.

Lemma cleanup_liveAt tc t s k :
  tc <= t ->
  liveAt t (rateLimitStore (cleanupExpiredEntries tc s) !! k)
  = liveAt t (rateLimitStore s !! k).
Proof.
  intros Hle. destruct (cleanup_lookup tc s k) as [-> | [-> (e & -> & He)]]; [reflexivity|].
  unfold liveAt. destruct (Z.gtb_spec t (resetTime e)); [reflexivity | lia].
Qed.

(** The answer of a call and the entry it leaves, from the entry that is
    live when it is made. *)
Lemma checkRateLimit_answer tc t key cfg s :
  (checkRateLimit tc t key cfg s).1
  = match liveAt t (rateLimitStore (cleanupExpiredEntries tc s) !! key) with
    | None => mkRateLimitResult true (limit cfg) (limit cfg - 1) (t + windowSeconds cfg * 1000)
    | Some e =>
        if count e + 1 >? limit cfg
        then mkRateLimitResult false (limit cfg) 0 (resetTime e)
        else mkRateLimitResult true (limit cfg) (limit cfg - (count e + 1)) (resetTime e)
    end
  /\ rateLimitStore (checkRateLimit tc t key cfg s).2
     = <[key := match liveAt t (rateLimitStore (cleanupExpiredEntries tc s) !! key) with
                | None => mkRateLimitEntry 1 (t + windowSeconds cfg * 1000)
                | Some e => mkRateLimitEntry (count e + 1) (resetTime e)
                end]> (rateLimitStore (cleanupExpiredEntries tc s)).
Proof.
  unfold checkRateLimit. cbv zeta. unfold liveAt.
  destruct (rateLimitStore (cleanupExpiredEntries tc s) !! key) as [e|]; [|split; reflexivity].
  destruct (t >? resetTime e); [split; reflexivity|].
  cbn [count resetTime].
  destruct (count e + 1 >? limit cfg); split; reflexivity.
Qed.

Lemma serve_within_window key cfg reset calls :
  forall s c0,
    rateLimitStore s !! key = Some (mkRateLimitEntry c0 reset) ->
    withinWindow key cfg reset calls ->
    allowed key calls (serve calls s)
    = Nat.min (length (List.filter (isFor key) calls)) (Z.to_nat (limit cfg - c0)).
Proof.
  induction calls as [|c rest IH]; intros s c0 Hs Hw; [reflexivity|].
  apply Forall_cons in Hw. destruct Hw as [[Hclean Hcall] Hrest].
  cbn [serve allowed List.filter].
  destruct (checkRateLimit_answer (cleanedAt c) (calledAt c) (call_key c) (call_config c) s)
    as [Hans Hstore].
  assert (Hkept : rateLimitStore (cleanupExpiredEntries (cleanedAt c) s) !! key
                  = Some (mkRateLimitEntry c0 reset)).
  { destruct (cleanup_lookup (cleanedAt c) s key) as [-> | [_ (e & He & Hlt)]]; [exact Hs|].
    rewrite Hs in He. injection He as <-. cbn in Hlt. lia. }
  destruct (isFor key c) eqn:Hfor.
  - destruct (Hcall eq_refl) as [Hat Hcfg].
    unfold isFor in Hfor. apply String.eqb_eq in Hfor.
    rewrite Hfor, Hcfg in Hans, Hstore |- *. rewrite Hkept in Hans, Hstore.
    unfold liveAt in Hans, Hstore. cbn [resetTime count] in Hans, Hstore.
    destruct (Z.gtb_spec (calledAt c) reset) as [Hgt|_]; [lia|].
    cbn [resetTime count] in Hans, Hstore.
    rewrite (IH _ (c0 + 1)); [| rewrite Hstore; apply lookup_insert_eq | exact Hrest].
    rewrite Hans. cbn [andb length].
    destruct (Z.gtb_spec (c0 + 1) (limit cfg)); cbn [success]; lia.
  - cbn [andb]. rewrite (IH _ c0); [reflexivity | | exact Hrest].
    rewrite Hstore, lookup_insert_ne; [exact Hkept|].
    unfold isFor in Hfor. apply String.eqb_neq in Hfor. exact Hfor.
Qed.

(** A window of the rate limiter.  A call for a key that has no entry, or
    one whose window is over, opens a window of [windowSeconds].  Of the [n]
    calls for the key up to the end of this window, the opening call
    included, exactly min(n, max(1, limit)) are let through, whatever calls
    for other keys come in between: no more than [limit], except that the
    opening call is let through even when [limit] is 0 or less. *)
Theorem checkRateLimit_window key cfg s tc0 t0 rest :
  lapsed t0 (rateLimitStore s !! key) ->
  withinWindow key cfg (t0 + windowSeconds cfg * 1000) rest ->
  allowed key (mkCall key cfg tc0 t0 :: rest) (serve (mkCall key cfg tc0 t0 :: rest) s)
  = Nat.min (S (length (List.filter (isFor key) rest))) (Z.to_nat (Z.max 1 (limit cfg))).
Proof.
  intros Hl Hw. cbn [serve allowed call_key call_config cleanedAt calledAt].
  destruct (checkRateLimit_answer tc0 t0 key cfg s) as [Hans Hstore].
  assert (Hfresh : liveAt t0 (rateLimitStore (cleanupExpiredEntries tc0 s) !! key) = None).
  { destruct (cleanup_lookup tc0 s key) as [-> | [-> _]]; [|reflexivity].
    unfold lapsed in Hl. unfold liveAt.
    destruct (rateLimitStore s !! key) as [e|]; [|reflexivity].
    destruct (Z.gtb_spec t0 (resetTime e)); [reflexivity | lia]. }
  rewrite Hfresh in Hans, Hstore.
  rewrite (serve_within_window key cfg (t0 + windowSeconds cfg * 1000) rest _ 1);
    [| rewrite Hstore; apply lookup_insert_eq | exact Hw].
  rewrite Hans. unfold isFor at 1. cbn [call_key success]. rewrite String.eqb_refl.
  cbn [andb]. lia.
Qed.

Lemma checkRateLimit_window_witness :
  allowed "ip:10.0.0.1" (burst "ip:10.0.0.1" 8)
    (serve (burst "ip:10.0.0.1" 8) (mkLimiter ∅ 0)) = 5%nat.
Proof.
  refine (eq_trans
            (checkRateLimit_window "ip:10.0.0.1" auth (mkLimiter ∅ 0) 0 0
               (map (fun i => mkCall "ip:10.0.0.1" auth (Z.of_nat i * 1000)
                                (Z.of_nat i * 1000)) (seq 1 7)) _ _) _).
  - exact I.
  - unfold withinWindow. repeat constructor; cbn; try lia; try discriminate.
  - reflexivity.
Defined.

Lemma lapsed_later t t' o : t <= t' -> lapsed t o -> lapsed t' o.
Proof. unfold lapsed. destruct o; [lia | trivial]. Qed.

Lemma lapsed_liveAt t o : lapsed t o -> liveAt t o = None.
Proof.
  unfold lapsed, liveAt. destruct o as [e|]; [|reflexivity].
  intros H. destruct (Z.gtb_spec t (resetTime e)); [reflexivity | lia].
Qed.

Lemma cleanup_sameLive tc s s' t0 :
  t0 <= tc ->
  sameLiveEntries t0 s s' ->
  sameLiveEntries tc (cleanupExpiredEntries tc s) (cleanupExpiredEntries tc s').
Proof.
  intros Hle Hsame k.
  assert (Hcase : forall x,
            rateLimitStore (cleanupExpiredEntries tc x) !! k = rateLimitStore x !! k
            \/ (rateLimitStore (cleanupExpiredEntries tc x) !! k = None
                /\ lapsed tc (rateLimitStore x !! k))).
  { intros x. destruct (cleanup_lookup tc x k) as [H | [H (e & He & Hlt)]]; [left; exact H|].
    right. split; [exact H|]. rewrite He. exact Hlt. }
  destruct (Hsame k) as [Heq | [Hl Hl']].
  - destruct (Hcase s) as [-> | [-> Hls]], (Hcase s') as [-> | [-> Hls']].
    + left. exact Heq.
    + right. split; [rewrite Heq; exact Hls' | exact I].
    + right. split; [exact I | rewrite <- Heq; exact Hls].
    + left. reflexivity.
  - right.
    apply (lapsed_later t0 tc) in Hl; [|exact Hle].
    apply (lapsed_later t0 tc) in Hl'; [|exact Hle].
    destruct (Hcase s) as [-> | [-> _]], (Hcase s') as [-> | [-> _]];
      split; try assumption; exact I.
Qed.

Lemma serve_sameLive calls :
  forall t0 s s',
    sameLiveEntries t0 s s' -> chronological t0 calls -> serve calls s = serve calls s'.
Proof.
  induction calls as [|c rest IH]; intros t0 s s' Hsame Hchron; [reflexivity|].
  cbn [chronological] in Hchron. destruct Hchron as (Hle & Hcl & Hrest).
  cbn [serve].
  destruct (checkRateLimit_answer (cleanedAt c) (calledAt c) (call_key c) (call_config c) s)
    as [Hans Hstore].
  destruct (checkRateLimit_answer (cleanedAt c) (calledAt c) (call_key c) (call_config c) s')
    as [Hans' Hstore'].
  pose proof (cleanup_sameLive (cleanedAt c) s s' t0 Hle Hsame) as Hclean.
  assert (Hlive : liveAt (calledAt c)
                    (rateLimitStore (cleanupExpiredEntries (cleanedAt c) s) !! call_key c)
                  = liveAt (calledAt c)
                      (rateLimitStore (cleanupExpiredEntries (cleanedAt c) s')
                         !! call_key c)).
  { destruct (Hclean (call_key c)) as [-> | [Hl Hl']]; [reflexivity|].
    rewrite !lapsed_liveAt; [reflexivity | |];
      eapply lapsed_later; try eassumption. }
  rewrite Hlive in Hans, Hstore.
  f_equal; [congruence|].
  apply (IH (calledAt c)); [|exact Hrest].
  intros k. rewrite Hstore, Hstore'.
  destruct (decide (k = call_key c)) as [->|Hk].
  - left. rewrite !lookup_insert_eq. reflexivity.
  - rewrite !lookup_insert_ne by congruence.
    destruct (Hclean k) as [H | [Hl Hl']]; [left; exact H|].
    right. split; eapply lapsed_later; eassumption.
Qed.

(** The cleanup of expired entries cannot be observed.  For calls that follow
    one another in time, each answer is the same whenever the last cleanup
    was, and so whether a cleanup runs or not, and the same whether or not
    the store still holds entries whose window is over. *)
Theorem cleanup_unobservable calls t0 s s' :
  chronological t0 calls ->
  sameLiveEntries t0 s s' ->
  serve calls s = serve calls s'
  /\ (forall last, serve calls s = serve calls (mkLimiter (rateLimitStore s) last)).
Proof.
  intros Hchron Hsame. split.
  - exact (serve_sameLive calls t0 s s' Hsame Hchron).
  - intros last. apply (serve_sameLive calls t0); [|exact Hchron].
    intros k. left. reflexivity.
Qed.

Lemma cleanup_unobservable_witness :
  serve [mkCall "api:swm_abcdefgh" publicApi 70000 70001]
    (mkLimiter {[ "api:swm_abcdefgh" := mkRateLimitEntry 100 60000;
                  "ip:10.0.0.1" := mkRateLimitEntry 3 60500 ]} 0)
  = serve [mkCall "api:swm_abcdefgh" publicApi 70000 70001] (mkLimiter ∅ 69000).
Proof.
  refine (proj1 (cleanup_unobservable [mkCall "api:swm_abcdefgh" publicApi 70000 70001] 70000
                   _ _ _ _)).
  - cbn. lia.
  - intros k. right.
    destruct (decide (k = "api:swm_abcdefgh")) as [->|H1].
    + split; [vm_compute; reflexivity | exact I].
    + destruct (decide (k = "ip:10.0.0.1")) as [->|H2].
      * split; [vm_compute; reflexivity | exact I].
      * cbn [rateLimitStore].
        rewrite lookup_insert_ne by congruence. rewrite lookup_singleton_ne by congruence.
        split; exact I.
Defined.

End RateLimiter.
